(** * GKOS chord reference diagrams: a shallow embedding of
    [docs/generate_diagrams.py] and the properties of its specification.

    Conventions of the embedding.

    - A Python [str] is a list of Unicode code points ([pystr]); [len] is the
      length of that list, and an empty list is the only falsy string.
    - Python integers are [Z]. Python floats are modelled by exact rationals
      ([Q]): every coordinate of the program is a short decimal fraction, and
      no property below depends on a rounding of the last binary digit.
    - The [Svg] builder is append-only: each drawing procedure is embedded as
      the list of primitives it appends to the builder, in order, and
      sequencing is list concatenation.  A primitive records the arguments of
      the [Svg] method call; [Svg_build] turns the primitives into text.
    - A Python exception is a value [Raise e] of the [result] type. *)

From Stdlib Require Import ZArith QArith Lia Lqa List String Ascii Bool.
From Stdlib Require Import DecimalString Permutation.
From stdpp Require Import gmap.
Import ListNotations.

Local Open Scope Z_scope.

(** ** Python strings *)

Definition pystr : Type := list Z.

(** The code points of a literal written in ASCII. *)
Definition lit (s : string) : pystr :=
  List.map (fun c => Z.of_N (N_of_ascii c)) (list_ascii_of_string s).

Definition len (s : pystr) : Z := Z.of_nat (List.length s).

(** Truth value of a string: [if s:]. *)
Definition truthy (s : pystr) : bool :=
  match s with [] => false | _ :: _ => true end.

(** [str.isspace] for one code point (the whitespace table of CPython). *)
Definition isspace (c : Z) : bool :=
  ((9 <=? c) && (c <=? 13)) || ((28 <=? c) && (c <=? 32))
  || (c =? 0x85) || (c =? 0xA0) || (c =? 0x1680)
  || ((0x2000 <=? c) && (c <=? 0x200A))
  || (c =? 0x2028) || (c =? 0x2029) || (c =? 0x202F)
  || (c =? 0x205F) || (c =? 0x3000).

(** [s.rstrip()]: drop the trailing run of whitespace. *)
Fixpoint rstrip (s : pystr) : pystr :=
  match s with
  | [] => []
  | c :: r =>
      match rstrip r with
      | [] => if isspace c then [] else [c]
      | r' => c :: r'
      end
  end.

(** ** Key constants *)

Definition A : Z := 1.
Definition B : Z := 2.
Definition C : Z := 4.
Definition D : Z := 8.
Definition E : Z := 16.
Definition F : Z := 32.

Definition KEYS : list Z := [A; B; C; D; E; F].

(** The dictionaries [KNAME], [KCOL] and [KROW] are only ever indexed by
    members of [KEYS]; the last branch stands for the [KeyError] that no
    call site can reach. *)
Definition KNAME (k : Z) : pystr :=
  match k with
  | 1 => lit "A" | 2 => lit "B" | 4 => lit "C"
  | 8 => lit "D" | 16 => lit "E" | 32 => lit "F"
  | _ => []
  end.

Definition KCOL (k : Z) : Z :=
  match k with
  | 1 | 2 | 4 => 0
  | 8 | 16 | 32 => 1
  | _ => 0
  end.

Definition KROW (k : Z) : Z :=
  match k with
  | 1 => 0 | 2 => 1 | 4 => 2
  | 8 => 0 | 16 => 1 | 32 => 2
  | _ => 0
  end.

Definition LEFT : list Z := [A; B; C].
Definition RIGHT : list Z := [D; E; F].

(** [k in s] for a set of keys. *)
Definition key_in (k : Z) (s : list Z) : bool :=
  List.existsb (Z.eqb k) s.

(** [s <= t] for sets of keys. *)
Definition subset (s t : list Z) : bool :=
  List.forallb (fun k => key_in k t) s.

(** [bits(mask)]: the key constants pressed in a bitmask. *)
Definition bits (mask : Z) : list Z :=
  List.filter (fun k => negb (Z.land mask k =? 0)) KEYS.

(** [chord_label(mask)]. *)
Definition chord_label (mask : Z) : pystr :=
  List.concat (List.map KNAME (bits mask)).

(** Re-union of a list of keys ([functools.reduce(operator.or_, ks, 0)]). *)
Definition union (ks : list Z) : Z := List.fold_right Z.lor 0 ks.

(** ** Display mapping for action and special values *)

Definition _ACTION : list (pystr * pystr) :=
  [ (lit "UpArrow", [0x2191]); (lit "DownArrow", [0x2193]);
    (lit "LeftArrow", [0x2190]); (lit "RightArrow", [0x2192]);
    (lit "backspace", [0x232b]); (lit "space", [0x2423]);
    (lit "enter", [0x23ce]);
    (lit "tab", [0x21e5]); (lit "delete", [0x2326]);
    (lit "esc", lit "Esc"); (lit "PageUp", lit "PgUp");
    (lit "PageDown", lit "PgDn");
    (lit "Home", lit "Home"); (lit "End", lit "End");
    (lit "shift", [0x21e7]); (lit "symb", lit "@#");
    (lit "mode_toggle", lit "ABC" ++ [0x21c4] ++ lit "123");
    (lit "ctrl", lit "Ctrl"); (lit "alt", lit "Alt");
    (lit "ScrollUp", [0x2191; 0x2191]); (lit "ScrollDown", [0x2193; 0x2193]);
    (lit "WordLeft", [0x21d0]); (lit "WordRight", [0x21d2]);
    (lit "PanLeft", [0x21c7]); (lit "PanRight", [0x21c9]);
    (lit "PanLeftHome", [0x21e4]); (lit "PanRightEnd", [0x21e5]);
    (lit "unicode_picker", lit "Uni"); (lit "emoji", [0x1f600]);
    (lit "Insert", lit "Ins") ].

(** [d.get(key)] on a dictionary literal with string keys. *)
Fixpoint dict_get (d : list (pystr * pystr)) (key : pystr) : option pystr :=
  match d with
  | [] => None
  | (k, v) :: d' => if bool_decide (k = key) then Some v else dict_get d' key
  end.

(** [disp(val)]: convert a layout value to a display string. *)
Definition disp (val : pystr) : pystr :=
  if negb (truthy val) then []
  else match dict_get _ACTION val with
       | Some d => d
       | None => rstrip val
       end.

(** [font_size_for(char, base_size)]. *)
Definition font_size_for (char : pystr) (base_size : Z) : Z :=
  let n := len char in
  if n <=? 1 then base_size
  else if n =? 2 then Z.max 9 (base_size - 3)
  else if n <=? 4 then Z.max 8 (base_size - 5)
  else Z.max 7 (base_size - 7).

(** ** Layout entries *)

(** The dictionary built per entry by [parse_layout]: six string fields.
    Such a dictionary is never empty, so an entry that is present is truthy. *)
Record Entry : Type := mkEntry {
  abc : pystr;
  abc_shift : pystr;
  num : pystr;
  num_shift : pystr;
  symb : pystr;
  symb_shift : pystr
}.

(** The idiom [disp(entry[f]) if entry else ''] on the result of
    [entries.get(chord)]. *)
Definition field (f : Entry -> pystr) (entry : option Entry) : pystr :=
  match entry with
  | Some e => disp (f e)
  | None => []
  end.

(** ** Exceptions *)

Inductive exn : Type := IndexError | TypeError.

Inductive result (T : Type) : Type :=
| Ok (v : T)
| Raise (e : exn).

Arguments Ok {T} v.
Arguments Raise {T} e.

Definition bind {T U : Type} (r : result T) (k : T -> result U) : result U :=
  match r with
  | Ok v => k v
  | Raise e => Raise e
  end.

(** ** SVG builder *)

Local Open Scope Q_scope.

(** A number printed with a bare [{}]: Python prints [4] and [4.0]
    differently, so the two kinds are kept apart. *)
Inductive pynum : Type :=
| PyInt (z : Z)
| PyFloat (q : Q).

(** One element of [Svg._parts], as the arguments of the method call that
    appended it.  Keyword arguments are listed in the order
    fill, stroke, stroke_width, rx for [rect] and
    size, fill, anchor, weight, baseline for [text]. *)
Inductive prim : Type :=
| Rect (x y w h : Q) (fill stroke : string) (sw rx : pynum)
| Text (x y : Q) (txt : pystr) (sz : Z) (fill anchor weight bl : string)
| OpenG (tx ty : Q)
| CloseG
| Comment (s : pystr).

Definition svg_rect (x y w h : Q) (fill stroke : string) (sw rx : pynum)
  : list prim :=
  [Rect x y w h fill stroke sw rx].

(** [Svg.text]; no caller passes [baseline], which stays ['central']. *)
Definition svg_text (x y : Q) (txt : pystr) (sz : Z)
    (fill anchor weight : string) : list prim :=
  [Text x y txt sz fill anchor weight "central"].

Definition svg_open_g (tx ty : Q) : list prim := [OpenG tx ty].
Definition svg_close_g : list prim := [CloseG].
Definition svg_comment (s : pystr) : list prim := [Comment s].

(** [max(a, b)] on numbers: the first argument unless the second is larger. *)
Definition py_max (a b : Q) : Q := if Qle_bool b a then a else b.

(** [int(x)]: truncation toward zero. *)
Definition py_int (x : Q) : Z := Z.quot (Qnum x) (Zpos (Qden x)).

(** [a or b] where [a] may be [None] or an empty string. *)
Definition or_else (a : option string) (b : string) : string :=
  match a with
  | Some s => if String.eqb s "" then b else s
  | None => b
  end.

(** ** Drawing primitives *)

Definition draw_key (x y w h : Q) (char : pystr) (pressed : bool)
    (font_size : Z) (text_fill : option string) (dimmed : bool) : list prim :=
  let box :=
    if pressed then svg_rect x y w h "#222" "#222" (PyFloat 1.5) (PyInt 4)
    else if dimmed then svg_rect x y w h "#f0f0f0" "#ccc" (PyInt 1) (PyInt 4)
    else svg_rect x y w h "white" "#555" (PyFloat 1.5) (PyInt 4) in
  let fill :=
    if pressed then or_else text_fill "white"
    else if dimmed then or_else text_fill "#888"
    else or_else text_fill "black" in
  box ++
  (if truthy char then
     let fs := font_size_for char font_size in
     svg_text (x + w / 2) (y + h / 2) char fs fill "middle" "bold"
   else []).

(** One dictionary of [key_info]; a key missing from the dictionary literal
    takes the default that [draw_6keys] gives to [info.get]. *)
Record KeyInfo : Type := mkInfo {
  ki_char : pystr;
  ki_pressed : bool;
  ki_font_size : Z;
  ki_text_fill : option string;
  ki_dimmed : bool
}.

(** [draw_6keys]: every caller appends one dictionary per member of [KEYS],
    so [key_info[i]] is paired with the i-th key. *)
Definition draw_6keys (ox oy kw kh gx gy : Q) (key_info : list KeyInfo)
  : list prim :=
  List.flat_map
    (fun '(key, info) =>
       let col := KCOL key in
       let row := KROW key in
       let x := ox + inject_Z col * (kw + gx) in
       let y := oy + inject_Z row * (kh + gy) in
       draw_key x y kw kh (ki_char info) (ki_pressed info)
                (ki_font_size info) (ki_text_fill info) (ki_dimmed info))
    (List.combine KEYS key_info).

(** ** Diagram sections *)

Definition _draw_num_symb (x y_num y_symb : Q) (num_char symb_char : pystr)
    (anchor : string) (num_size symb_size : Z) : list prim :=
  (if truthy num_char then
     svg_text x y_num num_char num_size "#999" anchor "bold"
   else []) ++
  (if truthy symb_char then
     svg_text x y_symb symb_char symb_size "#2266cc" anchor "normal"
   else []).

Definition draw_center_cell (cx cy : Q) (entries : gmap Z Entry)
  : list prim :=
  let kw := 55 in let kh := 42 in
  let gx := 26 in let gy := 8 in
  let total_w := 2 * kw + gx in
  let total_h := 3 * kh + 2 * gy in
  let ox := cx - total_w / 2 in
  let oy := cy - total_h / 2 in
  let key_info :=
    List.map (fun key => mkInfo (field abc (entries !! key)) false 24 None false)
             KEYS in
  draw_6keys ox oy kw kh gx gy key_info ++
  List.flat_map
    (fun key =>
       match entries !! key with
       | None => []
       | Some e =>
           let col := KCOL key in
           let row := KROW key in
           let kx := ox + inject_Z col * (kw + gx) in
           let ky := oy + inject_Z row * (kh + gy) in
           let num_char := disp (num e) in
           let symb_char := disp (symb e) in
           if key_in key LEFT then
             _draw_num_symb (kx - 7) (ky + kh * 0.30) (ky + kh * 0.72)
                            num_char symb_char "end" 12 11
           else
             _draw_num_symb (kx + kw + 7) (ky + kh * 0.30) (ky + kh * 0.72)
                            num_char symb_char "start" 12 11
       end)
    KEYS.

(** [sorted(l)] on a list of integers. *)
Fixpoint insert_sorted (x : Z) (l : list Z) : list Z :=
  match l with
  | [] => [x]
  | y :: r => if (x <=? y)%Z then x :: l else y :: insert_sorted x r
  end.

Definition sorted (l : list Z) : list Z :=
  List.fold_right insert_sorted [] l.

(** [list(s)[0]] for a set [s] built from distinct key constants listed in
    [KEYS] order.  CPython keeps a small integer [k] at slot [k mod 8] of a
    table of eight slots, which grows to 32 slots when a fifth key is added,
    and lists a set slot by slot: [D], [E] and [F] all ask for slot 0 of the
    small table and the first of them gets it, [A], [B], [C] sit at slots
    1, 2, 4; in the large table [F] sits at slot 0 and [A] at slot 1. *)
Definition set_first (s : list Z) : option Z :=
  if (Z.of_nat (List.length s) <=? 4)%Z then
    match List.filter (fun k => key_in k RIGHT) s with
    | k :: _ => Some k
    | [] => List.hd_error s
    end
  else if key_in F s then Some F
  else List.hd_error s.

(** Lines 289-309 of [draw_inner_chord_cell]: the side opposite to the
    pressed keys and the dictionary [ext_data] of its 3-key extensions. *)
Definition inner_ext_side (pressed : list Z) : list Z :=
  if subset pressed LEFT then RIGHT
  else if subset pressed RIGHT then LEFT
  else [].

Definition inner_ext_data (entries : gmap Z Entry) (base_chord : Z)
    (key : Z) : option (pystr * pystr * pystr) :=
  if key_in key (inner_ext_side (bits base_chord)) then
    match entries !! (Z.lor base_chord key) with
    | Some ext_entry =>
        Some (disp (abc ext_entry), disp (num ext_entry), disp (symb ext_entry))
    | None => None
    end
  else None.

(** Lines 315-325: the six dictionaries of [key_info]. *)
Definition inner_key_info (entries : gmap Z Entry) (base_chord : Z)
  : list KeyInfo :=
  List.map
    (fun key =>
       if key_in key (bits base_chord) then mkInfo [] true 14 None false
       else match inner_ext_data entries base_chord key with
            | Some (c, _, _) => mkInfo c false 13 None false
            | None => mkInfo [] false 16 None true
            end)
    KEYS.

(** Lines 328-358: the floating badge of the base chord and its
    annotations.  [r0] and [r1] are [pressed_rows[0]] and
    [pressed_rows[-1]]. *)
Definition inner_badge (ox oy kw kh gx gy : Q) (entries : gmap Z Entry)
    (base_chord : Z) (r0 r1 : Z) : result (list prim) :=
  let pressed := bits base_chord in
  let base_entry := entries !! base_chord in
  let base_char := field abc base_entry in
  let base_num := field num base_entry in
  let base_symb := field symb base_entry in
  let pressed_on_left := subset pressed LEFT in
  let is_non_adjacent := (r1 - r0 >? 1)%Z in
  if truthy base_char then
    match set_first pressed with
    | None => Raise IndexError
    | Some k0 =>
        let col := KCOL k0 in
        let lx := ox + inject_Z col * (kw + gx) + kw / 2 in
        let y_top := oy + inject_Z r0 * (kh + gy) + kh / 2 in
        let y_bot := oy + inject_Z r1 * (kh + gy) + kh / 2 in
        let ly := (y_top + y_bot) / 2 in
        let lx :=
          if is_non_adjacent then
            if pressed_on_left then lx - 14 else lx + 14
          else lx in
        let fs := font_size_for base_char 16 in
        let badge_w :=
          py_max (kw - 2) (inject_Z (len base_char * fs) * 0.7 + 8) in
        let badge_h := inject_Z (fs + 8) in
        let ann_x :=
          if pressed_on_left then lx - badge_w / 2 - 4
          else lx + badge_w / 2 + 4 in
        let anchor := if pressed_on_left then "end"%string else "start"%string in
        Ok (svg_rect (lx - badge_w / 2) (ly - badge_h / 2) badge_w badge_h
                     "#333" "#333" (PyInt 0) (PyFloat (badge_h / 2)) ++
            svg_text lx ly base_char fs "white" "middle" "bold" ++
            _draw_num_symb ann_x (ly - 6) (ly + 6)
                           base_num base_symb anchor 9 8)
    end
  else Ok [].

(** Lines 360-374: the annotations of the extension keys, in the order in
    which CPython lists the sets [LEFT] and [RIGHT] (that of [KEYS]). *)
Definition inner_ext_annotations (ox oy kw kh gx gy : Q)
    (entries : gmap Z Entry) (base_chord : Z) : list prim :=
  List.flat_map
    (fun key =>
       match inner_ext_data entries base_chord key with
       | None => []
       | Some (_, ext_num, ext_symb) =>
           let key_col := KCOL key in
           let key_row := KROW key in
           let kx := ox + inject_Z key_col * (kw + gx) in
           let ky := oy + inject_Z key_row * (kh + gy) in
           if key_in key LEFT then
             _draw_num_symb (kx - 4) (ky + kh * 0.30) (ky + kh * 0.72)
                            ext_num ext_symb "end" 9 8
           else
             _draw_num_symb (kx + kw + 4) (ky + kh * 0.30) (ky + kh * 0.72)
                            ext_num ext_symb "start" 9 8
       end)
    (inner_ext_side (bits base_chord)).

(** [draw_inner_chord_cell].  [pressed_rows[-1] - pressed_rows[0]] is
    evaluated before anything is drawn and raises [IndexError] when no key
    of [KEYS] is pressed. *)
Definition draw_inner_chord_cell (cx cy : Q) (entries : gmap Z Entry)
    (base_chord : Z) : result (list prim) :=
  let kw := 42 in let kh := 30 in
  let gx := 14 in let gy := 6 in
  let total_w := 2 * kw + gx in
  let total_h := 3 * kh + 2 * gy in
  let ox := cx - total_w / 2 in
  let oy := cy - total_h / 2 in
  let pressed := bits base_chord in
  let pressed_rows := sorted (List.map KROW pressed) in
  match pressed_rows with
  | [] => Raise IndexError
  | r0 :: _ =>
      let r1 := List.last pressed_rows r0 in
      bind (inner_badge ox oy kw kh gx gy entries base_chord r0 r1)
        (fun badge =>
           Ok (draw_6keys ox oy kw kh gx gy (inner_key_info entries base_chord)
               ++ badge
               ++ inner_ext_annotations ox oy kw kh gx gy entries base_chord))
  end.

(** The six dictionaries of a mini keyboard: the keys of the chord pressed,
    the others dimmed. *)
Definition mini_key_info (chord_mask : Z) (font_size : Z) : list KeyInfo :=
  let pressed := bits chord_mask in
  List.map
    (fun key =>
       mkInfo [] (key_in key pressed) font_size None
              (negb (key_in key pressed)))
    KEYS.

Definition draw_outer_chord_cell (cx cy : Q) (entries : gmap Z Entry)
    (chord_mask : Z) (cell_w cell_h : Q) : list prim :=
  let entry := entries !! chord_mask in
  let char := field abc entry in
  let num_char := field num entry in
  let symb_char := field symb entry in
  let mkw := 20 in let mkh := 15 in
  let mgx := 5 in let mgy := 3 in
  let kb_w := 2 * mkw + mgx in
  let kb_h := 3 * mkh + 2 * mgy in
  let kb_ox := cx - kb_w / 2 in
  let kb_oy := cy - kb_h / 2 - 2 in
  let bottom := cy + cell_h / 2 in
  svg_rect (cx - cell_w / 2) (cy - cell_h / 2) cell_w cell_h
           "#fafafa" "#ddd" (PyInt 1) (PyInt 7) ++
  (if truthy char then
     let fs := font_size_for char 20 in
     svg_text cx (cy - cell_h / 2 + 14) char fs "#222" "middle" "bold"
   else []) ++
  draw_6keys kb_ox kb_oy mkw mkh mgx mgy (mini_key_info chord_mask 7) ++
  _draw_num_symb cx (bottom - 20) (bottom - 8)
                 num_char symb_char "middle" 10 9.

Definition draw_direction_cell (cx cy : Q) (entries : gmap Z Entry)
    (chord_mask : Z) (cell_w cell_h : Q) : list prim :=
  let entry := entries !! chord_mask in
  let char := field abc entry in
  let num_char := field num entry in
  let symb_char := field symb entry in
  let mkw := 16 in let mkh := 12 in
  let mgx := 4 in let mgy := 2 in
  let kb_w := 2 * mkw + mgx in
  let kb_h := 3 * mkh + 2 * mgy in
  let kb_ox := cx - kb_w / 2 in
  let kb_oy := cy - kb_h / 2 + 6 in
  let bottom := cy + cell_h / 2 in
  svg_rect (cx - cell_w / 2) (cy - cell_h / 2) cell_w cell_h
           "#f0f4ff" "#b0c0e0" (PyInt 1) (PyInt 7) ++
  draw_6keys kb_ox kb_oy mkw mkh mgx mgy (mini_key_info chord_mask 6) ++
  (if truthy char then
     let fs := font_size_for char 16 in
     svg_text cx (cy - cell_h / 2 + 18) char fs "#333" "middle" "bold"
   else []) ++
  _draw_num_symb cx (bottom - 18) (bottom - 6)
                 num_char symb_char "middle" 10 9.

Definition draw_mode_cell (cx cy : Q) (entries : gmap Z Entry)
    (chord_mask : Z) (label : pystr) (cell_w cell_h : Q) : list prim :=
  let entry := entries !! chord_mask in
  let num_char := field num entry in
  let symb_char := field symb entry in
  let mkw := 16 in let mkh := 12 in
  let mgx := 4 in let mgy := 2 in
  let kb_w := 2 * mkw + mgx in
  let kb_h := 3 * mkh + 2 * mgy in
  let kb_ox := cx - kb_w / 2 in
  let kb_oy := cy - kb_h / 2 + 6 in
  let bottom := cy + cell_h / 2 in
  svg_rect (cx - cell_w / 2) (cy - cell_h / 2) cell_w cell_h
           "#fff8f0" "#e0c8a0" (PyInt 1) (PyInt 7) ++
  draw_6keys kb_ox kb_oy mkw mkh mgx mgy (mini_key_info chord_mask 6) ++
  svg_text cx (cy - cell_h / 2 + 18) label 13 "#333" "middle" "bold" ++
  _draw_num_symb cx (bottom - 18) (bottom - 6)
                 num_char symb_char "middle" 10 9.

Definition draw_control_cell (cx cy : Q) (entries : gmap Z Entry)
    (chord_mask : Z) (label : pystr) (cell_w cell_h : Q) : list prim :=
  let entry := entries !! chord_mask in
  let num_char := field num entry in
  let symb_char := field symb entry in
  let mkw := 16 in let mkh := 12 in
  let mgx := 4 in let mgy := 2 in
  let kb_w := 2 * mkw + mgx in
  let kb_h := 3 * mkh + 2 * mgy in
  let kb_ox := cx - kb_w / 2 in
  let kb_oy := cy - kb_h / 2 + 6 in
  let bottom := cy + cell_h / 2 in
  svg_rect (cx - cell_w / 2) (cy - cell_h / 2) cell_w cell_h
           "#f4f0ff" "#c0b0e0" (PyInt 1) (PyInt 7) ++
  draw_6keys kb_ox kb_oy mkw mkh mgx mgy (mini_key_info chord_mask 6) ++
  svg_text cx (cy - cell_h / 2 + 18) label 13 "#333" "middle" "bold" ++
  _draw_num_symb cx (bottom - 18) (bottom - 6)
                 num_char symb_char "middle" 10 9.

(** ** Main diagram assembly *)

(** [sum(l)]. *)
Definition py_sum (l : list Q) : Q := List.fold_left Qplus l 0.

(** The loops that fill [col_x] and [row_y]: running offsets. *)
Fixpoint offsets (acc : Q) (ws : list Q) : list Q :=
  match ws with
  | [] => []
  | w :: r => acc :: offsets (acc + w) r
  end.

(** [l[i]] at an index that is a constant of the program, always in range. *)
Definition ix (l : list Q) (i : nat) : Q := List.nth i l 0.

(** [enumerate(l)]. *)
Definition enumerate {T : Type} (l : list T) : list (Z * T) :=
  List.combine (List.map Z.of_nat (List.seq 0 (List.length l))) l.

(** A [for] loop whose body may raise: the bodies run in order and the first
    exception ends the loop. *)
Fixpoint for_each {T : Type} (l : list T) (body : T -> result (list prim))
  : result (list prim) :=
  match l with
  | [] => Ok []
  | x :: r =>
      bind (body x) (fun out => bind (for_each r body) (fun rest =>
        Ok (out ++ rest)))
  end.

(** Layout geometry (the local constants of [generate_svg]). *)
Definition col_w : list Q := [130; 125; 175; 125; 130].
Definition row_h : list Q := [118; 140; 118].
Definition main_w : Q := py_sum col_w.
Definition main_h : Q := py_sum row_h.
Definition col_x : list Q := offsets 0 col_w.
Definition row_y : list Q := offsets 0 row_h.

Definition outer_cw : Q := 97.
Definition outer_ch : Q := 118.
Definition outer_panel_w : Q := outer_cw * 2 + 8.
Definition outer_gap : Q := 16.

Definition title_h : Q := 68.
Definition main_box_x : Q := outer_panel_w + outer_gap + 16.
Definition main_box_y : Q := title_h.
Definition main_pad : Q := 14.

Definition outer_left_x : Q := 8.
Definition outer_right_x : Q := main_box_x + main_w + 2 * main_pad + outer_gap.

Definition below_gap : Q := 28.
Definition below_y : Q := main_box_y + main_h + 2 * main_pad + below_gap.

Definition ctrl_row_gap : Q := 24.
Definition dir_ch : Q := 95.
Definition dir_gy : Q := 5.
Definition dir_block_h_est : Q := 2 * dir_ch + dir_gy.
Definition ctrl_row_y : Q := below_y + dir_block_h_est + ctrl_row_gap.

Definition total_w : Z := py_int (outer_right_x + outer_panel_w + 12).
Definition total_h : Z := py_int (ctrl_row_y + dir_ch + 20).

(** The fixed chord tables. *)
Definition inner_chords : list (nat * nat * Z) :=
  [ (0, 1, Z.lor A B); (0, 3, Z.lor D E);
    (1, 0, Z.lor A C); (1, 4, Z.lor D F);
    (2, 1, Z.lor B C); (2, 3, Z.lor E F) ]%nat.

Definition left_outer : list (Z * Z * Z) :=
  [ (0, 0, Z.lor A E);
    (0, 1, Z.lor (Z.lor (Z.lor A B) E) F);
    (1, 0, Z.lor (Z.lor (Z.lor A C) E) F);
    (1, 1, Z.lor (Z.lor (Z.lor A C) D) E);
    (2, 0, Z.lor C E);
    (2, 1, Z.lor C D) ]%Z.

Definition right_outer : list (Z * Z * Z) :=
  [ (0, 0, Z.lor (Z.lor (Z.lor B C) D) E);
    (0, 1, Z.lor B D);
    (1, 0, Z.lor (Z.lor (Z.lor A B) D) F);
    (1, 1, Z.lor (Z.lor (Z.lor B C) D) F);
    (2, 0, Z.lor A F);
    (2, 1, Z.lor B F) ]%Z.

Definition dir_chords : list (Z * Z * Z) :=
  [ (0, 0, Z.lor A D);
    (0, 1, Z.lor (Z.lor (Z.lor A B) D) E);
    (1, 0, Z.lor C F);
    (1, 1, Z.lor (Z.lor (Z.lor B C) E) F) ]%Z.

Definition modes : list (Z * pystr) :=
  [ (Z.lor B E, lit "SHIFT");
    (Z.lor (Z.lor (Z.lor A C) D) F, lit "SYMB");
    (Z.lor (Z.lor (Z.lor (Z.lor (Z.lor A B) C) D) E) F,
     lit "ABC" ++ [0x21c4] ++ lit "123") ]%Z.

Definition ctrl_chords : list (Z * pystr) :=
  [ (Z.lor (Z.lor (Z.lor (Z.lor A B) C) D) E, lit "Esc");
    (Z.lor (Z.lor (Z.lor (Z.lor A B) C) D) F, lit "Ctrl");
    (Z.lor (Z.lor (Z.lor (Z.lor A B) C) E) F, lit "Alt");
    (Z.lor (Z.lor (Z.lor (Z.lor A B) D) E) F, [0x23ce] ++ lit " Enter");
    (Z.lor (Z.lor (Z.lor (Z.lor A C) D) E) F, [0x21e5] ++ lit " Tab");
    (Z.lor (Z.lor (Z.lor (Z.lor B C) D) E) F, [0x2326] ++ lit " Del") ]%Z.

(** [str(x)] for a value that is a string or [None]. *)
Definition py_str (x : option pystr) : pystr :=
  match x with
  | Some s => s
  | None => lit "None"
  end.

(** [a or b] on values that are strings or [None]. *)
Definition py_or (a b : option pystr) : option pystr :=
  match a with
  | Some s => if truthy s then a else b
  | None => b
  end.

(** Lines 585-589: the title.  [title += ...] raises [TypeError] on
    [None]. *)
Definition title_text (layout_id layout_name : option pystr)
    (variant : pystr) : result (list prim) :=
  let title := py_or layout_name layout_id in
  bind (if truthy variant then
          match title with
          | Some t => Ok (Some (t ++ lit " (" ++ variant ++ lit ")"))
          | None => Raise TypeError
          end
        else Ok title)
    (fun title =>
       Ok (svg_text (inject_Z total_w / 2) 30 (py_str title) 22
                    "#222" "middle" "bold")).

(** Lines 591-597: the outline of the main box. *)
Definition main_box : list prim :=
  let bx := main_box_x - main_pad in
  let by_ := main_box_y - main_pad in
  let bw := main_w + 2 * main_pad in
  let bh := main_h + 2 * main_pad in
  svg_rect bx by_ bw bh "white" "#999" (PyInt 2) (PyInt 16).

(** Lines 599-603. *)
Definition center_section (entries : gmap Z Entry) : list prim :=
  let ccx := main_box_x + ix col_x 2 + ix col_w 2 / 2 in
  let ccy := main_box_y + ix row_y 1 + ix row_h 1 / 2 in
  svg_comment (lit "Center: single keys") ++
  draw_center_cell ccx ccy entries.

(** Lines 605-618. *)
Definition inner_section (entries : gmap Z Entry) : result (list prim) :=
  for_each inner_chords
    (fun '(row, col, chord) =>
       let icx := main_box_x + ix col_x col + ix col_w col / 2 in
       let icy := main_box_y + ix row_y row + ix row_h row / 2 in
       bind (draw_inner_chord_cell icx icy entries chord) (fun cell =>
         Ok (svg_comment (lit "Inner chord: " ++ chord_label chord) ++ cell))).

Definition outer_v_total : Q := main_h + 2 * main_pad.
Definition outer_v_gap : Q := (outer_v_total - 3 * outer_ch) / 2.

(** Lines 620-652: one side panel of outer chord cells. *)
Definition outer_section (entries : gmap Z Entry) (panel_x : Q)
    (name : pystr) (chords : list (Z * Z * Z)) : list prim :=
  List.flat_map
    (fun '(row, col, chord) =>
       let ocx := panel_x + inject_Z col * (outer_cw + 8) + outer_cw / 2 in
       let ocy := main_box_y - main_pad
                  + inject_Z row * (outer_ch + outer_v_gap) + outer_ch / 2 in
       svg_comment (name ++ chord_label chord) ++
       draw_outer_chord_cell ocx ocy entries chord
                             (outer_cw - 2) (outer_ch - 2))
    chords.

Definition dir_cw : Q := 82.
Definition dir_gx : Q := 5.
Definition dir_block_w : Q := 2 * dir_cw + dir_gx.
Definition dir_center_x : Q := main_box_x + main_w / 2 + main_pad.
Definition dir_ox : Q := dir_center_x - dir_block_w / 2.
Definition dir_block_h : Q := 2 * dir_ch + dir_gy.
Definition dir_mid_y : Q := below_y + dir_block_h / 2.
Definition abc_cx : Q := dir_ox - dir_cw / 2 - 12.
Definition def_cx : Q := dir_ox + dir_block_w + dir_cw / 2 + 12.

(** Lines 654-685. *)
Definition directions_section (entries : gmap Z Entry) : list prim :=
  svg_comment (lit "Directions section") ++
  List.flat_map
    (fun '(row, col, chord) =>
       let dcx := dir_ox + inject_Z col * (dir_cw + dir_gx) + dir_cw / 2 in
       let dcy := below_y + inject_Z row * (dir_ch + dir_gy) + dir_ch / 2 in
       draw_direction_cell dcx dcy entries chord dir_cw dir_ch)
    dir_chords ++
  draw_direction_cell abc_cx dir_mid_y entries
                      (Z.lor (Z.lor A B) C) dir_cw dir_ch ++
  draw_direction_cell def_cx dir_mid_y entries
                      (Z.lor (Z.lor D E) F) dir_cw dir_ch.

Definition mode_cw : Q := 95.
Definition mode_gap : Q := 8.
Definition mode_start_x : Q := def_cx + dir_cw / 2 + 28.

(** Lines 687-701. *)
Definition modes_section (entries : gmap Z Entry) : list prim :=
  svg_comment (lit "Mode switches") ++
  List.flat_map
    (fun '(i, (chord, label)) =>
       let mcx := mode_start_x + inject_Z i * (mode_cw + mode_gap)
                  + mode_cw / 2 in
       draw_mode_cell mcx dir_mid_y entries chord label mode_cw dir_ch)
    (enumerate modes).

(** Lines 703-709. *)
Definition section_labels : list prim :=
  let nav_center_x := (abc_cx + def_cx) / 2 in
  svg_text nav_center_x (below_y - 10) (lit "Navigation & Actions") 10
           "#aaa" "middle" "normal" ++
  svg_text (mode_start_x + (3 * mode_cw + 2 * mode_gap) / 2) (below_y - 10)
           (lit "Mode Switches") 10 "#aaa" "middle" "normal".

Definition ctrl_cw : Q := 95.
Definition ctrl_gap : Q := 8.
Definition ctrl_total_w : Q :=
  inject_Z (Z.of_nat (List.length ctrl_chords)) * ctrl_cw
  + inject_Z (Z.of_nat (List.length ctrl_chords) - 1) * ctrl_gap.
Definition ctrl_start_x : Q :=
  main_box_x + main_w / 2 + main_pad - ctrl_total_w / 2.

(** Lines 711-733. *)
Definition control_section (entries : gmap Z Entry) : list prim :=
  svg_comment (lit "5-key control chords") ++
  svg_text (ctrl_start_x + ctrl_total_w / 2) (ctrl_row_y - 8)
           (lit "5-Key Control Chords") 10 "#aaa" "middle" "normal" ++
  List.flat_map
    (fun '(i, (chord, label)) =>
       let ccx := ctrl_start_x + inject_Z i * (ctrl_cw + ctrl_gap)
                  + ctrl_cw / 2 in
       let ccy := ctrl_row_y + dir_ch / 2 in
       draw_control_cell ccx ccy entries chord label ctrl_cw dir_ch)
    (enumerate ctrl_chords).

(** The body of [generate_svg] up to the call of [svg.build]: the contents
    of the builder, in draw order. *)
Definition generate_svg_parts (layout_id layout_name : option pystr)
    (entries : gmap Z Entry) (variant : pystr) : result (list prim) :=
  bind (title_text layout_id layout_name variant) (fun title =>
  bind (inner_section entries) (fun inner =>
    Ok (title ++ main_box ++ center_section entries ++ inner ++
        outer_section entries outer_left_x (lit "Left outer: ") left_outer ++
        outer_section entries outer_right_x (lit "Right outer: ") right_outer ++
        directions_section entries ++ modes_section entries ++
        section_labels ++ control_section entries))).

(** ** Serialization *)

(** [str(n)] for an integer. *)
Definition str_int (z : Z) : pystr :=
  lit (NilZero.string_of_int (Z.to_int z)).

(** [html.escape(s)] with [quote=True]. *)
Definition esc (s : pystr) : pystr :=
  List.flat_map
    (fun c =>
       if (c =? 38)%Z then lit "&amp;"
       else if (c =? 60)%Z then lit "&lt;"
       else if (c =? 62)%Z then lit "&gt;"
       else if (c =? 34)%Z then lit "&quot;"
       else if (c =? 39)%Z then lit "&#x27;"
       else [c])
    s.

(** [sep.join(parts)]. *)
Fixpoint join (sep : pystr) (parts : list pystr) : pystr :=
  match parts with
  | [] => []
  | [p] => p
  | p :: r => p ++ sep ++ join sep r
  end.

(** [ name="value"]: one attribute, with its leading blank. *)
Definition attr (name : string) (value : pystr) : pystr :=
  lit " " ++ lit name ++ lit "=" ++ [34%Z] ++ value ++ [34%Z].

Section Serialization.

(** The decimal text Python gives to a float: [fmt_1f] for the format
    specification [.1f] (which prints an integer the same way), and
    [repr_float] for a bare [{}]. *)
Variable fmt_1f : Q -> pystr.
Variable repr_float : Q -> pystr.

Definition str_num (n : pynum) : pystr :=
  match n with
  | PyInt z => str_int z
  | PyFloat q => repr_float q
  end.

(** The string that the [Svg] method appends to [_parts]. *)
Definition render (p : prim) : pystr :=
  match p with
  | Rect x y w h fill stroke sw rx =>
      lit "<rect" ++ attr "x" (fmt_1f x) ++ attr "y" (fmt_1f y) ++
      attr "width" (fmt_1f w) ++ attr "height" (fmt_1f h) ++
      attr "fill" (lit fill) ++ attr "stroke" (lit stroke) ++
      attr "stroke-width" (str_num sw) ++ attr "rx" (str_num rx) ++
      lit "/>"
  | Text x y txt sz fill anchor weight bl =>
      lit "<text" ++ attr "x" (fmt_1f x) ++ attr "y" (fmt_1f y) ++
      attr "font-size" (str_int sz) ++ attr "fill" (lit fill) ++
      attr "text-anchor" (lit anchor) ++ attr "font-weight" (lit weight) ++
      attr "dominant-baseline" (lit bl) ++ lit ">" ++ esc txt ++
      lit "</text>"
  | OpenG tx ty =>
      if negb (Qeq_bool tx 0) || negb (Qeq_bool ty 0) then
        lit "<g transform=" ++ [34%Z] ++ lit "translate(" ++ fmt_1f tx ++
        lit "," ++ fmt_1f ty ++ lit ")" ++ [34%Z] ++ lit ">"
      else lit "<g>"
  | CloseG => lit "</g>"
  | Comment s => lit "<!-- " ++ s ++ lit " -->"
  end.

(** [Svg.build(w, h)]. *)
Definition Svg_build (parts : list prim) (w h : Z) : pystr :=
  let body := join [10%Z] (List.map render parts) in
  lit "<?xml" ++ attr "version" (lit "1.0") ++
  attr "encoding" (lit "UTF-8") ++ lit "?>" ++ [10%Z] ++
  lit "<svg" ++ attr "xmlns" (lit "http://www.w3.org/2000/svg") ++
  attr "viewBox" (lit "0 0 " ++ str_int w ++ lit " " ++ str_int h) ++
  attr "width" (str_int w) ++ attr "height" (str_int h) ++ lit ">" ++
  [10%Z] ++
  lit "<defs><style>" ++ [10%Z] ++
  lit "  text { font-family: " ++ [34%Z] ++ lit "Segoe UI" ++ [34%Z] ++
  lit ", Roboto, " ++ [34%Z] ++ lit "Helvetica Neue" ++ [34%Z] ++
  lit ", Arial, sans-serif; }" ++ [10%Z] ++
  lit "</style></defs>" ++ [10%Z] ++
  lit "<rect" ++ attr "width" (str_int w) ++ attr "height" (str_int h) ++
  attr "fill" (lit "white") ++ lit "/>" ++ [10%Z] ++
  body ++ [10%Z] ++
  lit "</svg>" ++ [10%Z].

(** [generate_svg(layout_id, layout_name, entries, variant)]. *)
Definition generate_svg (layout_id layout_name : option pystr)
    (entries : gmap Z Entry) (variant : pystr) : result pystr :=
  bind (generate_svg_parts layout_id layout_name entries variant)
    (fun parts => Ok (Svg_build parts total_w total_h)).

End Serialization.

(** ** Vocabulary of the properties *)

Definition is_rect (p : prim) : bool :=
  match p with Rect _ _ _ _ _ _ _ _ => true | _ => false end.

Definition is_text (p : prim) : bool :=
  match p with Text _ _ _ _ _ _ _ _ => true | _ => false end.

(** The badge of an inner cell is the only rectangle drawn with
    [stroke_width=0]. *)
Definition is_badge (p : prim) : bool :=
  match p with
  | Rect _ _ _ _ _ _ (PyInt 0) _ => true
  | _ => false
  end.

(** The text of a badge is the only text an inner cell draws in white. *)
Definition is_white_text (p : prim) : bool :=
  match p with
  | Text _ _ _ _ fill _ _ _ => String.eqb fill "white"
  | _ => false
  end.

(** Position and size of a rectangle, as numbers in lowest terms. *)
Definition rect_geom (p : prim) : list (Q * Q * Q * Q) :=
  match p with
  | Rect x y w h _ _ _ _ => [(Qred x, Qred y, Qred w, Qred h)]
  | _ => []
  end.

(** Geometry of all rectangles, and of all rectangles but the badges. *)
Definition rect_geometry (l : list prim) : list (Q * Q * Q * Q) :=
  List.flat_map rect_geom l.

Definition frame_geometry (l : list prim) : list (Q * Q * Q * Q) :=
  List.flat_map rect_geom (List.filter (fun p => negb (is_badge p)) l).

(** A primitive whose computed coordinates lie in the box
    [x0, x1] x [y0, y1]: both corners of a rectangle, the anchor of a
    text.  Comments carry no coordinates. *)
Definition within (x0 y0 x1 y1 : Q) (p : prim) : Prop :=
  match p with
  | Rect x y w h _ _ _ _ =>
      x0 <= x /\ x + w <= x1 /\ y0 <= y /\ y + h <= y1
  | Text x y _ _ _ _ _ _ =>
      x0 <= x /\ x <= x1 /\ y0 <= y /\ y <= y1
  | OpenG _ _ | CloseG | Comment _ => True
  end.

Definition in_canvas (p : prim) : Prop :=
  within 0 0 (inject_Z total_w) (inject_Z total_h) p.

Definition in_canvas_b (p : prim) : bool :=
  let W := inject_Z total_w in
  let H := inject_Z total_h in
  match p with
  | Rect x y w h _ _ _ _ =>
      Qle_bool 0 x && Qle_bool (x + w) W && Qle_bool 0 y && Qle_bool (y + h) H
  | Text x y _ _ _ _ _ _ =>
      Qle_bool 0 x && Qle_bool x W && Qle_bool 0 y && Qle_bool y H
  | OpenG _ _ | CloseG | Comment _ => true
  end.

(** The three fields of an entry that are not shifted variants. *)
Definition core (e : Entry) : pystr * pystr * pystr :=
  (abc e, num e, symb e).

(** A string that is one of the given fixed labels, or a non-empty resolved
    field of an entry that the table holds for one of the given chords. *)
Definition shows (entries : gmap Z Entry) (chords : list Z)
    (labels : list pystr) (txt : pystr) : Prop :=
  In txt labels \/
  exists c e, In c chords /\ entries !! c = Some e /\ txt <> [] /\
              (txt = disp (abc e) \/ txt = disp (num e) \/
               txt = disp (symb e)).

(** A primitive that, if it is a text, shows such a string. *)
Definition text_from (entries : gmap Z Entry) (chords : list Z)
    (labels : list pystr) (p : prim) : Prop :=
  match p with
  | Text _ _ txt _ _ _ _ _ => shows entries chords labels txt
  | _ => True
  end.

(** Two tables whose entries agree on the three fields that are not shifted
    variants (and hold entries for the same chords). *)
Definition same_core (e1 e2 : gmap Z Entry) : Prop :=
  forall k : Z, core <$> (e1 !! k) = core <$> (e2 !! k).

(** Example tables: one entry, for the chord AB, with the letter "t" and
    with the letter "ab". *)
Definition ex_t : gmap Z Entry :=
  <[3%Z := mkEntry (lit "t") [] [] [] [] []]> ∅.
Definition ex_ab : gmap Z Entry :=
  <[3%Z := mkEntry (lit "ab") [] [] [] [] []]> ∅.

(** An example table: one entry, for the chord AC, whose letter has 81
    characters. *)
Definition ex_long : gmap Z Entry :=
  <[5%Z := mkEntry (List.repeat 97%Z 81) [] [] [] [] []]> ∅.

Local Open Scope Z_scope.

(** A primitive that a diagram may hold: a rectangle, a comment, or a text
    whose font size is from 7 to 24; no group is opened or closed. *)
Definition part_ok (p : prim) : Prop :=
  match p with
  | Text _ _ _ sz _ _ _ _ => 7 <= sz <= 24
  | OpenG _ _ | CloseG => False
  | _ => True
  end.

(** The same, and the primitive is not a badge rectangle. *)
Definition tidy (p : prim) : Prop :=
  match p with
  | Text _ _ _ sz _ _ _ _ => 7 <= sz <= 24
  | OpenG _ _ | CloseG => False
  | _ => is_badge p = false
  end.

(** The inner chords whose letter resolves to a non-empty string. *)
Definition lettered_inner_chords (entries : gmap Z Entry)
  : list (nat * nat * Z) :=
  List.filter (fun '(_, _, chord) => truthy (field abc (entries !! chord)))
              inner_chords.

(** The chords whose entry some renderer looks up: the single keys, the
    inner base chords with their extensions on the opposite hand, and the
    chords of the fixed tables. *)
Definition displayed_chords : list Z :=
  KEYS ++
  List.flat_map
    (fun '(_, _, chord) =>
       chord :: List.map (Z.lor chord) (inner_ext_side (bits chord)))
    inner_chords ++
  List.map snd left_outer ++ List.map snd right_outer ++
  List.map snd dir_chords ++
  [Z.lor (Z.lor A B) C; Z.lor (Z.lor D E) F] ++
  List.map fst modes ++ List.map fst ctrl_chords.

(** The rectangle that [draw_key] draws (lines 181-189): black when pressed,
    grey when dimmed, white otherwise. *)
Definition key_rect (x y w h : Q) (pressed dimmed : bool) : prim :=
  if pressed then Rect x y w h "#222" "#222" (PyFloat 1.5) (PyInt 4)
  else if dimmed then Rect x y w h "#f0f0f0" "#ccc" (PyInt 1) (PyInt 4)
  else Rect x y w h "white" "#555" (PyFloat 1.5) (PyInt 4).

(** The key [key] is part of the chord [mask]. *)
Definition has_key (mask key : Z) : bool := negb (Z.land mask key =? 0).

(** Decoding of the five entities that [esc] writes; any other character is
    kept.  It is the inverse of [esc] on the strings that [esc] returns. *)
Fixpoint unesc (s : pystr) : pystr :=
  match s with
  | 38 :: 97 :: 109 :: 112 :: 59 :: r => 38 :: unesc r
  | 38 :: 108 :: 116 :: 59 :: r => 60 :: unesc r
  | 38 :: 103 :: 116 :: 59 :: r => 62 :: unesc r
  | 38 :: 113 :: 117 :: 111 :: 116 :: 59 :: r => 34 :: unesc r
  | 38 :: 35 :: 120 :: 50 :: 55 :: 59 :: r => 39 :: unesc r
  | c :: r => c :: unesc r
  | [] => []
  end.

(** A character that ends or opens markup inside an attribute or an element:
    the angle brackets and the two quotes. *)
Definition is_markup (c : Z) : bool :=
  (c =? 60) || (c =? 62) || (c =? 34) || (c =? 39).

(** Two boxes (x, y, width, height) that share no interior point. *)
Definition box_disjoint (a b : Q * Q * Q * Q) : bool :=
  let '(ax, ay, aw, ah) := a in
  let '(bx, b_y, bw, bh) := b in
  (Qle_bool (ax + aw) bx || Qle_bool (bx + bw) ax ||
   Qle_bool (ay + ah) b_y || Qle_bool (b_y + bh) ay)%Q.

(** The box [a] lies in the box [b] and is not all of it. *)
Definition box_inside (a b : Q * Q * Q * Q) : bool :=
  let '(ax, ay, aw, ah) := a in
  let '(bx, b_y, bw, bh) := b in
  (Qle_bool bx ax && Qle_bool (ax + aw) (bx + bw) &&
   Qle_bool b_y ay && Qle_bool (ay + ah) (b_y + bh) &&
   negb (Qle_bool ax bx && Qle_bool (bx + bw) (ax + aw) &&
         Qle_bool ay b_y && Qle_bool (b_y + bh) (ay + ah)))%Q.

(** No two boxes of the list overlap partly: any two are disjoint, or one
    lies inside the other. *)
Fixpoint laminar (l : list (Q * Q * Q * Q)) : bool :=
  match l with
  | [] => true
  | a :: r =>
      List.forallb
        (fun b => box_disjoint a b || box_inside a b || box_inside b a) r
      && laminar r
  end.

(** ** Layout XML parsing *)

(** An element of the tree that [ET.parse] returns, as far as
    [parse_layout] looks at it: its tag and its attribute dictionary. *)
Record Element : Type := mkElement {
  el_tag : pystr;
  el_attrib : gmap (list Z) (list Z)
}.

(** The root element: its attributes and its children, in document
    order. *)
Record Root : Type := mkRoot {
  root_attrib : gmap (list Z) (list Z);
  root_children : list Element
}.

(** [el.get(name)] and [el.get(name, '')]. *)
Definition el_get (attrib : gmap (list Z) (list Z)) (name : string)
  : option pystr :=
  attrib !! lit name.

Definition el_get_or_empty (attrib : gmap (list Z) (list Z)) (name : string)
  : pystr :=
  match attrib !! lit name with
  | Some v => v
  | None => []
  end.

(** [root.findall('entry')]: the children with that tag. *)
Definition findall_entry (root : Root) : list Element :=
  List.filter (fun el => bool_decide (el_tag el = lit "entry"))
              (root_children root).

(** The dictionary stored for one element (lines 102-109). *)
Definition entry_of (el : Element) : Entry :=
  mkEntry (el_get_or_empty (el_attrib el) "abc")
          (el_get_or_empty (el_attrib el) "abc_shift")
          (el_get_or_empty (el_attrib el) "num")
          (el_get_or_empty (el_attrib el) "num_shift")
          (el_get_or_empty (el_attrib el) "symb")
          (el_get_or_empty (el_attrib el) "symb_shift").

Section ParseLayout.

(** Python's [int] on an attribute value that may be [None]: an integer, or
    an exception ([TypeError] for [None], [ValueError] for a text that is no
    integer literal).  The exceptions are not caught. *)
Variable exc : Type.
Variable int : option pystr -> Z + exc.

(** The loop of [parse_layout] (lines 100-109), from the dictionary built so
    far. *)
Fixpoint parse_entries (els : list Element) (entries : gmap Z Entry)
  : gmap Z Entry + exc :=
  match els with
  | [] => inl entries
  | el :: rest =>
      match int (el_get (el_attrib el) "chord") with
      | inl ch => parse_entries rest (<[ch := entry_of el]> entries)
      | inr e => inr e
      end
  end.

(** [parse_layout], from the root of the parsed tree. *)
Definition parse_layout (root : Root)
  : (option pystr * option pystr * gmap Z Entry) + exc :=
  match parse_entries (findall_entry root) ∅ with
  | inl entries =>
      inl (el_get (root_attrib root) "id", el_get (root_attrib root) "name",
           entries)
  | inr e => inr e
  end.

(** The chord of an element is [c]. *)
Definition chord_is (c : Z) (el : Element) : bool :=
  match int (el_get (el_attrib el) "chord") with
  | inl ch => ch =? c
  | inr _ => false
  end.

(** The chord attribute of an element is read as an integer. *)
Definition parses (el : Element) : Prop :=
  exists c, int (el_get (el_attrib el) "chord") = inl c.

End ParseLayout.

(** ** Command line driver *)

(** [sub in s] for strings. *)
Fixpoint starts_with (sub s : pystr) : bool :=
  match sub, s with
  | [], _ => true
  | _ :: _, [] => false
  | a :: sub', b :: s' => (a =? b) && starts_with sub' s'
  end.

Fixpoint py_in (sub s : pystr) : bool :=
  starts_with sub s ||
  match s with
  | [] => false
  | _ :: s' => py_in sub s'
  end.

(** Line 769 of [main]. *)
Definition variant_of (fname : pystr) : pystr :=
  if py_in (lit "-standard") fname then lit "Standard" else lit "Optimized".

(** What went wrong in the body of the loop of [main]. *)
Inductive failure (exc : Type) : Type :=
| InParse (e : exc)
| InSvg (e : exn).

Arguments InParse {exc} e.
Arguments InSvg {exc} e.

(** Lines 768-773 of [main]: the text written for one layout file, from its
    name and its parsed tree. *)
Definition svg_content (exc : Type) (int : option pystr -> Z + exc)
    (fmt_1f repr_float : Q -> pystr) (fname : pystr) (root : Root)
  : pystr + failure exc :=
  match parse_layout exc int root with
  | inr e => inr (InParse e)
  | inl (layout_id, layout_name, entries) =>
      let variant := variant_of fname in
      match generate_svg fmt_1f repr_float layout_id layout_name entries
                         variant with
      | Ok doc => inl doc
      | Raise e => inr (InSvg e)
      end
  end.

(** An instance of [int] for the examples: the value of one ASCII digit, and
    an exception for anything else. *)
Definition ex_int (v : option pystr) : Z + unit :=
  match v with
  | Some [d] => if (48 <=? d) && (d <=? 57) then inl (d - 48) else inr tt
  | _ => inr tt
  end.

Definition ex_element (tag : string) (attrs : list (pystr * pystr))
  : Element :=
  mkElement (lit tag) (list_to_map attrs).

(** An example tree: a named layout with two entries for the chord 3 and,
    between them, a child that is no entry. *)
Definition ex_root : Root :=
  mkRoot (<[lit "name" := lit "English"]> ∅)
         [ex_element "entry" [(lit "chord", lit "3"); (lit "abc", lit "t")];
          ex_element "note" [(lit "chord", lit "3"); (lit "abc", lit "x")];
          ex_element "entry" [(lit "chord", lit "3"); (lit "abc", lit "u");
                              (lit "num", lit "7")]].

(** An example tree whose second entry has no chord. *)
Definition ex_bad_root : Root :=
  mkRoot ∅
         [ex_element "entry" [(lit "chord", lit "3"); (lit "abc", lit "t")];
          ex_element "entry" [(lit "abc", lit "u")];
          ex_element "entry" [(lit "chord", lit "5")]].

(** The title of the diagram can be formed: [generate_svg] appends the
    variant to [layout_name or layout_id], which must not be [None] then. *)
Definition has_title (layout_id layout_name : option pystr)
    (variant : pystr) : Prop :=
  variant = [] \/ layout_id <> None \/
  (layout_name <> None /\ layout_name <> Some []).

(** Width and height of the badges, in draw order. *)
Definition rect_size (p : prim) : list (Q * Q) :=
  match p with
  | Rect _ _ w h _ _ _ _ => [(w, h)]
  | _ => []
  end.

Definition badge_sizes (l : list prim) : list (Q * Q) :=
  List.flat_map rect_size (List.filter is_badge l).

(** Lines 343-345 of [draw_inner_chord_cell]: the width and the height of
    the badge of the letter [base_char] ([kw - 2] is 40). *)
Definition badge_size_of (base_char : pystr) : Q * Q :=
  let fs := font_size_for base_char 16 in
  (py_max 40 (inject_Z (len base_char * fs) * 0.7 + 8),
   inject_Z (fs + 8))%Q.

(** An example entry with a letter and a digit. *)
Definition ex_entry : Entry := mkEntry (lit "x") [] (lit "1") [] [] [].

(** The number of texts that are drawn, 0 for an exception. *)
Definition text_count (r : result (list prim)) : nat :=
  match r with
  | Ok l => List.length (List.filter is_text l)
  | Raise _ => 0%nat
  end.

(** ** The inner cell under any listing order of sets *)

Local Open Scope Q_scope.

Section SetOrder.

(** The order in which the runtime lists the members of a set of key
    constants: [order s] holds the members of [s], each once, in the order
    of [for key in s], [list(s)] and of a comprehension over [s].  Python
    leaves this order to the implementation. *)
Variable order : list Z -> list Z.

(** Lines 299-309: the dictionary [ext_data], filled in listing order. *)
Definition ext_data_in (entries : gmap Z Entry) (base_chord : Z)
  : gmap Z (pystr * pystr * pystr) :=
  List.fold_left
    (fun ext_data key =>
       match entries !! (Z.lor base_chord key) with
       | Some ext_entry =>
           <[key := (disp (abc ext_entry), disp (num ext_entry),
                     disp (symb ext_entry))]> ext_data
       | None => ext_data
       end)
    (order (inner_ext_side (bits base_chord))) ∅.

(** Lines 315-325. *)
Definition inner_key_info_in (entries : gmap Z Entry) (base_chord : Z)
  : list KeyInfo :=
  List.map
    (fun key =>
       if key_in key (bits base_chord) then mkInfo [] true 14 None false
       else match ext_data_in entries base_chord !! key with
            | Some (c, _, _) => mkInfo c false 13 None false
            | None => mkInfo [] false 16 None true
            end)
    KEYS.

(** Lines 328-358, with [list(pressed)[0]] the first member listed. *)
Definition inner_badge_in (ox oy kw kh gx gy : Q) (entries : gmap Z Entry)
    (base_chord : Z) (r0 r1 : Z) : result (list prim) :=
  let pressed := bits base_chord in
  let base_entry := entries !! base_chord in
  let base_char := field abc base_entry in
  let base_num := field num base_entry in
  let base_symb := field symb base_entry in
  let pressed_on_left := subset pressed LEFT in
  let is_non_adjacent := (r1 - r0 >? 1)%Z in
  if truthy base_char then
    match List.hd_error (order pressed) with
    | None => Raise IndexError
    | Some k0 =>
        let col := KCOL k0 in
        let lx := ox + inject_Z col * (kw + gx) + kw / 2 in
        let y_top := oy + inject_Z r0 * (kh + gy) + kh / 2 in
        let y_bot := oy + inject_Z r1 * (kh + gy) + kh / 2 in
        let ly := (y_top + y_bot) / 2 in
        let lx :=
          if is_non_adjacent then
            if pressed_on_left then lx - 14 else lx + 14
          else lx in
        let fs := font_size_for base_char 16 in
        let badge_w :=
          py_max (kw - 2) (inject_Z (len base_char * fs) * 0.7 + 8) in
        let badge_h := inject_Z (fs + 8) in
        let ann_x :=
          if pressed_on_left then lx - badge_w / 2 - 4
          else lx + badge_w / 2 + 4 in
        let anchor := if pressed_on_left then "end"%string else "start"%string in
        Ok (svg_rect (lx - badge_w / 2) (ly - badge_h / 2) badge_w badge_h
                     "#333" "#333" (PyInt 0) (PyFloat (badge_h / 2)) ++
            svg_text lx ly base_char fs "white" "middle" "bold" ++
            _draw_num_symb ann_x (ly - 6) (ly + 6)
                           base_num base_symb anchor 9 8)
    end
  else Ok [].

(** Lines 360-374: the annotations, in listing order of [ext_side]. *)
Definition inner_ext_annotations_in (ox oy kw kh gx gy : Q)
    (entries : gmap Z Entry) (base_chord : Z) : list prim :=
  List.flat_map
    (fun key =>
       match ext_data_in entries base_chord !! key with
       | None => []
       | Some (_, ext_num, ext_symb) =>
           let key_col := KCOL key in
           let key_row := KROW key in
           let kx := ox + inject_Z key_col * (kw + gx) in
           let ky := oy + inject_Z key_row * (kh + gy) in
           if key_in key LEFT then
             _draw_num_symb (kx - 4) (ky + kh * 0.30) (ky + kh * 0.72)
                            ext_num ext_symb "end" 9 8
           else
             _draw_num_symb (kx + kw + 4) (ky + kh * 0.30) (ky + kh * 0.72)
                            ext_num ext_symb "start" 9 8
       end)
    (order (inner_ext_side (bits base_chord))).

(** [draw_inner_chord_cell], with [pressed_rows] sorted from the rows in
    listing order of [pressed]. *)
Definition draw_inner_chord_cell_in (cx cy : Q) (entries : gmap Z Entry)
    (base_chord : Z) : result (list prim) :=
  let kw := 42 in let kh := 30 in
  let gx := 14 in let gy := 6 in
  let total_w := 2 * kw + gx in
  let total_h := 3 * kh + 2 * gy in
  let ox := cx - total_w / 2 in
  let oy := cy - total_h / 2 in
  let pressed := bits base_chord in
  let pressed_rows := sorted (List.map KROW (order pressed)) in
  match pressed_rows with
  | [] => Raise IndexError
  | r0 :: _ =>
      let r1 := List.last pressed_rows r0 in
      bind (inner_badge_in ox oy kw kh gx gy entries base_chord r0 r1)
        (fun badge =>
           Ok (draw_6keys ox oy kw kh gx gy
                          (inner_key_info_in entries base_chord)
               ++ badge
               ++ inner_ext_annotations_in ox oy kw kh gx gy entries
                                           base_chord))
  end.

(** Lines 605-618. *)
Definition inner_section_in (entries : gmap Z Entry) : result (list prim) :=
  for_each inner_chords
    (fun '(row, col, chord) =>
       let icx := main_box_x + ix col_x col + ix col_w col / 2 in
       let icy := main_box_y + ix row_y row + ix row_h row / 2 in
       bind (draw_inner_chord_cell_in icx icy entries chord) (fun cell =>
         Ok (svg_comment (lit "Inner chord: " ++ chord_label chord) ++ cell))).

(** [generate_svg] up to [svg.build]; no other renderer lists a set. *)
Definition generate_svg_parts_in (layout_id layout_name : option pystr)
    (entries : gmap Z Entry) (variant : pystr) : result (list prim) :=
  bind (title_text layout_id layout_name variant) (fun title =>
  bind (inner_section_in entries) (fun inner =>
    Ok (title ++ main_box ++ center_section entries ++ inner ++
        outer_section entries outer_left_x (lit "Left outer: ") left_outer ++
        outer_section entries outer_right_x (lit "Right outer: ") right_outer ++
        directions_section entries ++ modes_section entries ++
        section_labels ++ control_section entries))).


End SetOrder.


(** An example table: the extensions ABD and ABE of the chord AB, each with
    a digit. *)
Definition ex_ext : gmap Z Entry :=
  <[11%Z := mkEntry (lit "x") [] (lit "1") [] [] []]>
    (<[19%Z := mkEntry (lit "y") [] (lit "2") [] [] []]> ∅).

Local Open Scope Z_scope.

(** * Properties *)

Local Open Scope Z_scope.

(** ** Key and chord algebra *)

Lemma filter_sublist {T : Type} (f : T -> bool) (l : list T) :
  sublist (List.filter f l) l.
Proof.
  induction l as [|x l IH]; simpl.
  - constructor.
  - destruct (f x); now constructor.
Qed.

Lemma chord_range (mask : Z) :
  1 <= mask <= 63 -> In mask (List.map Z.of_nat (List.seq 1 63)).
Proof.
  intros H. apply in_map_iff. exists (Z.to_nat mask). split; [lia|].
  apply in_seq. lia.
Qed.

Lemma union_bits_table :
  List.forallb (fun m => union (bits m) =? m)
               (List.map Z.of_nat (List.seq 1 63)) = true.
Proof. vm_compute. reflexivity. Qed.

(** C8. For every chord value 1..63 the union of the keys of [bits mask]
    is [mask] again; [bits mask] lists exactly the keys of the chord, in the
    order of [KEYS] = A, B, C, D, E, F. *)
Theorem bits_union_roundtrip (mask : Z) :
  1 <= mask <= 63 ->
  union (bits mask) = mask /\
  sublist (bits mask) [A; B; C; D; E; F] /\
  (forall k, In k (bits mask) <-> In k KEYS /\ Z.land mask k <> 0).
Proof.
  intros H. split; [|split].
  - pose proof union_bits_table as T.
    rewrite forallb_forall in T.
    apply Z.eqb_eq, T, chord_range, H.
  - apply filter_sublist.
  - intros k. unfold bits. rewrite filter_In.
    rewrite negb_true_iff, Z.eqb_neq. tauto.
Qed.

Lemma bits_union_roundtrip_witness :
  union (bits 37) = 37 /\ bits 37 = [A; C; F].
Proof.
  split.
  - apply (bits_union_roundtrip 37). lia.
  - reflexivity.
Defined.

(** ** Display value resolver *)

Lemma dict_get_In (d : list (pystr * pystr)) (v g : pystr) :
  dict_get d v = Some g -> In (v, g) d.
Proof.
  induction d as [|[k w] d IH]; simpl; [discriminate|].
  destruct (bool_decide (k = v)) eqn:Hk.
  - apply bool_decide_eq_true in Hk. intros [= ->]. left. now subst.
  - intros Hg. right. now apply IH.
Qed.

Lemma dict_get_None (d : list (pystr * pystr)) (v : pystr) :
  (forall g, ~ In (v, g) d) -> dict_get d v = None.
Proof.
  intros H. destruct (dict_get d v) as [g|] eqn:Hg; [|reflexivity].
  exfalso. apply (H g), dict_get_In, Hg.
Qed.

(** The keys of the action table are pairwise distinct, so the table
    determines the glyph of a name. *)
Lemma action_get (v g : pystr) :
  In (v, g) _ACTION -> dict_get _ACTION v = Some g.
Proof.
  unfold _ACTION. intros H.
  repeat (destruct H as [H|H]; [injection H as <- <-; reflexivity|]).
  destruct H.
Qed.

Lemma rstrip_nil_iff (s : pystr) :
  rstrip s = [] -> List.forallb isspace s = true.
Proof.
  induction s as [|c r IH]; simpl; [reflexivity|].
  destruct (rstrip r) eqn:Hr; [|discriminate].
  destruct (isspace c); [|discriminate].
  intros _. now apply IH.
Qed.

(** [rstrip s] is [s] without a trailing run of whitespace, and does not
    itself end in whitespace. *)
Lemma rstrip_spec (s : pystr) :
  exists ws, s = rstrip s ++ ws /\ List.forallb isspace ws = true /\
             (forall p c, rstrip s = p ++ [c] -> isspace c = false).
Proof.
  induction s as [|c r (ws & Heq & Hws & Hlast)]; simpl.
  - exists []. split; [reflexivity|]. split; [reflexivity|].
    intros [|? ?] ? ?; discriminate.
  - destruct (rstrip r) as [|c' r'] eqn:Hr.
    + destruct (isspace c) eqn:Hc.
      * exists (c :: r). split; [reflexivity|]. split.
        -- simpl. rewrite Hc. simpl. now apply rstrip_nil_iff.
        -- intros [|? ?] ? ?; discriminate.
      * exists r. split; [reflexivity|]. split.
        -- now apply rstrip_nil_iff.
        -- intros [|? [|? ?]] c0 Hp; simpl in Hp; try discriminate Hp.
           injection Hp as <-. exact Hc.
    + exists ws. split; [|split].
      * simpl. f_equal. exact Heq.
      * exact Hws.
      * intros [|p0 p] c0 Hp; simpl in Hp.
        -- discriminate Hp.
        -- injection Hp as _ Hp. apply (Hlast p c0). exact Hp.
Qed.

(** C7. [disp] leaves the empty string alone, replaces a value that is
    exactly a key of the action table by its glyph, and otherwise strips the
    trailing whitespace of the value; matching is case sensitive and is not
    preceded by any normalisation of whitespace. *)
Theorem disp_resolves (v : pystr) :
  disp [] = [] /\
  (forall g, In (v, g) _ACTION -> disp v = g) /\
  ((forall g, ~ In (v, g) _ACTION) ->
   disp v = rstrip v /\
   exists ws, v = disp v ++ ws /\ List.forallb isspace ws = true /\
              (forall p c, disp v = p ++ [c] -> isspace c = false)) /\
  disp (lit "backspace") = [0x232b] /\
  disp (lit "Backspace") = lit "Backspace" /\
  disp (lit "backspace ") = lit "backspace" /\
  disp (lit "nosuchaction") = lit "nosuchaction".
Proof.
  split; [reflexivity|]. split; [|split; [|repeat split; reflexivity]].
  - intros g Hg. unfold disp.
    rewrite (action_get v g Hg).
    destruct v; [|reflexivity].
    exfalso. revert Hg. unfold _ACTION. intros H.
    repeat (destruct H as [H|H]; [discriminate H|]). destruct H.
  - intros Hno.
    assert (Hd : disp v = rstrip v).
    { unfold disp. rewrite (dict_get_None _ v Hno).
      destruct v; reflexivity. }
    split; [exact Hd|]. rewrite Hd. apply rstrip_spec.
Qed.

(** ** Font size selection *)

(** C3 as stated fails: with base size 5 a glyph of two characters gets
    size 9, more than the size 5 of a glyph of one character. *)
Lemma font_size_not_monotone_for_small_base :
  ~ (forall (b : Z) (s t : pystr),
        len s <= len t -> font_size_for t b <= font_size_for s b).
Proof.
  intros H. specialize (H 5 (lit "a") (lit "ab")).
  change (1 <= 2 -> 9 <= 5) in H. lia.
Qed.

(** C3, amended. For every base size of at least 9 (the renderers pass 13,
    16, 20 and 24) the size is non-increasing in the length of the glyph;
    for every base size the result is at least the floor of the bucket of
    the glyph: 9 for length 2, 8 for lengths 3-4, 7 for length 5 or more. *)
Theorem font_size_for_monotone (b : Z) (s t : pystr) :
  9 <= b -> len s <= len t ->
  font_size_for t b <= font_size_for s b /\
  (forall (b' : Z) (g : pystr),
      (len g = 2 -> 9 <= font_size_for g b') /\
      (3 <= len g <= 4 -> 8 <= font_size_for g b') /\
      (5 <= len g -> 7 <= font_size_for g b')).
Proof.
  intros Hb Hlen. split.
  - unfold font_size_for.
    repeat match goal with
           | |- context [if ?c then _ else _] => destruct c eqn:?
           end; lia.
  - intros b' g. unfold font_size_for.
    repeat split; intros Hg;
      repeat match goal with
             | |- context [if ?c then _ else _] => destruct c eqn:?
             end; lia.
Qed.

Lemma font_size_for_monotone_witness :
  font_size_for (lit "Home") 16 <= font_size_for (lit "@#") 16.
Proof.
  apply (font_size_for_monotone 16 (lit "@#") (lit "Home")).
  - lia.
  - vm_compute. discriminate.
Defined.

(** ** The inner chord cell *)

Ltac eval_closed f :=
  repeat match goal with
         | |- context [f ?k] =>
             let v := eval vm_compute in (f k) in
             progress change (f k) with v
         end.

Ltac qnorm :=
  unfold Qdiv in *;
  repeat match goal with
         | |- context [Qinv (Qmake ?n ?d)] =>
             let v := eval vm_compute in (Qinv (Qmake n d)) in
             change (Qinv (Qmake n d)) with v
         | H : context [Qinv (Qmake ?n ?d)] |- _ =>
             let v := eval vm_compute in (Qinv (Qmake n d)) in
             change (Qinv (Qmake n d)) with v in H
         end.
Ltac qlra := qnorm; lra.

Lemma key_in_In (k : Z) (s : list Z) : key_in k s = true <-> In k s.
Proof.
  unfold key_in. rewrite existsb_exists. split.
  - intros (x & Hx & He). apply Z.eqb_eq in He. now subst.
  - intros H. exists k. split; [exact H|apply Z.eqb_refl].
Qed.

Lemma ext_side_not_pressed (pressed : list Z) (key : Z) :
  key_in key (inner_ext_side pressed) = true -> In key KEYS /\ ~ In key pressed.
Proof.
  unfold inner_ext_side.
  destruct (subset pressed LEFT) eqn:HL; [|destruct (subset pressed RIGHT) eqn:HR];
    intros Hk; [| |discriminate Hk].
  - unfold subset in HL. rewrite forallb_forall in HL.
    split.
    + apply key_in_In in Hk. unfold RIGHT, KEYS in *. simpl in *. tauto.
    + intros Hin. specialize (HL _ Hin).
      apply key_in_In in Hk, HL. unfold LEFT, RIGHT, A, B, C, D, E, F in *.
      simpl in *. lia.
  - unfold subset in HR. rewrite forallb_forall in HR.
    split.
    + apply key_in_In in Hk. unfold LEFT, KEYS in *. simpl in *. tauto.
    + intros Hin. specialize (HR _ Hin).
      apply key_in_In in Hk, HR. unfold LEFT, RIGHT, A, B, C, D, E, F in *.
      simpl in *. lia.
Qed.

Lemma lor_fresh_key (base key : Z) :
  key <> 0 -> Z.land base key = 0 -> Z.lor base key <> base.
Proof.
  intros Hk Hl Heq.
  assert (H : Z.land (Z.lor base key) key = key).
  { rewrite Z.land_lor_distr_l, Hl, Z.land_diag. reflexivity. }
  rewrite Heq, Hl in H. congruence.
Qed.

Lemma ext_chord_fresh (base key : Z) :
  key_in key (inner_ext_side (bits base)) = true -> Z.lor base key <> base.
Proof.
  intros H. apply ext_side_not_pressed in H as [HK Hn].
  apply lor_fresh_key.
  - unfold KEYS, A, B, C, D, E, F in HK. simpl in HK. lia.
  - unfold bits in Hn. rewrite filter_In in Hn.
    destruct (Z.land base key =? 0) eqn:Hz; [now apply Z.eqb_eq|].
    exfalso. apply Hn. split; [exact HK|reflexivity].
Qed.

Lemma inner_ext_data_delete (entries : gmap Z Entry) (base key : Z) :
  inner_ext_data (delete base entries) base key = inner_ext_data entries base key.
Proof.
  unfold inner_ext_data.
  destruct (key_in key (inner_ext_side (bits base))) eqn:Hk; [|reflexivity].
  rewrite lookup_delete_ne; [reflexivity|].
  intros Heq. symmetry in Heq. revert Heq. now apply ext_chord_fresh.
Qed.

Lemma sorted_nonempty (l : list Z) : l <> [] -> sorted l <> [].
Proof.
  destruct l as [|x l]; [congruence|]. intros _. simpl.
  destruct (sorted l) as [|y r]; simpl; [discriminate|].
  destruct (x <=? y); discriminate.
Qed.

Lemma draw_6keys_Forall (P : prim -> Prop) (ox oy kw kh gx gy : Q)
    (key_info : list KeyInfo) :
  (forall x y info, In info key_info ->
     Forall P (draw_key x y kw kh (ki_char info) (ki_pressed info)
                 (ki_font_size info) (ki_text_fill info) (ki_dimmed info))) ->
  Forall P (draw_6keys ox oy kw kh gx gy key_info).
Proof.
  intros H. unfold draw_6keys. apply List.Forall_flat_map, List.Forall_forall.
  intros [key info] Hin. apply H. eapply in_combine_r, Hin.
Qed.

Lemma draw_num_symb_Forall (P : prim -> Prop) x y1 y2 n s anchor ns ss :
  (forall t sz fill weight y, P (Text x y t sz fill anchor weight "central")) ->
  Forall P (_draw_num_symb x y1 y2 n s anchor ns ss).
Proof.
  intros H. unfold _draw_num_symb, svg_text.
  destruct (truthy n), (truthy s); simpl; repeat constructor; apply H.
Qed.

Lemma count_rects_flat_map {T : Type} (f : T -> list prim) (l : list T) :
  (forall x, List.length (List.filter is_rect (f x)) = 1%nat) ->
  List.length (List.filter is_rect (List.flat_map f l)) = List.length l.
Proof.
  intros H. induction l as [|x l IH]; [reflexivity|].
  simpl. rewrite List.filter_app, List.length_app, H, IH. reflexivity.
Qed.

Lemma count_rects_draw_key x y w h c p fs tf d :
  List.length (List.filter is_rect (draw_key x y w h c p fs tf d)) = 1%nat.
Proof.
  unfold draw_key, svg_rect, svg_text.
  destruct p, d, (truthy c); reflexivity.
Qed.

Lemma count_rects_6keys (ox oy kw kh gx gy : Q) (f : Z -> KeyInfo) :
  List.length (List.filter is_rect
     (draw_6keys ox oy kw kh gx gy (List.map f KEYS))) = 6%nat.
Proof.
  unfold draw_6keys. rewrite count_rects_flat_map.
  - reflexivity.
  - intros [key info]. apply count_rects_draw_key.
Qed.

Lemma no_rects_num_symb x y1 y2 n s anchor ns ss :
  List.filter is_rect (_draw_num_symb x y1 y2 n s anchor ns ss) = [].
Proof.
  unfold _draw_num_symb, svg_text. destruct (truthy n), (truthy s); reflexivity.
Qed.

Lemma no_rects_ext_annotations ox oy kw kh gx gy entries base_chord :
  List.filter is_rect
    (inner_ext_annotations ox oy kw kh gx gy entries base_chord) = [].
Proof.
  unfold inner_ext_annotations.
  induction (inner_ext_side (bits base_chord)) as [|k l IH]; [reflexivity|].
  cbn [List.flat_map]. rewrite List.filter_app, IH, app_nil_r.
  destruct (inner_ext_data entries base_chord k) as [[[c n] s]|]; [|reflexivity].
  destruct (key_in k LEFT); apply no_rects_num_symb.
Qed.

Lemma truthy_ne (s : pystr) : s <> [] -> truthy s = true.
Proof. destruct s; [congruence|reflexivity]. Qed.

(** C6. In [draw_inner_chord_cell], for a base chord of two keys of one
    hand whose letter value resolves to a non-empty string, the badge (its
    rectangle and its text) is centred at [lx], and [lx] is the centre of the
    column of the pressed keys moved by exactly 14 when the rows of the two
    keys differ by more than 1 (to the left for the left hand, to the right
    for the right hand), and not moved when the keys are adjacent. *)
Theorem badge_offset (cx cy : Q) (entries : gmap Z Entry) (k1 k2 : Z) :
  In k1 KEYS -> In k2 KEYS -> k1 <> k2 ->
  key_in k1 LEFT = key_in k2 LEFT ->
  let base_chord := Z.lor k1 k2 in
  let base_char := field abc (entries !! base_chord) in
  base_char <> [] ->
  let fs := font_size_for base_char 16 in
  let badge_w := py_max 40 (inject_Z (len base_char * fs) * 0.7 + 8)%Q in
  let badge_h := inject_Z (fs + 8) in
  let column := (cx - 49 + inject_Z (KCOL k1) * 56 + 21)%Q in
  let offset : Q :=
    if Z.abs (KROW k1 - KROW k2) >? 1
    then (if key_in k1 LEFT then (-14)%Q else 14%Q)
    else 0%Q in
  exists out lx ly,
    draw_inner_chord_cell cx cy entries base_chord = Ok out /\
    In (Rect (lx - badge_w / 2) (ly - badge_h / 2) badge_w badge_h
             "#333" "#333" (PyInt 0) (PyFloat (badge_h / 2)))%Q out /\
    In (Text lx ly base_char fs "white" "middle" "bold" "central") out /\
    (lx == column + offset)%Q.
Proof.
  intros H1 H2 Hne Hhand base_chord base_char Hc fs badge_w badge_h column offset.
  apply truthy_ne in Hc.
  unfold KEYS in H1, H2. simpl in H1, H2.
  assert (Hcases : In (k1, k2) [(A,B);(B,A);(A,C);(C,A);(B,C);(C,B);
                                (D,E);(E,D);(D,F);(F,D);(E,F);(F,E)]).
  { unfold A, B, C, D, E, F in *.
    destruct H1 as [<-|[<-|[<-|[<-|[<-|[<-|[]]]]]]];
    destruct H2 as [<-|[<-|[<-|[<-|[<-|[<-|[]]]]]]];
    try congruence; try discriminate Hhand; simpl; tauto. }
  clear H1 H2 Hne Hhand.
  unfold A, B, C, D, E, F in Hcases. simpl in Hcases.
  repeat (destruct Hcases as [Hk|Hcases];
    [injection Hk as <- <-|]); [..|destruct Hcases].
  all: simpl (Z.lor _ _) in *; subst base_chord.
  all: unfold draw_inner_chord_cell, inner_badge.
  all: eval_closed bits; eval_closed set_first.
  all: repeat match goal with
         | |- context [sorted ?l] =>
             let v := eval vm_compute in (sorted l) in
             change (sorted l) with v
         end.
  all: cbv beta iota zeta.
  all: fold base_char; rewrite Hc; cbv beta iota zeta; unfold bind.
  all: do 3 eexists; split; [reflexivity|].
  all: split; [apply in_or_app; right; apply in_or_app; left; left; reflexivity|].
  all: split; [apply in_or_app; right; apply in_or_app; left; right; left; reflexivity|].
  all: subst column offset; vm_compute (KCOL _).
  all: simpl (Z.abs _ >? 1); simpl (subset _ _); simpl (List.last _ _); simpl (key_in _ _); cbv iota.
  all: simpl (_ >? _); cbv iota.
  all: repeat match goal with
              | |- context [if ?c then _ else _] =>
                  let v := eval vm_compute in c in
                  change c with v; cbv iota
              end.
  all: unfold inject_Z; clear; qlra.
Qed.

Lemma badge_offset_witness :
  exists out lx ly,
    draw_inner_chord_cell 299 256
      (<[5 := mkEntry (lit "t") [] [] [] [] []]> ∅) 5 = Ok out /\
    In (Text lx ly (lit "t") 16 "white" "middle" "bold" "central") out /\
    (lx == 257)%Q.
Proof.
  destruct (badge_offset 299 256
              (<[5 := mkEntry (lit "t") [] [] [] [] []]> ∅) A C)
    as (out & lx & ly & Ho & _ & Ht & Hx).
  - simpl. tauto.
  - simpl. tauto.
  - discriminate.
  - reflexivity.
  - discriminate.
  - exists out, lx, ly. split; [exact Ho|]. split; [exact Ht|].
    rewrite Hx. reflexivity.
Defined.

(** Without a letter for the base chord, an inner cell is its six keys
    followed by the annotations of its extension keys. *)
Lemma inner_without_letter (cx cy : Q) (entries : gmap Z Entry)
    (base_chord : Z) :
  bits base_chord <> [] ->
  field abc (entries !! base_chord) = [] ->
  draw_inner_chord_cell cx cy entries base_chord =
  Ok (draw_6keys (cx - (2 * 42 + 14) / 2) (cy - (3 * 30 + 2 * 6) / 2)
                 42 30 14 6 (inner_key_info entries base_chord) ++
      inner_ext_annotations (cx - (2 * 42 + 14) / 2)
                 (cy - (3 * 30 + 2 * 6) / 2) 42 30 14 6
                 entries base_chord)%Q.
Proof.
  intros Hb Hc. unfold draw_inner_chord_cell.
  destruct (sorted (List.map KROW (bits base_chord))) as [|r0 rest] eqn:Hs.
  { exfalso. revert Hs. apply sorted_nonempty.
    destruct (bits base_chord); [congruence|discriminate]. }
  cbv beta iota zeta.
  unfold inner_badge. rewrite Hc. reflexivity.
Qed.

Lemma count_rects_inner_keys ox oy kw kh gx gy entries base_chord :
  List.length
    (List.filter is_rect
       (draw_6keys ox oy kw kh gx gy (inner_key_info entries base_chord) ++
        inner_ext_annotations ox oy kw kh gx gy entries base_chord))
  = 6%nat.
Proof.
  rewrite List.filter_app, List.length_app. unfold inner_key_info.
  rewrite count_rects_6keys, no_rects_ext_annotations. reflexivity.
Qed.

(** C9. In [draw_inner_chord_cell], when the letter of the base chord
    resolves to the empty string (no entry, or an empty ['abc']), the call
    succeeds and draws exactly what it draws for the table without the entry
    of the base chord, whatever that entry's ['num'] and ['symb'] are: the six
    key rectangles and no other rectangle, no badge and no badge text. *)
Theorem no_badge_without_letter (cx cy : Q) (entries : gmap Z Entry)
    (base_chord : Z) :
  bits base_chord <> [] ->
  field abc (entries !! base_chord) = [] ->
  exists out,
    draw_inner_chord_cell cx cy entries base_chord = Ok out /\
    draw_inner_chord_cell cx cy (delete base_chord entries) base_chord
      = Ok out /\
    List.length (List.filter is_rect out) = 6%nat /\
    Forall (fun p => is_badge p = false /\ is_white_text p = false) out.
Proof.
  intros Hb Hc.
  rewrite (inner_without_letter cx cy entries base_chord Hb Hc).
  rewrite (inner_without_letter cx cy (delete base_chord entries)
             base_chord Hb)
    by (rewrite lookup_delete_eq; reflexivity).
  eexists. split; [reflexivity|]. split; [|split].
  - f_equal. f_equal.
    + unfold inner_key_info. f_equal. apply map_ext. intros key.
      now rewrite inner_ext_data_delete.
    + unfold inner_ext_annotations. apply flat_map_ext. intros key.
      now rewrite inner_ext_data_delete.
  - apply count_rects_inner_keys.
  - apply List.Forall_app. split.
    + apply draw_6keys_Forall. intros x y info Hin.
      unfold inner_key_info in Hin. apply in_map_iff in Hin as (key & <- & _).
      destruct (key_in key (bits base_chord)).
      * simpl. repeat constructor.
      * destruct (inner_ext_data entries base_chord key) as [[[c n] s]|];
          simpl; unfold draw_key, svg_rect, svg_text; simpl;
          [destruct (truthy c)|]; repeat constructor.
    + unfold inner_ext_annotations.
      apply List.Forall_flat_map, List.Forall_forall. intros key _.
      destruct (inner_ext_data entries base_chord key) as [[[c n] s]|];
        [|constructor].
      cbv zeta. destruct (key_in key LEFT);
      unfold _draw_num_symb, svg_text;
      destruct (truthy n), (truthy s); simpl; repeat constructor.
Qed.

Lemma no_badge_without_letter_witness :
  exists out,
    draw_inner_chord_cell 299 256
      (<[5 := mkEntry [] [] (lit "1") [] (lit "!") []]> ∅) 5 = Ok out /\
    List.length (List.filter is_rect out) = 6%nat.
Proof.
  destruct (no_badge_without_letter 299 256
              (<[5 := mkEntry [] [] (lit "1") [] (lit "!") []]> ∅) 5)
    as (out & Ho & _ & Hn & _).
  - discriminate.
  - reflexivity.
  - exists out. split; [exact Ho|exact Hn].
Defined.

(** ** Shifted fields are never read *)

Lemma same_core_cases (e1 e2 : gmap Z Entry) (k : Z) :
  same_core e1 e2 ->
  (e1 !! k = None /\ e2 !! k = None) \/
  (exists a b, e1 !! k = Some a /\ e2 !! k = Some b /\
               abc a = abc b /\ num a = num b /\ symb a = symb b).
Proof.
  intros H. specialize (H k).
  destruct (e1 !! k) as [a|], (e2 !! k) as [b|]; simpl in H;
    try discriminate H.
  - right. exists a, b. unfold core in H. injection H as Ha Hn Hs. tauto.
  - left. tauto.
Qed.

Lemma same_core_field (e1 e2 : gmap Z Entry) (k : Z) :
  same_core e1 e2 ->
  field abc (e1 !! k) = field abc (e2 !! k) /\
  field num (e1 !! k) = field num (e2 !! k) /\
  field symb (e1 !! k) = field symb (e2 !! k).
Proof.
  intros H.
  destruct (same_core_cases e1 e2 k H) as [[-> ->]|(a & b & -> & -> & Ha & Hn & Hs)];
    simpl; [tauto|]. now rewrite Ha, Hn, Hs.
Qed.

Ltac core_fields H :=
  repeat match goal with
         | |- context [field ?f (?e !! ?k)] =>
             lazymatch type of H with
             | same_core e _ =>
                 let Ha := fresh in let Hn := fresh in let Hs := fresh in
                 destruct (same_core_field _ _ k H) as (Ha & Hn & Hs);
                 rewrite ?Ha, ?Hn, ?Hs; clear Ha Hn Hs
             end
         end.

Lemma center_same_core cx cy e1 e2 :
  same_core e1 e2 -> draw_center_cell cx cy e1 = draw_center_cell cx cy e2.
Proof.
  intros H. unfold draw_center_cell. cbv zeta. f_equal.
  - f_equal. apply map_ext. intros k.
    destruct (same_core_field e1 e2 k H) as (-> & _). reflexivity.
  - apply flat_map_ext. intros k.
    destruct (same_core_cases e1 e2 k H) as [[-> ->]|(a & b & -> & -> & Ha & Hn & Hs)];
      [reflexivity|]. now rewrite Hn, Hs.
Qed.

Lemma ext_data_same_core e1 e2 base key :
  same_core e1 e2 -> inner_ext_data e1 base key = inner_ext_data e2 base key.
Proof.
  intros H. unfold inner_ext_data.
  destruct (key_in key (inner_ext_side (bits base))); [|reflexivity].
  destruct (same_core_cases e1 e2 (Z.lor base key) H)
    as [[-> ->]|(a & b & -> & -> & Ha & Hn & Hs)]; [reflexivity|].
  now rewrite Ha, Hn, Hs.
Qed.

Lemma inner_badge_same_core ox oy kw kh gx gy e1 e2 base r0 r1 :
  same_core e1 e2 ->
  inner_badge ox oy kw kh gx gy e1 base r0 r1 =
  inner_badge ox oy kw kh gx gy e2 base r0 r1.
Proof.
  intros H. unfold inner_badge. cbv zeta.
  destruct (same_core_field e1 e2 base H) as (-> & -> & ->). reflexivity.
Qed.

Lemma inner_key_info_same_core e1 e2 base :
  same_core e1 e2 -> inner_key_info e1 base = inner_key_info e2 base.
Proof.
  intros H. unfold inner_key_info. apply map_ext. intros k.
  now rewrite (ext_data_same_core e1 e2 base k H).
Qed.

Lemma inner_ext_annotations_same_core ox oy kw kh gx gy e1 e2 base :
  same_core e1 e2 ->
  inner_ext_annotations ox oy kw kh gx gy e1 base =
  inner_ext_annotations ox oy kw kh gx gy e2 base.
Proof.
  intros H. unfold inner_ext_annotations. apply flat_map_ext. intros k.
  now rewrite (ext_data_same_core e1 e2 base k H).
Qed.

Lemma inner_same_core cx cy e1 e2 base :
  same_core e1 e2 ->
  draw_inner_chord_cell cx cy e1 base = draw_inner_chord_cell cx cy e2 base.
Proof.
  intros H. unfold draw_inner_chord_cell. cbv zeta.
  destruct (sorted (List.map KROW (bits base))) as [|r0 rest]; [reflexivity|].
  rewrite (inner_badge_same_core _ _ _ _ _ _ e1 e2 base _ _ H).
  destruct (inner_badge _ _ _ _ _ _ e2 base _ _) as [badge|]; [|reflexivity].
  unfold bind.
  rewrite (inner_key_info_same_core e1 e2 base H).
  rewrite (inner_ext_annotations_same_core _ _ _ _ _ _ e1 e2 base H).
  reflexivity.
Qed.

Lemma outer_same_core cx cy e1 e2 chord w h :
  same_core e1 e2 ->
  draw_outer_chord_cell cx cy e1 chord w h =
  draw_outer_chord_cell cx cy e2 chord w h.
Proof.
  intros H. unfold draw_outer_chord_cell. cbv zeta.
  destruct (same_core_field e1 e2 chord H) as (-> & -> & ->). reflexivity.
Qed.

Lemma direction_same_core cx cy e1 e2 chord w h :
  same_core e1 e2 ->
  draw_direction_cell cx cy e1 chord w h =
  draw_direction_cell cx cy e2 chord w h.
Proof.
  intros H. unfold draw_direction_cell. cbv zeta.
  destruct (same_core_field e1 e2 chord H) as (-> & -> & ->). reflexivity.
Qed.

Lemma mode_same_core cx cy e1 e2 chord label w h :
  same_core e1 e2 ->
  draw_mode_cell cx cy e1 chord label w h =
  draw_mode_cell cx cy e2 chord label w h.
Proof.
  intros H. unfold draw_mode_cell. cbv zeta.
  destruct (same_core_field e1 e2 chord H) as (_ & -> & ->). reflexivity.
Qed.

Lemma control_same_core cx cy e1 e2 chord label w h :
  same_core e1 e2 ->
  draw_control_cell cx cy e1 chord label w h =
  draw_control_cell cx cy e2 chord label w h.
Proof.
  intros H. unfold draw_control_cell. cbv zeta.
  destruct (same_core_field e1 e2 chord H) as (_ & -> & ->). reflexivity.
Qed.

Lemma for_each_ext {T : Type} (l : list T) (f g : T -> result (list prim)) :
  (forall x, f x = g x) -> for_each l f = for_each l g.
Proof.
  intros H. induction l as [|x l IH]; [reflexivity|].
  simpl. now rewrite H, IH.
Qed.

Lemma parts_same_core layout_id layout_name e1 e2 variant :
  same_core e1 e2 ->
  generate_svg_parts layout_id layout_name e1 variant =
  generate_svg_parts layout_id layout_name e2 variant.
Proof.
  intros H. unfold generate_svg_parts.
  assert (Hi : inner_section e1 = inner_section e2).
  { unfold inner_section. apply for_each_ext. intros [[row col] chord].
    now rewrite (inner_same_core _ _ e1 e2 chord H). }
  assert (Hc : center_section e1 = center_section e2).
  { unfold center_section. cbv zeta.
    now rewrite (center_same_core _ _ e1 e2 H). }
  assert (Ho : forall x n l, outer_section e1 x n l = outer_section e2 x n l).
  { intros x n l. unfold outer_section. apply flat_map_ext.
    intros [[row col] chord]. cbv zeta.
    now rewrite (outer_same_core _ _ e1 e2 chord _ _ H). }
  assert (Hd : directions_section e1 = directions_section e2).
  { unfold directions_section.
    rewrite !(direction_same_core _ _ e1 e2 _ _ _ H).
    f_equal. f_equal. apply flat_map_ext. intros [[row col] chord]. cbv zeta.
    apply direction_same_core, H. }
  assert (Hm : modes_section e1 = modes_section e2).
  { unfold modes_section. f_equal. apply flat_map_ext.
    intros [i [chord label]]. cbv zeta. apply mode_same_core, H. }
  assert (Hk : control_section e1 = control_section e2).
  { unfold control_section. f_equal. f_equal. apply flat_map_ext.
    intros [i [chord label]]. cbv zeta. apply control_same_core, H. }
  rewrite Hi. destruct (title_text _ _ _); [|reflexivity]. cbn [bind].
  destruct (inner_section e2); [|reflexivity]. cbn [bind].
  now rewrite Hc, !Ho, Hd, Hm, Hk.
Qed.

(** C10. The shifted fields never influence the output: two tables whose
    entries agree on ['abc'], ['num'] and ['symb'] give the same document. *)
Theorem shifted_fields_unused
    (fmt_1f repr_float : Q -> pystr) (layout_id layout_name : option pystr)
    (e1 e2 : gmap Z Entry) (variant : pystr) :
  (forall k : Z, core <$> (e1 !! k) = core <$> (e2 !! k)) ->
  generate_svg fmt_1f repr_float layout_id layout_name e1 variant =
  generate_svg fmt_1f repr_float layout_id layout_name e2 variant.
Proof.
  intros H. unfold generate_svg. now rewrite (parts_same_core _ _ e1 e2 _ H).
Qed.

Lemma shifted_fields_unused_witness :
  generate_svg (fun _ => []) (fun _ => []) (Some (lit "en")) None
    (<[3 := mkEntry (lit "t") (lit "T") [] [] [] []]> ∅) (lit "Standard") =
  generate_svg (fun _ => []) (fun _ => []) (Some (lit "en")) None
    (<[3 := mkEntry (lit "t") (lit "X") [] (lit "9") [] []]> ∅)
    (lit "Standard").
Proof.
  apply shifted_fields_unused. intros k.
  destruct (decide (k = 3)) as [->|Hk].
  - rewrite !lookup_insert_eq. reflexivity.
  - rewrite !lookup_insert_ne by congruence. reflexivity.
Defined.

(** ** Geometry of the frames *)

Lemma frame_geometry_app (l1 l2 : list prim) :
  frame_geometry (l1 ++ l2) = frame_geometry l1 ++ frame_geometry l2.
Proof.
  unfold frame_geometry. now rewrite List.filter_app, List.flat_map_app.
Qed.

Lemma frame_geometry_flat_map_nil {T : Type} (f : T -> list prim) (l : list T) :
  (forall x, frame_geometry (f x) = []) ->
  frame_geometry (List.flat_map f l) = [].
Proof.
  intros H. induction l as [|x l IH]; [reflexivity|].
  cbn [List.flat_map]. now rewrite frame_geometry_app, H, IH.
Qed.

Lemma frame_geometry_flat_map_ext {T : Type} (f g : T -> list prim)
    (l : list T) :
  (forall x, frame_geometry (f x) = frame_geometry (g x)) ->
  frame_geometry (List.flat_map f l) = frame_geometry (List.flat_map g l).
Proof.
  intros H. induction l as [|x l IH]; [reflexivity|].
  cbn [List.flat_map]. now rewrite !frame_geometry_app, H, IH.
Qed.

Lemma frame_geometry_draw_key x y w h c p fs tf d :
  frame_geometry (draw_key x y w h c p fs tf d)
  = [(Qred x, Qred y, Qred w, Qred h)].
Proof.
  unfold draw_key, svg_rect, svg_text.
  destruct p, d, (truthy c); reflexivity.
Qed.

Lemma frame_geometry_text x y t sz fill anchor weight :
  frame_geometry (svg_text x y t sz fill anchor weight) = [].
Proof. reflexivity. Qed.

Lemma frame_geometry_num_symb x y1 y2 n s anchor ns ss :
  frame_geometry (_draw_num_symb x y1 y2 n s anchor ns ss) = [].
Proof.
  unfold _draw_num_symb, svg_text. destruct (truthy n), (truthy s); reflexivity.
Qed.

Lemma frame_geometry_6keys ox oy kw kh gx gy (f g : Z -> KeyInfo) :
  frame_geometry (draw_6keys ox oy kw kh gx gy (List.map f KEYS)) =
  frame_geometry (draw_6keys ox oy kw kh gx gy (List.map g KEYS)).
Proof.
  unfold draw_6keys. generalize KEYS at 1 3 as ks. generalize KEYS as l.
  induction l as [|k l IH]; intros [|k' ks]; try reflexivity.
  cbn [List.map List.combine List.flat_map].
  now rewrite !frame_geometry_app, !frame_geometry_draw_key, IH.
Qed.

Lemma frame_geometry_center cx cy e1 e2 :
  frame_geometry (draw_center_cell cx cy e1) =
  frame_geometry (draw_center_cell cx cy e2).
Proof.
  unfold draw_center_cell. cbv zeta. rewrite !frame_geometry_app.
  f_equal.
  - apply frame_geometry_6keys.
  - rewrite !frame_geometry_flat_map_nil; [reflexivity| |]; intros k.
    + destruct (e2 !! k); [|reflexivity].
      destruct (key_in k LEFT); apply frame_geometry_num_symb.
    + destruct (e1 !! k); [|reflexivity].
      destruct (key_in k LEFT); apply frame_geometry_num_symb.
Qed.

Lemma set_first_some (s : list Z) : s <> [] -> set_first s <> None.
Proof.
  destruct s as [|k s]; [congruence|]. intros _. unfold set_first.
  destruct (_ <=? 4).
  - destruct (List.filter _ _); discriminate.
  - destruct (key_in F _); discriminate.
Qed.

Lemma inner_badge_ok ox oy kw kh gx gy e base r0 r1 :
  bits base <> [] ->
  exists badge, inner_badge ox oy kw kh gx gy e base r0 r1 = Ok badge /\
                frame_geometry badge = [].
Proof.
  intros Hb. unfold inner_badge. cbv zeta.
  destruct (truthy _); [|exists []; split; reflexivity].
  destruct (set_first (bits base)) as [k0|] eqn:Hk;
    [|exfalso; revert Hk; now apply set_first_some].
  eexists. split; [reflexivity|].
  rewrite !frame_geometry_app, frame_geometry_num_symb. reflexivity.
Qed.

Lemma frame_geometry_ext_annotations ox oy kw kh gx gy e base :
  frame_geometry (inner_ext_annotations ox oy kw kh gx gy e base) = [].
Proof.
  unfold inner_ext_annotations. apply frame_geometry_flat_map_nil. intros k.
  destruct (inner_ext_data e base k) as [[[c n] s]|]; [|reflexivity].
  cbv zeta. destruct (key_in k LEFT); apply frame_geometry_num_symb.
Qed.

Lemma inner_ok cx cy e base :
  bits base <> [] ->
  exists out, draw_inner_chord_cell cx cy e base = Ok out /\
    frame_geometry out =
    frame_geometry (draw_6keys (cx - (2 * 42 + 14) / 2)
                      (cy - (3 * 30 + 2 * 6) / 2) 42 30 14 6
                      (inner_key_info ∅ base))%Q.
Proof.
  intros Hb. unfold draw_inner_chord_cell. cbv zeta.
  destruct (sorted (List.map KROW (bits base))) as [|r0 rest] eqn:Hs.
  { exfalso. revert Hs. apply sorted_nonempty.
    destruct (bits base); [congruence|discriminate]. }
  match goal with
  | |- context [inner_badge ?ox ?oy ?kw ?kh ?gx ?gy e base ?a ?b] =>
      destruct (inner_badge_ok ox oy kw kh gx gy e base a b Hb)
        as (badge & -> & Hg)
  end.
  cbn [bind]. eexists. split; [reflexivity|].
  rewrite !frame_geometry_app, Hg, frame_geometry_ext_annotations, app_nil_r.
  unfold inner_key_info. apply frame_geometry_6keys.
Qed.

Lemma frame_geometry_if_text (b : bool) (l : list prim) :
  frame_geometry l = [] -> frame_geometry (if b then l else []) = [].
Proof. destruct b; [tauto|reflexivity]. Qed.

Lemma frame_geometry_outer cx cy e1 e2 chord w h :
  frame_geometry (draw_outer_chord_cell cx cy e1 chord w h) =
  frame_geometry (draw_outer_chord_cell cx cy e2 chord w h).
Proof.
  unfold draw_outer_chord_cell. cbv zeta.
  rewrite !frame_geometry_app, !frame_geometry_num_symb.
  rewrite !frame_geometry_if_text by reflexivity. reflexivity.
Qed.

Lemma frame_geometry_direction cx cy e1 e2 chord w h :
  frame_geometry (draw_direction_cell cx cy e1 chord w h) =
  frame_geometry (draw_direction_cell cx cy e2 chord w h).
Proof.
  unfold draw_direction_cell. cbv zeta.
  rewrite !frame_geometry_app, !frame_geometry_num_symb.
  rewrite !frame_geometry_if_text by reflexivity. reflexivity.
Qed.

Lemma frame_geometry_mode cx cy e1 e2 chord label w h :
  frame_geometry (draw_mode_cell cx cy e1 chord label w h) =
  frame_geometry (draw_mode_cell cx cy e2 chord label w h).
Proof.
  unfold draw_mode_cell. cbv zeta.
  rewrite !frame_geometry_app, !frame_geometry_num_symb. reflexivity.
Qed.

Lemma frame_geometry_control cx cy e1 e2 chord label w h :
  frame_geometry (draw_control_cell cx cy e1 chord label w h) =
  frame_geometry (draw_control_cell cx cy e2 chord label w h).
Proof.
  unfold draw_control_cell. cbv zeta.
  rewrite !frame_geometry_app, !frame_geometry_num_symb. reflexivity.
Qed.

(** Two runs of a loop over cells that all succeed, with a relation between
    the outputs that is compatible with concatenation. *)
Lemma for_each_rel {T : Type} (l : list T) (f g : T -> result (list prim))
    (R : list prim -> list prim -> Prop) :
  R [] [] ->
  (forall a b a' b', R a a' -> R b b' -> R (a ++ b) (a' ++ b')) ->
  (forall x, In x l -> exists o o', f x = Ok o /\ g x = Ok o' /\ R o o') ->
  exists o o', for_each l f = Ok o /\ for_each l g = Ok o' /\ R o o'.
Proof.
  intros Hnil Happ. induction l as [|x l IH]; intros H.
  - exists [], []. repeat split; assumption.
  - destruct (H x (or_introl eq_refl)) as (o & o' & Ho & Ho' & Ro).
    destruct IH as (r & r' & Hr & Hr' & Rr); [intros y Hy; apply H; now right|].
    exists (o ++ r), (o' ++ r'). cbn [for_each]. rewrite Ho, Ho', Hr, Hr'.
    repeat split. now apply Happ.
Qed.

Lemma inner_chords_pressed row col chord :
  In (row, col, chord) inner_chords -> bits chord <> [].
Proof.
  unfold inner_chords. intros H.
  repeat (destruct H as [H|H]; [injection H as <- <- <-; discriminate|]).
  destruct H.
Qed.

Lemma title_ok (layout_id layout_name variant : pystr) :
  exists x y t, title_text (Some layout_id) (Some layout_name) variant
                = Ok (svg_text x y t 22 "#222" "middle" "bold").
Proof.
  unfold title_text, py_or.
  destruct (truthy layout_name), (truthy variant); cbn [bind];
    do 3 eexists; reflexivity.
Qed.

Lemma inner_section_frames e1 e2 :
  exists o1 o2, inner_section e1 = Ok o1 /\ inner_section e2 = Ok o2 /\
                frame_geometry o1 = frame_geometry o2.
Proof.
  unfold inner_section. apply for_each_rel.
  - reflexivity.
  - intros a b a' b' Ha Hb. now rewrite !frame_geometry_app, Ha, Hb.
  - intros [[row col] chord] Hin. apply inner_chords_pressed in Hin.
    cbv zeta.
    match goal with
    | |- context [draw_inner_chord_cell ?x ?y e1 chord] =>
        destruct (inner_ok x y e1 chord Hin) as (o1 & -> & H1);
        destruct (inner_ok x y e2 chord Hin) as (o2 & -> & H2)
    end.
    cbn [bind]. do 2 eexists. split; [reflexivity|]. split; [reflexivity|].
    rewrite !frame_geometry_app, H1, H2. reflexivity.
Qed.

Lemma outer_section_frames e1 e2 x name chords :
  frame_geometry (outer_section e1 x name chords) =
  frame_geometry (outer_section e2 x name chords).
Proof.
  unfold outer_section. apply frame_geometry_flat_map_ext.
  intros [[row col] chord]. cbv zeta.
  rewrite !frame_geometry_app. f_equal. apply frame_geometry_outer.
Qed.

Lemma directions_section_frames e1 e2 :
  frame_geometry (directions_section e1) =
  frame_geometry (directions_section e2).
Proof.
  unfold directions_section. rewrite !frame_geometry_app.
  rewrite !(frame_geometry_direction _ _ e1 e2). do 2 f_equal.
  apply frame_geometry_flat_map_ext.
  intros [[row col] chord]. apply frame_geometry_direction.
Qed.

Lemma modes_section_frames e1 e2 :
  frame_geometry (modes_section e1) = frame_geometry (modes_section e2).
Proof.
  unfold modes_section. rewrite !frame_geometry_app. f_equal.
  apply frame_geometry_flat_map_ext.
  intros [i [chord label]]. apply frame_geometry_mode.
Qed.

Lemma control_section_frames e1 e2 :
  frame_geometry (control_section e1) = frame_geometry (control_section e2).
Proof.
  unfold control_section. rewrite !frame_geometry_app. do 2 f_equal.
  apply frame_geometry_flat_map_ext.
  intros [i [chord label]]. apply frame_geometry_control.
Qed.

Lemma parts_frames (id1 name1 v1 id2 name2 v2 : pystr) (e1 e2 : gmap Z Entry) :
  exists p1 p2,
    generate_svg_parts (Some id1) (Some name1) e1 v1 = Ok p1 /\
    generate_svg_parts (Some id2) (Some name2) e2 v2 = Ok p2 /\
    frame_geometry p1 = frame_geometry p2.
Proof.
  unfold generate_svg_parts.
  destruct (title_ok id1 name1 v1) as (x1 & y1 & t1 & ->).
  destruct (title_ok id2 name2 v2) as (x2 & y2 & t2 & ->).
  destruct (inner_section_frames e1 e2) as (o1 & o2 & -> & -> & Hi).
  cbn [bind]. do 2 eexists. split; [reflexivity|]. split; [reflexivity|].
  rewrite !frame_geometry_app, Hi, !frame_geometry_text.
  rewrite !(outer_section_frames e1 e2), (directions_section_frames e1 e2),
    (modes_section_frames e1 e2), (control_section_frames e1 e2).
  unfold center_section. rewrite !frame_geometry_app.
  now rewrite (frame_geometry_center _ _ e1 e2).
Qed.

(** C4 as stated fails: the tables [ex_t] and [ex_ab] hold an entry for the
    same chord and differ only in the letter, and the rectangles of their
    diagrams differ (the badge is 40 x 24 for "t" and 40 x 21 for "ab"). *)
Lemma rect_geometry_depends_on_letter :
  ~ (forall (e1 e2 : gmap Z Entry) (layout_id layout_name variant : pystr)
            (p1 p2 : list prim),
        dom e1 = dom e2 ->
        generate_svg_parts (Some layout_id) (Some layout_name) e1 variant
          = Ok p1 ->
        generate_svg_parts (Some layout_id) (Some layout_name) e2 variant
          = Ok p2 ->
        rect_geometry p1 = rect_geometry p2).
Proof.
  intros H.
  specialize (H ex_t ex_ab [] [] []).
  destruct (parts_frames [] [] [] [] [] [] ex_t ex_ab) as (p1 & p2 & H1 & H2 & _).
  specialize (H p1 p2).
  assert (Hd : dom ex_t = dom ex_ab).
  { unfold ex_t, ex_ab. now rewrite !dom_insert_L. }
  specialize (H Hd H1 H2).
  vm_compute in H1. injection H1 as <-.
  vm_compute in H2. injection H2 as <-.
  vm_compute in H. discriminate H.
Qed.

(** ** Canvas bounds *)

Local Open Scope Q_scope.


Lemma within_weaken (x0 y0 x1 y1 a0 b0 a1 b1 : Q) (p : prim) :
  a0 <= x0 -> b0 <= y0 -> x1 <= a1 -> y1 <= b1 ->
  within x0 y0 x1 y1 p -> within a0 b0 a1 b1 p.
Proof.
  intros Ha Hb Hc Hd. destruct p; simpl; try tauto; intros (? & ? & ? & ?);
    repeat split; lra.
Qed.

Lemma Forall_within_weaken (x0 y0 x1 y1 a0 b0 a1 b1 : Q) (l : list prim) :
  a0 <= x0 -> b0 <= y0 -> x1 <= a1 -> y1 <= b1 ->
  Forall (within x0 y0 x1 y1) l -> Forall (within a0 b0 a1 b1) l.
Proof.
  intros Ha Hb Hc Hd. apply List.Forall_impl. intros p.
  now apply within_weaken.
Qed.

Lemma within_draw_key x0 y0 x1 y1 x y w h c p fs tf d :
  x0 <= x -> x + w <= x1 -> y0 <= y -> y + h <= y1 -> 0 <= w -> 0 <= h ->
  Forall (within x0 y0 x1 y1) (draw_key x y w h c p fs tf d).
Proof.
  intros. unfold draw_key, svg_rect, svg_text.
  destruct p, d, (truthy c); simpl; repeat constructor; simpl; qlra.
Qed.

Lemma within_num_symb x0 y0 x1 y1 x ya yb n s anchor ns ss :
  x0 <= x -> x <= x1 -> y0 <= ya -> ya <= y1 -> y0 <= yb -> yb <= y1 ->
  Forall (within x0 y0 x1 y1) (_draw_num_symb x ya yb n s anchor ns ss).
Proof.
  intros. unfold _draw_num_symb, svg_text.
  destruct (truthy n), (truthy s); simpl; repeat constructor; simpl; lra.
Qed.

Lemma key_grid (k : Z) :
  In k KEYS ->
  (inject_Z (KCOL k) == 0 \/ inject_Z (KCOL k) == 1) /\
  (inject_Z (KROW k) == 0 \/ inject_Z (KROW k) == 1 \/ inject_Z (KROW k) == 2).
Proof.
  unfold KEYS, A, B, C, D, E, F. simpl.
  intros [<-|[<-|[<-|[<-|[<-|[<-|[]]]]]]]; simpl; split;
    (try (left; reflexivity)); (try (right; left; reflexivity));
    (try (right; right; reflexivity)); right; reflexivity.
Qed.

Lemma within_6keys ox oy kw kh gx gy key_info :
  0 <= kw -> 0 <= kh -> 0 <= gx -> 0 <= gy ->
  Forall (within ox oy (ox + (2 * kw + gx)) (oy + (3 * kh + 2 * gy)))
         (draw_6keys ox oy kw kh gx gy key_info).
Proof.
  intros Hkw Hkh Hgx Hgy. unfold draw_6keys.
  apply List.Forall_flat_map, List.Forall_forall. intros [key info] Hin.
  apply in_combine_l in Hin. destruct (key_grid key Hin) as [Hc Hr].
  cbv zeta.
  apply within_draw_key; try assumption;
    destruct Hc as [Hc|Hc], Hr as [Hr|[Hr|Hr]]; rewrite ?Hc, ?Hr; nra.
Qed.

Lemma within_if_text x0 y0 x1 y1 (b : bool) (l : list prim) :
  Forall (within x0 y0 x1 y1) l ->
  Forall (within x0 y0 x1 y1) (if b then l else []).
Proof. destruct b; [tauto|constructor]. Qed.

Lemma within_text x0 y0 x1 y1 x y t sz fill anchor weight :
  x0 <= x -> x <= x1 -> y0 <= y -> y <= y1 ->
  Forall (within x0 y0 x1 y1) (svg_text x y t sz fill anchor weight).
Proof. intros. repeat constructor; assumption. Qed.

Lemma within_rect x0 y0 x1 y1 x y w h fill stroke sw rx :
  x0 <= x -> x + w <= x1 -> y0 <= y -> y + h <= y1 ->
  Forall (within x0 y0 x1 y1) (svg_rect x y w h fill stroke sw rx).
Proof. intros. repeat constructor; assumption. Qed.

Lemma within_comment x0 y0 x1 y1 s :
  Forall (within x0 y0 x1 y1) (svg_comment s).
Proof. repeat constructor. Qed.

(** The center cell stays in a box of 150 x 142 around its center. *)
Lemma within_center cx cy e :
  Forall (within (cx - 75) (cy - 71) (cx + 75) (cy + 71))
         (draw_center_cell cx cy e).
Proof.
  unfold draw_center_cell. cbv zeta. apply List.Forall_app. split.
  - eapply Forall_within_weaken; [| | | |apply within_6keys]; qlra.
  - apply List.Forall_flat_map, List.Forall_forall. intros key Hin.
    destruct (e !! key); [|constructor].
    destruct (key_grid key Hin) as [Hc Hr].
    destruct (key_in key LEFT); apply within_num_symb;
      destruct Hc as [Hc|Hc], Hr as [Hr|[Hr|Hr]]; rewrite ?Hc, ?Hr; qlra.
Qed.

(** An outer cell stays inside its frame when the frame is at least
    45 x 55. *)
Lemma within_outer cx cy e chord w h :
  45 <= w -> 55 <= h ->
  Forall (within (cx - w / 2) (cy - h / 2) (cx + w / 2) (cy + h / 2))
         (draw_outer_chord_cell cx cy e chord w h).
Proof.
  intros Hw Hh. unfold draw_outer_chord_cell. cbv zeta.
  apply List.Forall_app; split;
    [|apply List.Forall_app; split; [|apply List.Forall_app; split]].
  - apply within_rect; qlra.
  - apply within_if_text, within_text; qlra.
  - eapply Forall_within_weaken; [| | | |apply within_6keys]; qlra.
  - apply within_num_symb; qlra.
Qed.

(** A direction, mode or control cell stays inside its frame when the frame
    is at least 36 x 52. *)
Lemma within_direction cx cy e chord w h :
  36 <= w -> 52 <= h ->
  Forall (within (cx - w / 2) (cy - h / 2) (cx + w / 2) (cy + h / 2))
         (draw_direction_cell cx cy e chord w h).
Proof.
  intros Hw Hh. unfold draw_direction_cell. cbv zeta.
  apply List.Forall_app; split;
    [|apply List.Forall_app; split; [|apply List.Forall_app; split]].
  - apply within_rect; qlra.
  - eapply Forall_within_weaken; [| | | |apply within_6keys]; qlra.
  - apply within_if_text, within_text; qlra.
  - apply within_num_symb; qlra.
Qed.

Lemma within_mode cx cy e chord label w h :
  36 <= w -> 52 <= h ->
  Forall (within (cx - w / 2) (cy - h / 2) (cx + w / 2) (cy + h / 2))
         (draw_mode_cell cx cy e chord label w h).
Proof.
  intros Hw Hh. unfold draw_mode_cell. cbv zeta.
  apply List.Forall_app; split;
    [|apply List.Forall_app; split; [|apply List.Forall_app; split]].
  - apply within_rect; qlra.
  - eapply Forall_within_weaken; [| | | |apply within_6keys]; qlra.
  - apply within_text; qlra.
  - apply within_num_symb; qlra.
Qed.

Lemma within_control cx cy e chord label w h :
  36 <= w -> 52 <= h ->
  Forall (within (cx - w / 2) (cy - h / 2) (cx + w / 2) (cy + h / 2))
         (draw_control_cell cx cy e chord label w h).
Proof.
  intros Hw Hh. unfold draw_control_cell. cbv zeta.
  apply List.Forall_app; split;
    [|apply List.Forall_app; split; [|apply List.Forall_app; split]].
  - apply within_rect; qlra.
  - eapply Forall_within_weaken; [| | | |apply within_6keys]; qlra.
  - apply within_text; qlra.
  - apply within_num_symb; qlra.
Qed.

Lemma KCOL_range (k : Z) : (0 <= KCOL k <= 1)%Z.
Proof.
  unfold KCOL. destruct k as [|p|p]; try lia.
  do 6 (destruct p as [p|p|]; try lia).
Qed.

Lemma KROW_range (k : Z) : (0 <= KROW k <= 2)%Z.
Proof.
  unfold KROW. destruct k as [|p|p]; try lia.
  do 6 (destruct p as [p|p|]; try lia).
Qed.

Lemma In_insert_sorted (x y : Z) (l : list Z) :
  In y (insert_sorted x l) -> y = x \/ In y l.
Proof.
  induction l as [|z l IH]; simpl.
  - intros [<-|[]]. now left.
  - destruct (x <=? z)%Z; simpl.
    + intros [<-|H]; [now left|now right].
    + intros [<-|H]; [right; now left|].
      destruct (IH H) as [->|H']; [now left|right; now right].
Qed.

Lemma In_sorted (y : Z) (l : list Z) : In y (sorted l) -> In y l.
Proof.
  induction l as [|x l IH]; simpl; [tauto|].
  intros H. apply In_insert_sorted in H as [->|H]; [now left|].
  right. now apply IH.
Qed.

Lemma In_last (l : list Z) (d : Z) : In (List.last (d :: l) d) (d :: l).
Proof.
  assert (H : forall l a, In (List.last (a :: l) d) (a :: l)).
  { clear l. induction l as [|x l IH]; intros a.
    - now left.
    - right. apply IH. }
  apply H.
Qed.

Lemma pressed_rows_range (base r0 : Z) (rest : list Z) :
  sorted (List.map KROW (bits base)) = r0 :: rest ->
  (0 <= r0 <= 2)%Z /\ (0 <= List.last (r0 :: rest) r0 <= 2)%Z.
Proof.
  intros Hs.
  assert (H : forall r, In r (r0 :: rest) -> (0 <= r <= 2)%Z).
  { intros r Hr. rewrite <- Hs in Hr. apply In_sorted in Hr.
    apply in_map_iff in Hr as (k & <- & _). apply KROW_range. }
  split; apply H; [now left|apply In_last].
Qed.

Lemma py_max_cases (a b : Q) :
  (py_max a b = a /\ b <= a) \/ (py_max a b = b /\ a < b).
Proof.
  unfold py_max. destruct (Qle_bool b a) eqn:H.
  - left. split; [reflexivity|now apply Qle_bool_iff].
  - right. split; [reflexivity|]. apply Qnot_le_lt. intros Hle.
    apply Qle_bool_iff in Hle. congruence.
Qed.

Lemma badge_size (c : pystr) :
  (len c <= 79)%Z ->
  (0 <= len c * font_size_for c 16 <= 711)%Z /\
  (9 <= font_size_for c 16 <= 16)%Z.
Proof.
  intros H. assert (0 <= len c)%Z by (unfold len; lia).
  unfold font_size_for.
  repeat match goal with
         | |- context [if ?b then _ else _] => destruct b eqn:?
         end; lia.
Qed.

Lemma inject_Z_range (z a b : Z) :
  (a <= z <= b)%Z -> inject_Z a <= inject_Z z /\ inject_Z z <= inject_Z b.
Proof. intros [H1 H2]. split; now rewrite <- Zle_Qle. Qed.

(** An inner cell whose letter has at most 79 characters stays in a box of
    597.7 x 102 around its center. *)
Lemma within_inner cx cy e base :
  bits base <> [] ->
  (len (field abc (e !! base)) <= 79)%Z ->
  exists out,
    draw_inner_chord_cell cx cy e base = Ok out /\
    Forall (within (cx - 298.85) (cy - 51) (cx + 298.85) (cy + 51)) out.
Proof.
  intros Hb Hlen. unfold draw_inner_chord_cell. cbv zeta.
  destruct (sorted (List.map KROW (bits base))) as [|r0 rest] eqn:Hs.
  { exfalso. revert Hs. apply sorted_nonempty.
    destruct (bits base); [congruence|discriminate]. }
  destruct (pressed_rows_range base r0 rest Hs) as [Hr0 Hr1].
  apply inject_Z_range in Hr0 as [Hr0 Hr0'], Hr1 as [Hr1 Hr1'].
  set (r1 := List.last (r0 :: rest) r0) in *.
  assert (Hbadge : exists badge,
    inner_badge (cx - (2 * 42 + 14) / 2) (cy - (3 * 30 + 2 * 6) / 2)
                42 30 14 6 e base r0 r1 = Ok badge /\
    Forall (within (cx - 298.85) (cy - 51) (cx + 298.85) (cy + 51)) badge).
  { unfold inner_badge. cbv zeta.
    destruct (truthy _); [|exists []; split; [reflexivity|constructor]].
    destruct (set_first (bits base)) as [k0|] eqn:Hk;
      [|exfalso; revert Hk; now apply set_first_some].
    eexists. split; [reflexivity|].
    destruct (badge_size _ Hlen) as [Hp Hf].
    apply inject_Z_range in Hp as [Hp Hp'].
    assert (Hh : (17 <= font_size_for (field abc (e !! base)) 16 + 8 <= 24)%Z)
      by lia.
    apply inject_Z_range in Hh as [Hh Hh'].
    pose proof (KCOL_range k0) as Hc. apply inject_Z_range in Hc as [Hc Hc'].
    set (fs := font_size_for (field abc (e !! base)) 16) in *.
    set (P := inject_Z (len (field abc (e !! base)) * fs)) in *.
    set (H8 := inject_Z (fs + 8)) in *.
    set (c := inject_Z (KCOL k0)) in *.
    set (q0 := inject_Z r0) in *. set (q1 := inject_Z r1) in *.
    destruct (py_max_cases (42 - 2) (P * 0.7 + 8)) as [[-> Hm]|[-> Hm]];
    destruct (r1 - r0 >? 1)%Z, (subset (bits base) LEFT);
      (apply List.Forall_app; split;
       [apply within_rect|
        apply List.Forall_app; split;
        [apply within_text|apply within_num_symb]]);
      unfold inject_Z in *; qlra. }
  destruct Hbadge as (badge & -> & HB). cbn [bind].
  eexists. split; [reflexivity|].
  apply List.Forall_app; split; [|apply List.Forall_app; split].
  - eapply Forall_within_weaken; [| | | |apply within_6keys]; qlra.
  - exact HB.
  - unfold inner_ext_annotations.
    apply List.Forall_flat_map, List.Forall_forall. intros key Hin.
    destruct (inner_ext_data e base key) as [[[ch n] s]|]; [|constructor].
    cbv zeta.
    pose proof (KCOL_range key) as Hc. apply inject_Z_range in Hc as [Hc Hc'].
    pose proof (KROW_range key) as Hr. apply inject_Z_range in Hr as [Hr Hr'].
    set (c := inject_Z (KCOL key)) in *. set (r := inject_Z (KROW key)) in *.
    destruct (key_in key LEFT); apply within_num_symb;
      unfold inject_Z in *; qlra.
Qed.

(** A comparison of two closed numbers, by evaluation. *)
Ltac qdec := apply Qle_bool_imp_le; vm_compute; reflexivity.

(** A cell whose box lies in the canvas. *)
Ltac in_box lemma :=
  eapply Forall_within_weaken; [| | | |apply lemma]; try qdec.

Lemma in_canvas_center e : Forall in_canvas (center_section e).
Proof.
  unfold center_section. cbv zeta. apply List.Forall_app; split.
  - apply within_comment.
  - in_box within_center.
Qed.

Lemma in_canvas_inner e :
  Forall (fun '(_, _, chord) => (len (field abc (e !! chord)) <= 79)%Z)
         inner_chords ->
  exists out, inner_section e = Ok out /\ Forall in_canvas out.
Proof.
  intros H. rewrite List.Forall_forall in H.
  destruct (for_each_rel inner_chords
    (fun '(row, col, chord) =>
       let icx := main_box_x + ix col_x col + ix col_w col / 2 in
       let icy := main_box_y + ix row_y row + ix row_h row / 2 in
       bind (draw_inner_chord_cell icx icy e chord) (fun cell =>
         Ok (svg_comment (lit "Inner chord: " ++ chord_label chord) ++ cell)))
    (fun _ => Ok [])
    (fun o _ => Forall in_canvas o)) as (o & o' & Ho & _ & Hc).
  - constructor.
  - intros a b _ _ Ha Hb. apply List.Forall_app. now split.
  - intros [[row col] chord] Hin. specialize (H _ Hin). cbv beta iota in H.
    unfold inner_chords in Hin.
    repeat (destruct Hin as [Hin|Hin];
      [injection Hin as <- <- <-; cbv zeta;
       match goal with
       | |- context [draw_inner_chord_cell ?x ?y e ?c] =>
           destruct (within_inner x y e c) as (out & Ho & Hw);
           [discriminate|exact H|]
       end;
       rewrite Ho; cbn [bind];
       do 2 eexists; split; [reflexivity|split; [reflexivity|]];
       apply List.Forall_app; split; [apply within_comment|];
       revert Hw; apply Forall_within_weaken; qdec|]).
    destruct Hin.
  - exists o. split; [exact Ho|exact Hc].
Qed.

Lemma in_canvas_outer_left e :
  Forall in_canvas
    (outer_section e outer_left_x (lit "Left outer: ") left_outer).
Proof.
  unfold outer_section. apply List.Forall_flat_map, List.Forall_forall.
  intros [[row col] chord] Hin. cbv zeta.
  apply List.Forall_app; split; [apply within_comment|].
  unfold left_outer in Hin.
  repeat (destruct Hin as [Hin|Hin];
    [injection Hin as <- <- <-; in_box within_outer|]).
  destruct Hin.
Qed.

Lemma in_canvas_outer_right e :
  Forall in_canvas
    (outer_section e outer_right_x (lit "Right outer: ") right_outer).
Proof.
  unfold outer_section. apply List.Forall_flat_map, List.Forall_forall.
  intros [[row col] chord] Hin. cbv zeta.
  apply List.Forall_app; split; [apply within_comment|].
  unfold right_outer in Hin.
  repeat (destruct Hin as [Hin|Hin];
    [injection Hin as <- <- <-; in_box within_outer|]).
  destruct Hin.
Qed.

Lemma in_canvas_directions e : Forall in_canvas (directions_section e).
Proof.
  unfold directions_section.
  apply List.Forall_app; split; [apply within_comment|].
  apply List.Forall_app; split; [|apply List.Forall_app; split].
  - apply List.Forall_flat_map, List.Forall_forall.
    intros [[row col] chord] Hin. cbv zeta. unfold dir_chords in Hin.
    repeat (destruct Hin as [Hin|Hin];
      [injection Hin as <- <- <-; in_box within_direction|]).
    destruct Hin.
  - in_box within_direction.
  - in_box within_direction.
Qed.

Lemma in_canvas_modes e : Forall in_canvas (modes_section e).
Proof.
  unfold modes_section.
  apply List.Forall_app; split; [apply within_comment|].
  apply List.Forall_flat_map, List.Forall_forall.
  intros [i [chord label]] Hin. cbv zeta.
  unfold modes, enumerate in Hin. cbn in Hin.
  repeat (destruct Hin as [Hin|Hin];
    [injection Hin as <- <- <-; in_box within_mode|]).
  destruct Hin.
Qed.

Lemma in_canvas_control e : Forall in_canvas (control_section e).
Proof.
  unfold control_section.
  apply List.Forall_app; split; [apply within_comment|].
  apply List.Forall_app; split; [apply within_text; qdec|].
  apply List.Forall_flat_map, List.Forall_forall.
  intros [i [chord label]] Hin. cbv zeta.
  unfold ctrl_chords, enumerate in Hin. cbn in Hin.
  repeat (destruct Hin as [Hin|Hin];
    [injection Hin as <- <- <-; in_box within_control|]).
  destruct Hin.
Qed.

Lemma in_canvas_b_true (p : prim) : in_canvas p -> in_canvas_b p = true.
Proof.
  destruct p; simpl; try reflexivity; intros (H1 & H2 & H3 & H4);
    rewrite !andb_true_iff, !Qle_bool_iff; tauto.
Qed.

(** C5 as stated fails: with a letter of 81 characters on the chord AC the
    badge is 518.3 wide around x = 257, and its rectangle starts left of the
    canvas. *)
Lemma canvas_overflow_long_letter :
  ~ (forall (entries : gmap Z Entry) (layout_id layout_name variant : pystr)
            (parts : list prim),
        generate_svg_parts (Some layout_id) (Some layout_name) entries variant
          = Ok parts ->
        Forall in_canvas parts).
Proof.
  intros H.
  destruct (parts_frames [] [] [] [] [] [] ex_long ex_long)
    as (parts & _ & Hp & _ & _).
  specialize (H ex_long [] [] [] parts Hp).
  assert (Hb : List.forallb in_canvas_b parts = true).
  { apply forallb_forall. rewrite List.Forall_forall in H.
    intros p Hin. apply in_canvas_b_true, H, Hin. }
  vm_compute in Hp. injection Hp as <-.
  vm_compute in Hb. discriminate Hb.
Qed.

(** C5, amended. For every layout table in which the letters of the six
    inner base chords resolve to at most 79 characters, whatever entries are
    present and whatever the other values are, [generate_svg] succeeds and
    every primitive it emits has its coordinates within the canvas
    [0, 1177] x [0, 834]. *)
Theorem canvas_bounds (layout_id layout_name variant : pystr)
    (entries : gmap Z Entry) :
  Forall (fun '(_, _, chord) =>
            (len (field abc (entries !! chord)) <= 79)%Z) inner_chords ->
  exists parts,
    generate_svg_parts (Some layout_id) (Some layout_name) entries variant
      = Ok parts /\
    Forall in_canvas parts.
Proof.
  intros H. unfold generate_svg_parts.
  destruct (title_ok layout_id layout_name variant) as (x & y & t & Ht).
  assert (Hxy : x = inject_Z total_w / 2 /\ y = 30).
  { revert Ht. unfold title_text, py_or.
    destruct (truthy layout_name), (truthy variant); cbn [bind];
      intros [= -> -> _]; split; reflexivity. }
  destruct Hxy as [-> ->]. rewrite Ht.
  destruct (in_canvas_inner entries H) as (inner & -> & Hin).
  cbn [bind]. eexists. split; [reflexivity|].
  apply List.Forall_app; split; [apply within_text; qdec|].
  apply List.Forall_app; split; [apply within_rect; qdec|].
  apply List.Forall_app; split; [apply in_canvas_center|].
  apply List.Forall_app; split; [exact Hin|].
  apply List.Forall_app; split; [apply in_canvas_outer_left|].
  apply List.Forall_app; split; [apply in_canvas_outer_right|].
  apply List.Forall_app; split; [apply in_canvas_directions|].
  apply List.Forall_app; split; [apply in_canvas_modes|].
  apply List.Forall_app; split; [|apply in_canvas_control].
  unfold section_labels. cbv zeta.
  apply List.Forall_app; split; apply within_text; qdec.
Qed.


Lemma canvas_bounds_witness :
  exists parts,
    generate_svg_parts (Some (lit "en")) (Some (lit "English")) ex_ab
                       (lit "Standard") = Ok parts /\
    Forall in_canvas parts.
Proof.
  apply canvas_bounds. unfold inner_chords, ex_ab.
  repeat constructor; vm_compute; discriminate.
Defined.

(** ** The title *)

(** A layout without id and without name makes [title += ...] raise: the
    properties of [generate_svg] below are stated for layouts whose id and
    name are strings. *)
Lemma title_of_nameless_layout_raises (entries : gmap Z Entry) :
  generate_svg_parts None None entries (lit "Standard") = Raise TypeError.
Proof. reflexivity. Qed.

(** ** Cells of absent chords *)

Lemma truthy_nonempty (s : pystr) : truthy s = true -> s <> [].
Proof. destruct s; [discriminate|discriminate]. Qed.

Lemma shows_field (e : gmap Z Entry) (chords : list Z) (labels : list pystr)
    (c : Z) (f : Entry -> pystr) :
  In c chords ->
  (forall en, f en = abc en \/ f en = num en \/ f en = symb en) ->
  truthy (field f (e !! c)) = true ->
  shows e chords labels (field f (e !! c)).
Proof.
  intros Hc Hf Ht. right. destruct (e !! c) as [en|] eqn:He;
    [|discriminate Ht].
  exists c, en. split; [exact Hc|]. split; [exact He|].
  split; [now apply truthy_nonempty|]. simpl.
  destruct (Hf en) as [->|[->| ->]]; tauto.
Qed.

Lemma text_from_draw_key e chords labels x y w h c p fs tf d :
  (truthy c = true -> shows e chords labels c) ->
  Forall (text_from e chords labels) (draw_key x y w h c p fs tf d).
Proof.
  intros H. unfold draw_key, svg_rect, svg_text.
  apply List.Forall_app; split.
  - destruct p, d; (constructor; [exact I|constructor]).
  - destruct (truthy c); [|constructor].
    constructor; [exact (H eq_refl)|constructor].
Qed.

Lemma text_from_num_symb e chords labels x y1 y2 n s anchor ns ss :
  (truthy n = true -> shows e chords labels n) ->
  (truthy s = true -> shows e chords labels s) ->
  Forall (text_from e chords labels)
         (_draw_num_symb x y1 y2 n s anchor ns ss).
Proof.
  intros Hn Hs. unfold _draw_num_symb, svg_text.
  apply List.Forall_app; split.
  - destruct (truthy n); [|constructor].
    constructor; [exact (Hn eq_refl)|constructor].
  - destruct (truthy s); [|constructor].
    constructor; [exact (Hs eq_refl)|constructor].
Qed.

Lemma text_from_6keys e chords labels ox oy kw kh gx gy key_info :
  (forall info, In info key_info ->
     truthy (ki_char info) = true -> shows e chords labels (ki_char info)) ->
  Forall (text_from e chords labels)
         (draw_6keys ox oy kw kh gx gy key_info).
Proof.
  intros H. apply draw_6keys_Forall. intros x y info Hin.
  apply text_from_draw_key. now apply H.
Qed.

Lemma text_from_mini e chords labels ox oy kw kh gx gy chord fs :
  Forall (text_from e chords labels)
         (draw_6keys ox oy kw kh gx gy (mini_key_info chord fs)).
Proof.
  apply text_from_6keys. intros info Hin.
  unfold mini_key_info in Hin. apply in_map_iff in Hin as (k & <- & _).
  discriminate.
Qed.

Lemma text_from_if e chords labels (b : bool) (l : list prim) :
  (b = true -> Forall (text_from e chords labels) l) ->
  Forall (text_from e chords labels) (if b then l else []).
Proof. destruct b; [auto|intros _; constructor]. Qed.

Ltac field_shown :=
  apply shows_field; [now left|intros; tauto|assumption].

Lemma text_from_outer e cx cy chord w h :
  Forall (text_from e [chord] [])
         (draw_outer_chord_cell cx cy e chord w h).
Proof.
  unfold draw_outer_chord_cell. cbv zeta.
  apply List.Forall_app; split; [constructor; [exact I|constructor]|].
  apply List.Forall_app; split;
    [apply text_from_if; intros Ht; constructor; [field_shown|constructor]|].
  apply List.Forall_app; split; [apply text_from_mini|].
  apply text_from_num_symb; intros Ht; field_shown.
Qed.

Lemma text_from_direction e cx cy chord w h :
  Forall (text_from e [chord] [])
         (draw_direction_cell cx cy e chord w h).
Proof.
  unfold draw_direction_cell. cbv zeta.
  apply List.Forall_app; split; [constructor; [exact I|constructor]|].
  apply List.Forall_app; split; [apply text_from_mini|].
  apply List.Forall_app; split;
    [apply text_from_if; intros Ht; constructor; [field_shown|constructor]|].
  apply text_from_num_symb; intros Ht; field_shown.
Qed.

Lemma text_from_mode e cx cy chord label w h :
  Forall (text_from e [chord] [label])
         (draw_mode_cell cx cy e chord label w h).
Proof.
  unfold draw_mode_cell. cbv zeta.
  apply List.Forall_app; split; [constructor; [exact I|constructor]|].
  apply List.Forall_app; split; [apply text_from_mini|].
  apply List.Forall_app; split;
    [constructor; [left; now left|constructor]|].
  apply text_from_num_symb; intros Ht; field_shown.
Qed.

Lemma text_from_control e cx cy chord label w h :
  Forall (text_from e [chord] [label])
         (draw_control_cell cx cy e chord label w h).
Proof.
  unfold draw_control_cell. cbv zeta.
  apply List.Forall_app; split; [constructor; [exact I|constructor]|].
  apply List.Forall_app; split; [apply text_from_mini|].
  apply List.Forall_app; split;
    [constructor; [left; now left|constructor]|].
  apply text_from_num_symb; intros Ht; field_shown.
Qed.












(** * Further properties of the code *)

Local Open Scope Z_scope.

(** ** More on the key and chord algebra *)

Lemma land_63_key (k : Z) : In k KEYS -> Z.land 63 k = k.
Proof.
  unfold KEYS, A, B, C, D, E, F. simpl.
  intros [<-|[<-|[<-|[<-|[<-|[<-|[]]]]]]]; reflexivity.
Qed.

Lemma bits_low (mask : Z) : bits mask = bits (Z.land mask 63).
Proof.
  unfold bits. apply filter_ext_in. intros k Hk.
  now rewrite <- Z.land_assoc, (land_63_key k Hk).
Qed.

Lemma land_63_range (mask : Z) : 0 <= Z.land mask 63 <= 63.
Proof.
  change 63 with (Z.ones 6) at 1 2. rewrite Z.land_ones by lia.
  pose proof (Z.mod_pos_bound mask (2 ^ 6)). lia.
Qed.

Lemma low_chord_range (mask : Z) :
  0 <= mask <= 63 -> In mask (List.map Z.of_nat (List.seq 0 64)).
Proof.
  intros H. apply in_map_iff. exists (Z.to_nat mask). split; [lia|].
  apply in_seq. lia.
Qed.

Lemma union_bits_low_table :
  List.forallb (fun m => union (bits m) =? m)
               (List.map Z.of_nat (List.seq 0 64)) = true.
Proof. vm_compute. reflexivity. Qed.

Lemma union_bits_low (mask : Z) : union (bits mask) = Z.land mask 63.
Proof.
  rewrite bits_low. pose proof union_bits_low_table as T.
  rewrite forallb_forall in T.
  apply Z.eqb_eq, T, low_chord_range, land_63_range.
Qed.

Lemma bits_nil_iff (mask : Z) : bits mask = [] <-> Z.land mask 63 = 0.
Proof.
  split; intros H.
  - rewrite <- union_bits_low, H. reflexivity.
  - rewrite bits_low, H. reflexivity.
Qed.

(** X1. [bits] looks at the six low bits of its argument only: a mask and
    its remainder modulo 64 give the same keys, the union of the keys is that
    remainder, and no key is listed exactly when the remainder is 0 (so for
    64, or for a negative multiple of 64, as for 0). *)
Theorem bits_only_six_keys (mask : Z) :
  bits mask = bits (Z.land mask 63) /\
  union (bits mask) = Z.land mask 63 /\
  (bits mask = [] <-> Z.land mask 63 = 0).
Proof.
  split; [apply bits_low|]. split; [apply union_bits_low|apply bits_nil_iff].
Qed.

Lemma label_table :
  List.forallb
    (fun a => List.forallb
       (fun b => implb (bool_decide (chord_label a = chord_label b)) (a =? b))
       (List.map Z.of_nat (List.seq 0 64)))
    (List.map Z.of_nat (List.seq 0 64)) = true.
Proof. vm_compute. reflexivity. Qed.

(** X2. Two masks have the same label exactly when they agree on the six
    key bits: the label names the chord.  The label has one letter for each
    key of the chord. *)
Theorem chord_label_injective (a b : Z) :
  (chord_label a = chord_label b <-> Z.land a 63 = Z.land b 63) /\
  len (chord_label a) = Z.of_nat (List.length (bits a)).
Proof.
  split.
  - assert (Ha : chord_label a = chord_label (Z.land a 63))
      by (unfold chord_label; now rewrite bits_low).
    assert (Hb : chord_label b = chord_label (Z.land b 63))
      by (unfold chord_label; now rewrite bits_low).
    split.
    + intros H. rewrite Ha, Hb in H.
      pose proof label_table as T. rewrite forallb_forall in T.
      specialize (T _ (low_chord_range _ (land_63_range a))).
      rewrite forallb_forall in T.
      specialize (T _ (low_chord_range _ (land_63_range b))).
      rewrite (bool_decide_eq_true_2 _ H) in T. now apply Z.eqb_eq.
    + intros H. now rewrite Ha, Hb, H.
  - unfold chord_label, len. f_equal.
    assert (H : forall l, Forall (fun k => In k KEYS) l ->
              List.length (List.concat (List.map KNAME l)) = List.length l).
    { induction 1 as [|k l Hk _ IH]; [reflexivity|].
      cbn [List.map List.concat]. rewrite List.length_app, IH.
      unfold KEYS, A, B, C, D, E, F in Hk. simpl in Hk.
      destruct Hk as [<-|[<-|[<-|[<-|[<-|[<-|[]]]]]]]; reflexivity. }
    apply H. apply List.Forall_forall. intros k Hk.
    unfold bits in Hk. now apply filter_In in Hk.
Qed.

Local Open Scope Z_scope.

(** ** More on the display value resolver *)

Lemma rstrip_length (s : pystr) : len (rstrip s) <= len s.
Proof.
  destruct (rstrip_spec s) as (ws & Heq & _).
  unfold len. rewrite Heq at 2. rewrite List.length_app. lia.
Qed.

Lemma rstrip_spaces (s : pystr) :
  List.forallb isspace s = true -> rstrip s = [].
Proof.
  induction s as [|c r IH]; [reflexivity|]. simpl.
  intros H. apply andb_true_iff in H as [Hc Hr].
  now rewrite (IH Hr), Hc.
Qed.

Lemma rstrip_fixed (s : pystr) :
  (forall p c, s = p ++ [c] -> isspace c = false) -> rstrip s = s.
Proof.
  induction s as [|c r IH]; [reflexivity|]. intros H. simpl.
  destruct r as [|d r'].
  - simpl. now rewrite (H [] c eq_refl).
  - rewrite IH.
    + reflexivity.
    + intros p c0 Hp. apply (H (c :: p) c0). now rewrite Hp.
Qed.

Lemma action_table_facts :
  List.forallb
    (fun '(k, g) =>
       (Z.of_nat (List.length g) <=? Z.of_nat (List.length k))
       && truthy g && truthy k
       && bool_decide (rstrip g = g)
       && negb (List.forallb isspace k))
    _ACTION = true.
Proof. vm_compute. reflexivity. Qed.

Lemma action_facts (k g : pystr) :
  In (k, g) _ACTION ->
  len g <= len k /\ g <> [] /\ k <> [] /\ rstrip g = g /\
  List.forallb isspace k = false.
Proof.
  intros H. pose proof action_table_facts as T.
  rewrite forallb_forall in T. specialize (T _ H). cbv beta iota in T.
  rewrite !andb_true_iff in T. destruct T as [[[[T1 T2] T3] T4] T5].
  repeat split.
  - unfold len. lia.
  - destruct g; [discriminate|discriminate].
  - destruct k; [discriminate|discriminate].
  - now apply bool_decide_eq_true in T4.
  - now apply negb_true_iff.
Qed.

(** X3. [disp] never returns a longer string than it was given, its result
    has no trailing whitespace (a second right-strip changes nothing), and
    the result is empty exactly for the strings made of whitespace only, the
    empty string included. *)
Theorem disp_never_longer (v : pystr) :
  len (disp v) <= len v /\
  rstrip (disp v) = disp v /\
  (disp v = [] <-> List.forallb isspace v = true).
Proof.
  unfold disp. destruct v as [|c v]; [repeat split; reflexivity || lia|].
  cbn [truthy negb].
  destruct (dict_get _ACTION (c :: v)) as [g|] eqn:Hg.
  - apply dict_get_In, action_facts in Hg as (Hl & Hn & _ & Hr & Hs).
    split; [exact Hl|]. split; [exact Hr|]. split.
    + intros H. contradiction.
    + intros H. congruence.
  - split; [apply rstrip_length|]. split; [|split].
    + apply rstrip_fixed. destruct (rstrip_spec (c :: v)) as (ws & _ & _ & H).
      exact H.
    + apply rstrip_nil_iff.
    + apply rstrip_spaces.
Qed.

(** ** Exceptions of the inner cell and of the assembly *)

(** X4. [draw_inner_chord_cell] raises [IndexError] (from [rows[0]]) for
    a base chord without any of the six keys, whatever the table, and
    otherwise returns. *)
Theorem inner_cell_index_error (cx cy : Q) (entries : gmap Z Entry)
    (base_chord : Z) :
  (Z.land base_chord 63 = 0 ->
   draw_inner_chord_cell cx cy entries base_chord = Raise IndexError) /\
  (Z.land base_chord 63 <> 0 ->
   exists out, draw_inner_chord_cell cx cy entries base_chord = Ok out).
Proof.
  split; intros H.
  - unfold draw_inner_chord_cell. rewrite bits_low, H. reflexivity.
  - destruct (inner_ok cx cy entries base_chord) as (out & Ho & _).
    + intros Hb. apply H. now apply bits_nil_iff.
    + exists out. exact Ho.
Qed.

Lemma inner_cell_index_error_witness :
  draw_inner_chord_cell 100 100 ex_t 64 = Raise IndexError /\
  exists out, draw_inner_chord_cell 100 100 ex_t 3 = Ok out.
Proof.
  split.
  - apply (proj1 (inner_cell_index_error 100 100 ex_t 64)). reflexivity.
  - apply (proj2 (inner_cell_index_error 100 100 ex_t 3)). discriminate.
Defined.

Lemma svg_outcome
    (fmt_1f repr_float : Q -> pystr) (layout_id layout_name : option pystr)
    (entries : gmap Z Entry) (variant : pystr) :
  (variant <> [] -> layout_id = None ->
   layout_name = None \/ layout_name = Some [] ->
   generate_svg fmt_1f repr_float layout_id layout_name entries variant
     = Raise TypeError) /\
  (variant = [] \/ layout_id <> None \/
   (layout_name <> None /\ layout_name <> Some []) ->
   exists parts,
     generate_svg fmt_1f repr_float layout_id layout_name entries variant
       = Ok (Svg_build fmt_1f repr_float parts total_w total_h)).
Proof.
  unfold generate_svg, generate_svg_parts, title_text, py_or.
  destruct (inner_section_frames entries entries) as (inner & _ & Hi & _ & _).
  rewrite Hi. split.
  - intros Hv -> [-> | ->]; destruct variant; try congruence; reflexivity.
  - intros Hn.
    destruct layout_name as [[|c s]|], layout_id as [i|], variant as [|d v];
      cbn [truthy bind];
      try (eexists; reflexivity);
      exfalso; destruct Hn as [Hn|[Hn|[Hn Hn']]];
      first [congruence | now apply Hn' | now apply Hn].
Qed.

(** X5. [generate_svg] raises [TypeError] exactly when a non-empty variant
    is given for a layout that has no id and whose name is missing or empty
    (the title is then [None], to which the variant cannot be appended).  In
    every other case it returns the document built from the primitives, for
    the canvas of 1177 by 834. *)
Theorem generate_svg_type_error
    (fmt_1f repr_float : Q -> pystr) (layout_id layout_name : option pystr)
    (entries : gmap Z Entry) (variant : pystr) :
  let nameless :=
    variant <> [] /\ layout_id = None /\
    (layout_name = None \/ layout_name = Some []) in
  (nameless ->
   generate_svg fmt_1f repr_float layout_id layout_name entries variant
     = Raise TypeError) /\
  (~ nameless ->
   exists parts,
     generate_svg fmt_1f repr_float layout_id layout_name entries variant
       = Ok (Svg_build fmt_1f repr_float parts total_w total_h)).
Proof.
  intros nameless. subst nameless.
  destruct (svg_outcome fmt_1f repr_float layout_id layout_name entries
              variant) as [Hr Ho].
  split.
  - intros (Hv & Hi & Hn). now apply Hr.
  - intros Hn. apply Ho.
    destruct variant as [|c v]; [now left|right].
    destruct layout_id as [i|]; [left; discriminate|right].
    destruct layout_name as [[|c' s]|].
    + exfalso. apply Hn. repeat split; [discriminate|now right].
    + split; discriminate.
    + exfalso. apply Hn. repeat split; [discriminate|now left].
Qed.

Lemma generate_svg_type_error_witness :
  generate_svg (fun _ => []) (fun _ => []) None (Some []) ex_t
    (lit "Standard") = Raise TypeError /\
  exists parts,
    generate_svg (fun _ => []) (fun _ => []) None (Some []) ex_t []
      = Ok (Svg_build (fun _ => []) (fun _ => []) parts total_w total_h).
Proof.
  split.
  - apply (proj1 (generate_svg_type_error (fun _ => []) (fun _ => []) None
                    (Some []) ex_t (lit "Standard"))).
    split; [discriminate|]. split; [reflexivity|]. right. reflexivity.
  - apply (proj2 (generate_svg_type_error (fun _ => []) (fun _ => []) None
                    (Some []) ex_t [])).
    intros [H _]. now apply H.
Defined.

Local Open Scope Z_scope.

(** ** Badges and font sizes of a diagram *)

Lemma font_size_for_range (c : pystr) (b : Z) :
  13 <= b <= 24 -> 7 <= font_size_for c b <= 24.
Proof.
  intros H. unfold font_size_for.
  repeat match goal with
         | |- context [if ?x then _ else _] => destruct x
         end; lia.
Qed.

Lemma tidy_part_ok (l : list prim) : Forall tidy l -> Forall part_ok l.
Proof.
  apply List.Forall_impl. intros p. destruct p; simpl; auto.
Qed.

Lemma tidy_no_badge (l : list prim) :
  Forall tidy l -> List.filter is_badge l = [].
Proof.
  induction 1 as [|p l Hp _ IH]; [reflexivity|].
  cbn [List.filter]. destruct p; simpl in *; try exact IH.
  now rewrite Hp.
Qed.

Lemma tidy_draw_key x y w h c p fs tf d :
  (truthy c = true -> 13 <= fs <= 24) ->
  Forall tidy (draw_key x y w h c p fs tf d).
Proof.
  intros H. unfold draw_key, svg_rect, svg_text.
  apply List.Forall_app; split.
  - destruct p, d; (constructor; [reflexivity|constructor]).
  - destruct (truthy c); [|constructor].
    constructor; [|constructor]. simpl. apply font_size_for_range. now apply H.
Qed.

Lemma tidy_6keys ox oy kw kh gx gy key_info :
  (forall info, In info key_info ->
     truthy (ki_char info) = true -> 13 <= ki_font_size info <= 24) ->
  Forall tidy (draw_6keys ox oy kw kh gx gy key_info).
Proof.
  intros H. apply draw_6keys_Forall. intros x y info Hin.
  apply tidy_draw_key. now apply H.
Qed.

Lemma tidy_mini ox oy kw kh gx gy chord fs :
  Forall tidy (draw_6keys ox oy kw kh gx gy (mini_key_info chord fs)).
Proof.
  apply tidy_6keys. intros info Hin.
  unfold mini_key_info in Hin. apply in_map_iff in Hin as (k & <- & _).
  discriminate.
Qed.

Lemma tidy_num_symb x y1 y2 n s anchor ns ss :
  7 <= ns <= 24 -> 7 <= ss <= 24 ->
  Forall tidy (_draw_num_symb x y1 y2 n s anchor ns ss).
Proof.
  intros Hn Hs. unfold _draw_num_symb, svg_text.
  apply List.Forall_app; split.
  - destruct (truthy n); constructor; [exact Hn|constructor].
  - destruct (truthy s); constructor; [exact Hs|constructor].
Qed.

Lemma tidy_char (c : pystr) x y b fill anchor weight :
  13 <= b <= 24 ->
  Forall tidy
    (if truthy c
     then svg_text x y c (font_size_for c b) fill anchor weight
     else []).
Proof.
  intros H. destruct (truthy c); constructor; [|constructor].
  simpl. now apply font_size_for_range.
Qed.

Lemma tidy_center cx cy e : Forall tidy (draw_center_cell cx cy e).
Proof.
  unfold draw_center_cell. cbv zeta. apply List.Forall_app; split.
  - apply tidy_6keys. intros info Hin.
    apply in_map_iff in Hin as (k & <- & _). simpl. lia.
  - apply List.Forall_flat_map, List.Forall_forall. intros k _.
    destruct (e !! k); [|constructor].
    destruct (key_in k LEFT); apply tidy_num_symb; lia.
Qed.

Lemma tidy_outer cx cy e chord w h :
  Forall tidy (draw_outer_chord_cell cx cy e chord w h).
Proof.
  unfold draw_outer_chord_cell. cbv zeta.
  apply List.Forall_app; split; [constructor; [reflexivity|constructor]|].
  apply List.Forall_app; split; [apply tidy_char; lia|].
  apply List.Forall_app; split; [apply tidy_mini|apply tidy_num_symb; lia].
Qed.

Lemma tidy_direction cx cy e chord w h :
  Forall tidy (draw_direction_cell cx cy e chord w h).
Proof.
  unfold draw_direction_cell. cbv zeta.
  apply List.Forall_app; split; [constructor; [reflexivity|constructor]|].
  apply List.Forall_app; split; [apply tidy_mini|].
  apply List.Forall_app; split; [apply tidy_char; lia|apply tidy_num_symb; lia].
Qed.

Lemma tidy_mode cx cy e chord label w h :
  Forall tidy (draw_mode_cell cx cy e chord label w h).
Proof.
  unfold draw_mode_cell. cbv zeta.
  apply List.Forall_app; split; [constructor; [reflexivity|constructor]|].
  apply List.Forall_app; split; [apply tidy_mini|].
  apply List.Forall_app; split;
    [constructor; [simpl; lia|constructor]|apply tidy_num_symb; lia].
Qed.

Lemma tidy_control cx cy e chord label w h :
  Forall tidy (draw_control_cell cx cy e chord label w h).
Proof.
  unfold draw_control_cell. cbv zeta.
  apply List.Forall_app; split; [constructor; [reflexivity|constructor]|].
  apply List.Forall_app; split; [apply tidy_mini|].
  apply List.Forall_app; split;
    [constructor; [simpl; lia|constructor]|apply tidy_num_symb; lia].
Qed.

Lemma tidy_inner_keys ox oy kw kh gx gy e base :
  Forall tidy (draw_6keys ox oy kw kh gx gy (inner_key_info e base)).
Proof.
  apply tidy_6keys. intros info Hin.
  unfold inner_key_info in Hin. apply in_map_iff in Hin as (k & <- & _).
  destruct (key_in k (bits base)); [discriminate|].
  destruct (inner_ext_data e base k) as [[[c n] s]|]; [|discriminate].
  simpl. lia.
Qed.

Lemma tidy_ext_annotations ox oy kw kh gx gy e base :
  Forall tidy (inner_ext_annotations ox oy kw kh gx gy e base).
Proof.
  unfold inner_ext_annotations.
  apply List.Forall_flat_map, List.Forall_forall. intros k _.
  destruct (inner_ext_data e base k) as [[[c n] s]|]; [|constructor].
  cbv zeta. destruct (key_in k LEFT); apply tidy_num_symb; lia.
Qed.

(** The badge block: one badge rectangle when the letter is non-empty, none
    otherwise, and texts of sizes 7 to 24. *)
Lemma inner_badge_count ox oy kw kh gx gy e base r0 r1 :
  bits base <> [] ->
  exists badge,
    inner_badge ox oy kw kh gx gy e base r0 r1 = Ok badge /\
    Forall part_ok badge /\
    List.length (List.filter is_badge badge) =
      (if truthy (field abc (e !! base)) then 1 else 0)%nat.
Proof.
  intros Hb. unfold inner_badge. cbv zeta.
  destruct (truthy (field abc (e !! base)));
    [|exists []; repeat split; constructor].
  destruct (set_first (bits base)) as [k0|] eqn:Hk;
    [|exfalso; revert Hk; now apply set_first_some].
  eexists. split; [reflexivity|]. split.
  - constructor; [exact I|]. constructor;
      [simpl; apply font_size_for_range; lia|].
    apply tidy_part_ok, tidy_num_symb; lia.
  - cbn [svg_rect svg_text app List.filter is_badge List.length].
    rewrite tidy_no_badge by (apply tidy_num_symb; lia). reflexivity.
Qed.

Lemma inner_count cx cy e base :
  bits base <> [] ->
  exists out,
    draw_inner_chord_cell cx cy e base = Ok out /\
    Forall part_ok out /\
    List.length (List.filter is_badge out) =
      (if truthy (field abc (e !! base)) then 1 else 0)%nat.
Proof.
  intros Hb. unfold draw_inner_chord_cell. cbv zeta.
  destruct (sorted (List.map KROW (bits base))) as [|r0 rest] eqn:Hs.
  { exfalso. revert Hs. apply sorted_nonempty.
    destruct (bits base); [congruence|discriminate]. }
  match goal with
  | |- context [inner_badge ?ox ?oy ?kw ?kh ?gx ?gy e base ?a ?b] =>
      destruct (inner_badge_count ox oy kw kh gx gy e base a b Hb)
        as (badge & -> & Hf & Hc)
  end.
  cbn [bind]. eexists. split; [reflexivity|]. split.
  - apply List.Forall_app; split; [apply tidy_part_ok, tidy_inner_keys|].
    apply List.Forall_app; split; [exact Hf|].
    apply tidy_part_ok, tidy_ext_annotations.
  - rewrite !List.filter_app, !List.length_app, Hc.
    rewrite (tidy_no_badge _ (tidy_inner_keys _ _ _ _ _ _ e base)).
    rewrite (tidy_no_badge _ (tidy_ext_annotations _ _ _ _ _ _ e base)).
    simpl. lia.
Qed.

Lemma for_each_badges {T : Type} (l : list T) (f : T -> result (list prim))
    (t : T -> bool) :
  (forall x, In x l ->
     exists o, f x = Ok o /\ Forall part_ok o /\
       List.length (List.filter is_badge o) = (if t x then 1 else 0)%nat) ->
  exists out, for_each l f = Ok out /\ Forall part_ok out /\
    List.length (List.filter is_badge out) = List.length (List.filter t l).
Proof.
  induction l as [|x l IH]; intros H.
  - exists []. repeat split. constructor.
  - destruct (H x (or_introl eq_refl)) as (o & Ho & Fo & Co).
    destruct IH as (r & Hr & Fr & Cr); [intros y Hy; apply H; now right|].
    exists (o ++ r). cbn [for_each]. rewrite Ho, Hr. cbn [bind].
    split; [reflexivity|]. split; [apply List.Forall_app; now split|].
    rewrite List.filter_app, List.length_app, Co, Cr.
    cbn [List.filter]. destruct (t x); reflexivity.
Qed.

Lemma inner_section_badges e :
  exists out, inner_section e = Ok out /\ Forall part_ok out /\
    List.length (List.filter is_badge out) =
    List.length (lettered_inner_chords e).
Proof.
  unfold inner_section, lettered_inner_chords. apply for_each_badges.
  intros [[row col] chord] Hin. apply inner_chords_pressed in Hin. cbv zeta.
  match goal with
  | |- context [draw_inner_chord_cell ?x ?y e chord] =>
      destruct (inner_count x y e chord Hin) as (o & -> & Hf & Hc)
  end.
  cbn [bind]. eexists. split; [reflexivity|]. split.
  - constructor; [exact I|exact Hf].
  - exact Hc.
Qed.

Lemma rects_frames_badges (l : list prim) :
  List.length (List.filter is_rect l) =
  (List.length (frame_geometry l) + List.length (List.filter is_badge l))%nat.
Proof.
  unfold frame_geometry. induction l as [|p l IH]; [reflexivity|].
  cbn [List.filter]. destruct p as [x y w h f s sw rx| | | |]; simpl;
    try exact IH.
  destruct sw as [[|q|q]|q]; simpl; lia.
Qed.

Lemma tidy_flat_map {T : Type} (f : T -> list prim) (l : list T) :
  (forall x, Forall tidy (f x)) -> Forall tidy (List.flat_map f l).
Proof.
  intros H. apply List.Forall_flat_map, List.Forall_forall. intros x _.
  apply H.
Qed.

Lemma frame_count (layout_id layout_name variant : pystr)
    (entries : gmap Z Entry) (parts : list prim) :
  generate_svg_parts (Some layout_id) (Some layout_name) entries variant
    = Ok parts ->
  List.length (frame_geometry parts) = 232%nat.
Proof.
  intros Hp.
  destruct (parts_frames layout_id layout_name variant [] [] [] entries ∅)
    as (parts' & blank & Hp' & Hb & Hg).
  rewrite Hp in Hp'. injection Hp' as <-.
  rewrite Hg. vm_compute in Hb. injection Hb as <-.
  vm_compute. reflexivity.
Qed.

(** X6. A diagram holds rectangles, comments and texts only (the groups of
    the builder are never used); every text has a font size from 7 to 24;
    there is one badge for each inner chord whose letter is non-empty; and
    the other rectangles are 232, for every layout table. *)
Theorem badges_and_font_sizes (layout_id layout_name variant : pystr)
    (entries : gmap Z Entry) :
  exists parts,
    generate_svg_parts (Some layout_id) (Some layout_name) entries variant
      = Ok parts /\
    Forall part_ok parts /\
    List.length (List.filter is_badge parts) =
      List.length (lettered_inner_chords entries) /\
    List.length (List.filter is_rect parts) =
      (232 + List.length (lettered_inner_chords entries))%nat.
Proof.
  pose proof (frame_count layout_id layout_name variant entries) as Hlen.
  revert Hlen. unfold generate_svg_parts.
  destruct (title_ok layout_id layout_name variant) as (x & y & t & ->).
  destruct (inner_section_badges entries) as (inner & -> & Hf & Hc).
  cbn [bind]. intros Hlen. specialize (Hlen _ eq_refl).
  eexists. split; [reflexivity|].
  assert (T1 : Forall tidy (svg_text x y t 22 "#222" "middle" "bold"))
    by (constructor; [simpl; lia|constructor]).
  assert (T2 : Forall tidy main_box)
    by (constructor; [reflexivity|constructor]).
  assert (T3 : Forall tidy (center_section entries)).
  { unfold center_section. cbv zeta.
    constructor; [reflexivity|apply tidy_center]. }
  assert (T4 : forall px n l, Forall tidy (outer_section entries px n l)).
  { intros px n l. unfold outer_section. apply tidy_flat_map.
    intros [[row col] chord]. cbv zeta.
    constructor; [reflexivity|apply tidy_outer]. }
  assert (T5 : Forall tidy (directions_section entries)).
  { unfold directions_section. constructor; [reflexivity|].
    apply List.Forall_app; split;
      [|apply List.Forall_app; split; apply tidy_direction].
    apply tidy_flat_map. intros [[row col] chord]. apply tidy_direction. }
  assert (T6 : Forall tidy (modes_section entries)).
  { unfold modes_section. constructor; [reflexivity|].
    apply tidy_flat_map. intros [i [chord label]]. apply tidy_mode. }
  assert (T7 : Forall tidy section_labels).
  { unfold section_labels. cbv zeta.
    constructor; [simpl; lia|constructor; [simpl; lia|constructor]]. }
  assert (T8 : Forall tidy (control_section entries)).
  { unfold control_section. constructor; [reflexivity|].
    constructor; [simpl; lia|].
    apply tidy_flat_map. intros [i [chord label]]. apply tidy_control. }
  assert (Hbadges :
    List.length (List.filter is_badge
     (svg_text x y t 22 "#222" "middle" "bold" ++ main_box ++
      center_section entries ++ inner ++
      outer_section entries outer_left_x (lit "Left outer: ") left_outer ++
      outer_section entries outer_right_x (lit "Right outer: ") right_outer ++
      directions_section entries ++ modes_section entries ++
      section_labels ++ control_section entries)) =
     List.length (lettered_inner_chords entries)).
  { rewrite !List.filter_app, !List.length_app, Hc.
    rewrite (tidy_no_badge _ T1), (tidy_no_badge _ T2),
      (tidy_no_badge _ T3), !(tidy_no_badge _ (T4 _ _ _)),
      (tidy_no_badge _ T5), (tidy_no_badge _ T6), (tidy_no_badge _ T7),
      (tidy_no_badge _ T8).
    simpl. lia. }
  split; [|split; [exact Hbadges|]].
  - apply List.Forall_app; split; [apply tidy_part_ok, T1|].
    apply List.Forall_app; split; [apply tidy_part_ok, T2|].
    apply List.Forall_app; split; [apply tidy_part_ok, T3|].
    apply List.Forall_app; split; [exact Hf|].
    apply List.Forall_app; split; [apply tidy_part_ok, T4|].
    apply List.Forall_app; split; [apply tidy_part_ok, T4|].
    apply List.Forall_app; split; [apply tidy_part_ok, T5|].
    apply List.Forall_app; split; [apply tidy_part_ok, T6|].
    apply List.Forall_app; split; [apply tidy_part_ok, T7|].
    apply tidy_part_ok, T8.
  - rewrite rects_frames_badges, Hlen, Hbadges. reflexivity.
Qed.

Local Open Scope Z_scope.

(** ** Chords that are never read *)

Lemma flat_map_ext_in {T U : Type} (f g : T -> list U) (l : list T) :
  (forall x, In x l -> f x = g x) -> List.flat_map f l = List.flat_map g l.
Proof.
  intros H. induction l as [|x l IH]; [reflexivity|].
  cbn [List.flat_map]. rewrite H by now left.
  rewrite IH; [reflexivity|]. intros y Hy. apply H. now right.
Qed.

Lemma for_each_ext_in {T : Type} (l : list T) (f g : T -> result (list prim)) :
  (forall x, In x l -> f x = g x) -> for_each l f = for_each l g.
Proof.
  intros H. induction l as [|x l IH]; [reflexivity|].
  cbn [for_each]. rewrite H by now left.
  rewrite IH; [reflexivity|]. intros y Hy. apply H. now right.
Qed.

Lemma center_reads e1 e2 cx cy :
  (forall k, In k KEYS -> e1 !! k = e2 !! k) ->
  draw_center_cell cx cy e1 = draw_center_cell cx cy e2.
Proof.
  intros H. unfold draw_center_cell. cbv zeta. f_equal.
  - f_equal. apply List.map_ext_in. intros k Hk. now rewrite (H k Hk).
  - apply flat_map_ext_in. intros k Hk. now rewrite (H k Hk).
Qed.

Lemma ext_data_reads e1 e2 base key :
  (forall k, In k (inner_ext_side (bits base)) ->
             e1 !! Z.lor base k = e2 !! Z.lor base k) ->
  inner_ext_data e1 base key = inner_ext_data e2 base key.
Proof.
  intros H. unfold inner_ext_data.
  destruct (key_in key (inner_ext_side (bits base))) eqn:Hk; [|reflexivity].
  apply key_in_In in Hk. now rewrite (H key Hk).
Qed.

Lemma inner_reads e1 e2 cx cy base :
  e1 !! base = e2 !! base ->
  (forall k, In k (inner_ext_side (bits base)) ->
             e1 !! Z.lor base k = e2 !! Z.lor base k) ->
  draw_inner_chord_cell cx cy e1 base = draw_inner_chord_cell cx cy e2 base.
Proof.
  intros Hb He. unfold draw_inner_chord_cell. cbv zeta.
  destruct (sorted (List.map KROW (bits base))) as [|r0 rest]; [reflexivity|].
  assert (Hk : inner_key_info e1 base = inner_key_info e2 base).
  { unfold inner_key_info. apply List.map_ext. intros k.
    now rewrite (ext_data_reads e1 e2 base k He). }
  assert (Ha : forall ox oy kw kh gx gy,
             inner_ext_annotations ox oy kw kh gx gy e1 base =
             inner_ext_annotations ox oy kw kh gx gy e2 base).
  { intros. unfold inner_ext_annotations. apply List.flat_map_ext. intros k.
    now rewrite (ext_data_reads e1 e2 base k He). }
  unfold inner_badge. rewrite Hb, Hk, Ha. reflexivity.
Qed.

Lemma outer_reads e1 e2 cx cy chord w h :
  e1 !! chord = e2 !! chord ->
  draw_outer_chord_cell cx cy e1 chord w h =
  draw_outer_chord_cell cx cy e2 chord w h.
Proof. intros H. unfold draw_outer_chord_cell. now rewrite H. Qed.

Lemma direction_reads e1 e2 cx cy chord w h :
  e1 !! chord = e2 !! chord ->
  draw_direction_cell cx cy e1 chord w h =
  draw_direction_cell cx cy e2 chord w h.
Proof. intros H. unfold draw_direction_cell. now rewrite H. Qed.

Lemma mode_reads e1 e2 cx cy chord label w h :
  e1 !! chord = e2 !! chord ->
  draw_mode_cell cx cy e1 chord label w h =
  draw_mode_cell cx cy e2 chord label w h.
Proof. intros H. unfold draw_mode_cell. now rewrite H. Qed.

Lemma control_reads e1 e2 cx cy chord label w h :
  e1 !! chord = e2 !! chord ->
  draw_control_cell cx cy e1 chord label w h =
  draw_control_cell cx cy e2 chord label w h.
Proof. intros H. unfold draw_control_cell. now rewrite H. Qed.

(** Membership in [displayed_chords], by evaluation. *)
Ltac displayed := apply key_in_In; vm_compute; reflexivity.

Lemma parts_reads layout_id layout_name e1 e2 variant :
  (forall c, In c displayed_chords -> e1 !! c = e2 !! c) ->
  generate_svg_parts layout_id layout_name e1 variant =
  generate_svg_parts layout_id layout_name e2 variant.
Proof.
  intros H. unfold generate_svg_parts.
  assert (Hi : inner_section e1 = inner_section e2).
  { unfold inner_section. apply for_each_ext_in.
    intros [[row col] chord] Hin. cbv zeta.
    rewrite (inner_reads e1 e2 _ _ chord); [reflexivity| |].
    - apply H. unfold displayed_chords. apply in_or_app. right.
      apply in_or_app. left. apply in_flat_map.
      exists (row, col, chord). split; [exact Hin|now left].
    - intros k Hk. apply H. unfold displayed_chords. apply in_or_app. right.
      apply in_or_app. left. apply in_flat_map.
      exists (row, col, chord). split; [exact Hin|]. right. now apply in_map. }
  assert (Hc : center_section e1 = center_section e2).
  { unfold center_section. cbv zeta.
    rewrite (center_reads e1 e2); [reflexivity|].
    intros k Hk. apply H. unfold displayed_chords. apply in_or_app. now left. }
  assert (Hl : outer_section e1 outer_left_x (lit "Left outer: ") left_outer
             = outer_section e2 outer_left_x (lit "Left outer: ") left_outer).
  { unfold outer_section. apply flat_map_ext_in.
    intros [[row col] chord] Hin. cbv zeta.
    rewrite (outer_reads e1 e2 _ _ chord); [reflexivity|]. apply H.
    unfold left_outer in Hin.
    repeat (destruct Hin as [Hin|Hin]; [injection Hin as <- <- <-; displayed|]).
    destruct Hin. }
  assert (Hr : outer_section e1 outer_right_x (lit "Right outer: ") right_outer
             = outer_section e2 outer_right_x (lit "Right outer: ") right_outer).
  { unfold outer_section. apply flat_map_ext_in.
    intros [[row col] chord] Hin. cbv zeta.
    rewrite (outer_reads e1 e2 _ _ chord); [reflexivity|]. apply H.
    unfold right_outer in Hin.
    repeat (destruct Hin as [Hin|Hin]; [injection Hin as <- <- <-; displayed|]).
    destruct Hin. }
  assert (Hd : directions_section e1 = directions_section e2).
  { unfold directions_section.
    rewrite !(direction_reads e1 e2 _ _ (Z.lor (Z.lor A B) C))
      by (apply H; displayed).
    rewrite !(direction_reads e1 e2 _ _ (Z.lor (Z.lor D E) F))
      by (apply H; displayed).
    do 2 f_equal. apply flat_map_ext_in.
    intros [[row col] chord] Hin. cbv zeta.
    apply direction_reads, H. unfold dir_chords in Hin.
    repeat (destruct Hin as [Hin|Hin]; [injection Hin as <- <- <-; displayed|]).
    destruct Hin. }
  assert (Hm : modes_section e1 = modes_section e2).
  { unfold modes_section. f_equal. apply flat_map_ext_in.
    intros [i [chord label]] Hin. cbv zeta.
    apply mode_reads, H. unfold modes, enumerate in Hin. cbn in Hin.
    repeat (destruct Hin as [Hin|Hin]; [injection Hin as <- <- <-; displayed|]).
    destruct Hin. }
  assert (Hk : control_section e1 = control_section e2).
  { unfold control_section. do 2 f_equal. apply flat_map_ext_in.
    intros [i [chord label]] Hin. cbv zeta.
    apply control_reads, H. unfold ctrl_chords, enumerate in Hin. cbn in Hin.
    repeat (destruct Hin as [Hin|Hin]; [injection Hin as <- <- <-; displayed|]).
    destruct Hin. }
  now rewrite Hi, Hc, Hl, Hr, Hd, Hm, Hk.
Qed.

Lemma displayed_table :
  List.forallb
    (fun c => Bool.eqb (key_in c displayed_chords)
                       (negb (key_in c [15; 23; 39; 57; 58; 60])))
    (List.map Z.of_nat (List.seq 1 63)) = true /\
  List.forallb (fun c => (1 <=? c) && (c <=? 63)) displayed_chords = true.
Proof. split; vm_compute; reflexivity. Qed.

Local Open Scope Z_scope.

(** ** Which keys are marked *)

Local Open Scope Q_scope.

Lemma combine_map_In {T U : Type} (f : T -> U) (l : list T) (x : T) :
  In x l -> In (x, f x) (List.combine l (List.map f l)).
Proof.
  induction l as [|y l IH]; [intros []|].
  intros [->|H]; [now left|right; now apply IH].
Qed.

Lemma key_rect_drawn x y w h c p fs tf d :
  In (key_rect x y w h p d) (draw_key x y w h c p fs tf d).
Proof.
  unfold draw_key, key_rect, svg_rect. apply in_or_app. left.
  destruct p, d; now left.
Qed.

Lemma draw_6keys_key_rect ox oy kw kh gx gy (f : Z -> KeyInfo) (key : Z) :
  In key KEYS ->
  In (key_rect (ox + inject_Z (KCOL key) * (kw + gx))
               (oy + inject_Z (KROW key) * (kh + gy)) kw kh
               (ki_pressed (f key)) (ki_dimmed (f key)))
     (draw_6keys ox oy kw kh gx gy (List.map f KEYS)).
Proof.
  intros Hk. unfold draw_6keys. apply in_flat_map.
  exists (key, f key). split; [now apply combine_map_In|].
  apply key_rect_drawn.
Qed.

Lemma key_in_bits (mask key : Z) :
  In key KEYS -> key_in key (bits mask) = has_key mask key.
Proof.
  intros Hk. unfold has_key.
  destruct (negb (Z.land mask key =? 0)) eqn:H.
  - apply key_in_In. unfold bits. apply filter_In. now split.
  - destruct (key_in key (bits mask)) eqn:Hin; [|reflexivity].
    apply key_in_In in Hin. unfold bits in Hin. apply filter_In in Hin.
    destruct Hin as [_ Hin]. congruence.
Qed.

Lemma mini_key_rect ox oy kw kh gx gy chord fs key :
  In key KEYS ->
  In (key_rect (ox + inject_Z (KCOL key) * (kw + gx))
               (oy + inject_Z (KROW key) * (kh + gy)) kw kh
               (has_key chord key) (negb (has_key chord key)))
     (draw_6keys ox oy kw kh gx gy (mini_key_info chord fs)).
Proof.
  intros Hk. rewrite <- (key_in_bits chord key Hk).
  unfold mini_key_info.
  apply (draw_6keys_key_rect ox oy kw kh gx gy
           (fun key => mkInfo [] (key_in key (bits chord)) fs None
                              (negb (key_in key (bits chord)))) key Hk).
Qed.

(** X8. The small keyboard of an outer, direction, mode or control cell
    draws each of the six keys at its column and row, black when the key
    belongs to the chord of the cell and dimmed grey when it does not. *)
Theorem mini_keyboard_marks_chord (cx cy : Q) (entries : gmap Z Entry)
    (chord key : Z) (label : pystr) (w h : Q) :
  In key KEYS ->
  let outer_key :=
    key_rect (cx - (2 * 20 + 5) / 2 + inject_Z (KCOL key) * (20 + 5))
             (cy - (3 * 15 + 2 * 3) / 2 - 2 + inject_Z (KROW key) * (15 + 3))
             20 15 (has_key chord key) (negb (has_key chord key)) in
  let small_key :=
    key_rect (cx - (2 * 16 + 4) / 2 + inject_Z (KCOL key) * (16 + 4))
             (cy - (3 * 12 + 2 * 2) / 2 + 6 + inject_Z (KROW key) * (12 + 2))
             16 12 (has_key chord key) (negb (has_key chord key)) in
  In outer_key (draw_outer_chord_cell cx cy entries chord w h) /\
  In small_key (draw_direction_cell cx cy entries chord w h) /\
  In small_key (draw_mode_cell cx cy entries chord label w h) /\
  In small_key (draw_control_cell cx cy entries chord label w h).
Proof.
  intros Hk outer_key small_key. subst outer_key small_key.
  unfold draw_outer_chord_cell, draw_direction_cell, draw_mode_cell,
    draw_control_cell. cbv zeta.
  repeat split.
  - apply in_or_app; right. apply in_or_app; right. apply in_or_app; left.
    now apply mini_key_rect.
  - apply in_or_app; right. apply in_or_app; left. now apply mini_key_rect.
  - apply in_or_app; right. apply in_or_app; left. now apply mini_key_rect.
  - apply in_or_app; right. apply in_or_app; left. now apply mini_key_rect.
Qed.

Lemma mini_keyboard_marks_chord_witness :
  In A KEYS /\
  In (key_rect (100 - (2 * 16 + 4) / 2 + inject_Z (KCOL A) * (16 + 4))
               (100 - (3 * 12 + 2 * 2) / 2 + 6 + inject_Z (KROW A) * (12 + 2))
               16 12 true false)
     (draw_direction_cell 100 100 ex_t 9 80 60) /\
  In (key_rect (100 - (2 * 20 + 5) / 2 + inject_Z (KCOL B) * (20 + 5))
               (100 - (3 * 15 + 2 * 3) / 2 - 2 + inject_Z (KROW B) * (15 + 3))
               20 15 false true)
     (draw_outer_chord_cell 100 100 ex_t 9 80 60).
Proof.
  assert (Ha : In A KEYS) by (left; reflexivity).
  assert (Hb : In B KEYS) by (right; left; reflexivity).
  split; [exact Ha|]. split.
  - exact (proj1 (proj2
             (mini_keyboard_marks_chord 100 100 ex_t 9 A [] 80 60 Ha))).
  - exact (proj1 (mini_keyboard_marks_chord 100 100 ex_t 9 B [] 80 60 Hb)).
Defined.

(** X9. In an inner cell each of the six keys is drawn at its column and
    row: black when it belongs to the base chord; white when it is on the
    side of the extensions and the table has an entry for the base chord
    with that key added; dimmed grey otherwise.  When the base chord lies on
    one hand, a free key of that hand is never an extension. *)
Theorem inner_keys_marked (cx cy : Q) (entries : gmap Z Entry)
    (base_chord key : Z) :
  In key KEYS -> Z.land base_chord 63 <> 0%Z ->
  let x := cx - (2 * 42 + 14) / 2 + inject_Z (KCOL key) * (42 + 14) in
  let y := cy - (3 * 30 + 2 * 6) / 2 + inject_Z (KROW key) * (30 + 6) in
  let extends :=
    key_in key (inner_ext_side (bits base_chord)) &&
    bool_decide (is_Some (entries !! Z.lor base_chord key)) in
  exists out,
    draw_inner_chord_cell cx cy entries base_chord = Ok out /\
    In (key_rect x y 42 30 (has_key base_chord key)
                 (negb (has_key base_chord key) && negb extends)) out /\
    (has_key base_chord key = false ->
     key_in key LEFT = subset (bits base_chord) LEFT ->
     extends = false).
Proof.
  intros Hk Hb x y extends.
  assert (Hbits : bits base_chord <> []) by (now rewrite bits_nil_iff).
  destruct (inner_ok cx cy entries base_chord Hbits) as (out & Ho & _).
  exists out. split; [exact Ho|]. split.
  - revert Ho. unfold draw_inner_chord_cell. cbv zeta.
    destruct (sorted (List.map KROW (bits base_chord))); [discriminate|].
    destruct (inner_badge _ _ _ _ _ _ _ _ _ _) as [badge|]; [|discriminate].
    cbn [bind]. intros [= <-]. apply in_or_app. left.
    pose proof (draw_6keys_key_rect (cx - (2 * 42 + 14) / 2)
      (cy - (3 * 30 + 2 * 6) / 2) 42 30 14 6
      (fun key =>
         if key_in key (bits base_chord) then mkInfo [] true 14 None false
         else match inner_ext_data entries base_chord key with
              | Some (c, _, _) => mkInfo c false 13 None false
              | None => mkInfo [] false 16 None true
              end) key Hk) as H.
    cbv beta in H. rewrite (key_in_bits base_chord key Hk) in H.
    subst x y extends. unfold inner_key_info.
    destruct (has_key base_chord key); [exact H|].
    unfold inner_ext_data in H.
    destruct (key_in key (inner_ext_side (bits base_chord)));
      [|exact H].
    destruct (entries !! Z.lor base_chord key) as [en|] eqn:He.
    + rewrite bool_decide_eq_true_2 by eauto. exact H.
    + rewrite bool_decide_eq_false_2 by (intros [? ?]; discriminate).
      exact H.
  - intros Hp Hside. subst extends.
    destruct (key_in key (inner_ext_side (bits base_chord))) eqn:He;
      [|reflexivity].
    exfalso. revert He. unfold inner_ext_side.
    unfold KEYS, A, B, C, D, E, F in Hk. simpl in Hk.
    destruct (subset (bits base_chord) LEFT) eqn:HL.
    + destruct Hk as [<-|[<-|[<-|[<-|[<-|[<-|[]]]]]]]; discriminate.
    + unfold subset in HL.
      destruct (subset (bits base_chord) RIGHT);
        destruct Hk as [<-|[<-|[<-|[<-|[<-|[<-|[]]]]]]]; discriminate.
Qed.

Lemma inner_keys_marked_witness :
  In D KEYS /\ Z.land 3 63 <> 0%Z /\
  exists out,
    draw_inner_chord_cell 100 100 ex_t 3 = Ok out /\
    In (key_rect (100 - (2 * 42 + 14) / 2 + inject_Z (KCOL D) * (42 + 14))
                 (100 - (3 * 30 + 2 * 6) / 2 + inject_Z (KROW D) * (30 + 6))
                 42 30 false true) out.
Proof.
  assert (Hd : In D KEYS) by (do 3 right; left; reflexivity).
  assert (Hb : Z.land 3 63 <> 0%Z) by discriminate.
  split; [exact Hd|]. split; [exact Hb|].
  destruct (inner_keys_marked 100 100 ex_t 3 D Hd Hb) as (out & Ho & Hi & _).
  exists out. split; [exact Ho|exact Hi].
Defined.

Local Open Scope Z_scope.

(** ** Escaping of text *)

Lemma unesc_plain (c : Z) (r : pystr) :
  c <> 38 -> unesc (c :: r) = c :: unesc r.
Proof.
  intros H. destruct c as [|p|p]; try reflexivity.
  do 6 (destruct p as [p|p|]; try reflexivity). congruence.
Qed.

Lemma unesc_esc (s : pystr) : unesc (esc s) = s.
Proof.
  induction s as [|c s IH]; [reflexivity|].
  unfold esc in *. cbn [List.flat_map].
  destruct (c =? 38) eqn:H38; [apply Z.eqb_eq in H38; subst; simpl; now rewrite IH|].
  destruct (c =? 60) eqn:H60; [apply Z.eqb_eq in H60; subst; simpl; now rewrite IH|].
  destruct (c =? 62) eqn:H62; [apply Z.eqb_eq in H62; subst; simpl; now rewrite IH|].
  destruct (c =? 34) eqn:H34; [apply Z.eqb_eq in H34; subst; simpl; now rewrite IH|].
  destruct (c =? 39) eqn:H39; [apply Z.eqb_eq in H39; subst; simpl; now rewrite IH|].
  cbn [app]. rewrite unesc_plain by (now apply Z.eqb_neq). now rewrite IH.
Qed.

(** X10. [esc] loses nothing (different texts have different escapes), its
    result holds no angle bracket and no quote, and it distributes over
    concatenation. *)
Theorem esc_lossless_and_safe (s t : pystr) :
  (esc s = esc t -> s = t) /\
  List.forallb (fun c => negb (is_markup c)) (esc s) = true /\
  esc (s ++ t) = esc s ++ esc t.
Proof.
  split; [|split].
  - intros H. rewrite <- (unesc_esc s), <- (unesc_esc t). now rewrite H.
  - unfold esc. induction s as [|c s IH]; [reflexivity|].
    cbn [List.flat_map]. rewrite List.forallb_app, IH, andb_true_r.
    unfold is_markup.
    destruct (c =? 38) eqn:H38; [reflexivity|].
    destruct (c =? 60) eqn:H60; [reflexivity|].
    destruct (c =? 62) eqn:H62; [reflexivity|].
    destruct (c =? 34) eqn:H34; [reflexivity|].
    destruct (c =? 39) eqn:H39; [reflexivity|].
    cbn [List.forallb]. now rewrite H60, H62, H34, H39.
  - unfold esc. apply List.flat_map_app.
Qed.

(** ** Frames and keys never overlap *)

(** X11. The frames and keys of a diagram (all rectangles but the badges)
    never overlap partly, for every layout table: of any two, one lies
    within the other or they share no interior point. *)
Theorem frames_never_overlap (layout_id layout_name variant : pystr)
    (entries : gmap Z Entry) :
  exists parts,
    generate_svg_parts (Some layout_id) (Some layout_name) entries variant
      = Ok parts /\
    laminar (frame_geometry parts) = true.
Proof.
  destruct (parts_frames layout_id layout_name variant [] [] [] entries ∅)
    as (parts & blank & Hp & Hb & Hg).
  exists parts. split; [exact Hp|].
  rewrite Hg. vm_compute in Hb. injection Hb as <-.
  vm_compute. reflexivity.
Qed.

Local Open Scope Z_scope.

(** ** Parsing a layout *)

Section ParseLayoutFacts.

Variable exc : Type.
Variable int : option pystr -> Z + exc.

Lemma find_app {T : Type} (p : T -> bool) (l1 l2 : list T) :
  List.find p (l1 ++ l2) =
  match List.find p l1 with
  | Some x => Some x
  | None => List.find p l2
  end.
Proof.
  induction l1 as [|x l1 IH]; [reflexivity|].
  simpl. destruct (p x); [reflexivity|exact IH].
Qed.

Lemma parse_entries_ok (els : list Element) (m : gmap Z Entry) :
  Forall (parses exc int) els ->
  exists m',
    parse_entries exc int els m = inl m' /\
    forall c,
      m' !! c =
      match List.find (chord_is exc int c) (List.rev els) with
      | Some el => Some (entry_of el)
      | None => m !! c
      end.
Proof.
  intros H. revert m. induction H as [|el els [ch Hch] _ IH]; intros m.
  - exists m. split; [reflexivity|]. intros c. reflexivity.
  - cbn [parse_entries]. rewrite Hch.
    destruct (IH (<[ch := entry_of el]> m)) as (m' & Hm & Hl).
    exists m'. split; [exact Hm|]. intros c. rewrite Hl.
    cbn [List.rev]. rewrite find_app.
    destruct (List.find (chord_is exc int c) (List.rev els)); [reflexivity|].
    cbn [List.find]. unfold chord_is at 1. rewrite Hch.
    destruct (ch =? c) eqn:Hc.
    + apply Z.eqb_eq in Hc. subst. apply lookup_insert_eq.
    + apply Z.eqb_neq in Hc. now rewrite lookup_insert_ne.
Qed.

Lemma parse_entries_raises (good : list Element) (bad : Element)
    (rest : list Element) (e : exc) (m : gmap Z Entry) :
  Forall (parses exc int) good ->
  int (el_get (el_attrib bad) "chord") = inr e ->
  parse_entries exc int (good ++ bad :: rest) m = inr e.
Proof.
  intros H Hb. revert m. induction H as [|el els [ch Hch] _ IH]; intros m.
  - cbn [app parse_entries]. now rewrite Hb.
  - cbn [app parse_entries]. rewrite Hch. apply IH.
Qed.

End ParseLayoutFacts.

(** X12. When the chord of every [entry] element is read as an integer,
    [parse_layout] returns the id and the name of the root (or [None]) and a
    table in which each chord has the attributes of the last [entry] element
    with that chord, a missing attribute being the empty string; a chord of
    no element is absent, and children with another tag are ignored. *)
Theorem parse_layout_last_wins (exc : Type) (int : option pystr -> Z + exc)
    (root : Root) :
  Forall (parses exc int) (findall_entry root) ->
  exists entries,
    parse_layout exc int root =
      inl (el_get (root_attrib root) "id", el_get (root_attrib root) "name",
           entries) /\
    forall c,
      entries !! c =
      entry_of <$> List.find (chord_is exc int c)
                             (List.rev (findall_entry root)).
Proof.
  intros H. unfold parse_layout.
  destruct (parse_entries_ok exc int (findall_entry root) ∅ H)
    as (m & -> & Hl).
  exists m. split; [reflexivity|]. intros c. rewrite Hl.
  destruct (List.find _ _); [reflexivity|apply lookup_empty].
Qed.

Lemma parse_layout_last_wins_witness :
  Forall (parses unit ex_int) (findall_entry ex_root) /\
  exists entries,
    parse_layout unit ex_int ex_root
      = inl (None, Some (lit "English"), entries) /\
    entries !! 3 = Some (mkEntry (lit "u") [] (lit "7") [] [] []) /\
    entries !! 5 = None.
Proof.
  assert (H : Forall (parses unit ex_int) (findall_entry ex_root)).
  { repeat constructor; exists 3; reflexivity. }
  split; [exact H|].
  destruct (parse_layout_last_wins unit ex_int ex_root H)
    as (entries & Hp & Hl).
  exists entries. split; [exact Hp|]. split; [exact (Hl 3)|exact (Hl 5)].
Defined.

(** X13. The exception that [int] raises on the chord of the first [entry]
    element that it cannot read leaves [parse_layout]: the elements after it
    are not looked at. *)
Theorem parse_layout_first_error (exc : Type) (int : option pystr -> Z + exc)
    (root : Root) (good : list Element) (bad : Element)
    (rest : list Element) (e : exc) :
  findall_entry root = good ++ bad :: rest ->
  Forall (parses exc int) good ->
  int (el_get (el_attrib bad) "chord") = inr e ->
  parse_layout exc int root = inr e.
Proof.
  intros Hf Hg Hb. unfold parse_layout.
  now rewrite Hf, (parse_entries_raises exc int good bad rest e ∅ Hg Hb).
Qed.

Lemma parse_layout_first_error_witness :
  parse_layout unit ex_int ex_bad_root = inr tt.
Proof.
  apply (parse_layout_first_error unit ex_int ex_bad_root
           [ex_element "entry" [(lit "chord", lit "3"); (lit "abc", lit "t")]]
           (ex_element "entry" [(lit "abc", lit "u")])
           [ex_element "entry" [(lit "chord", lit "5")]] tt).
  - reflexivity.
  - repeat constructor. exists 3. reflexivity.
  - reflexivity.
Defined.

Lemma variant_of_nonempty (fname : pystr) : variant_of fname <> [].
Proof. unfold variant_of. destruct (py_in _ _); discriminate. Qed.

(** X14. For a layout file whose chords are all read, the loop of [main]
    ends in a [TypeError] when the root has no id and a missing or empty
    name (the variant that [main] passes is never empty), and has a document
    to write otherwise, whatever the file name. *)
Theorem svg_content_outcome (exc : Type) (int : option pystr -> Z + exc)
    (fmt_1f repr_float : Q -> pystr) (fname : pystr) (root : Root) :
  Forall (parses exc int) (findall_entry root) ->
  let layout_id := el_get (root_attrib root) "id" in
  let layout_name := el_get (root_attrib root) "name" in
  (layout_id = None -> layout_name = None \/ layout_name = Some [] ->
   svg_content exc int fmt_1f repr_float fname root
     = inr (InSvg TypeError)) /\
  (layout_id <> None \/ (layout_name <> None /\ layout_name <> Some []) ->
   exists doc,
     svg_content exc int fmt_1f repr_float fname root = inl doc).
Proof.
  intros H layout_id layout_name. unfold svg_content, parse_layout.
  destruct (parse_entries_ok exc int (findall_entry root) ∅ H)
    as (entries & -> & _).
  fold layout_id layout_name.
  destruct (svg_outcome fmt_1f repr_float layout_id layout_name entries
              (variant_of fname)) as [Hr Ho].
  split.
  - intros Hi Hn. rewrite (Hr (variant_of_nonempty fname) Hi Hn).
    reflexivity.
  - intros Hn. destruct (Ho (or_intror Hn)) as (parts & ->).
    eexists. reflexivity.
Qed.

Lemma svg_content_outcome_witness :
  Forall (parses unit ex_int) (findall_entry ex_root) /\
  exists doc,
    svg_content unit ex_int (fun _ => []) (fun _ => [])
                (lit "en-standard.xml") ex_root = inl doc.
Proof.
  assert (H : Forall (parses unit ex_int) (findall_entry ex_root)).
  { repeat constructor; exists 3; reflexivity. }
  split; [exact H|].
  apply (proj2 (svg_content_outcome unit ex_int (fun _ => []) (fun _ => [])
                  (lit "en-standard.xml") ex_root H)).
  right. split; discriminate.
Defined.

(** * The diagram as a whole *)

Local Open Scope Z_scope.

Lemma Ok_inj {T : Type} (a b : T) : Ok a = Ok b -> a = b.
Proof. intros H. now injection H. Qed.

Lemma title_text_ok (layout_id layout_name : option pystr) (variant : pystr) :
  has_title layout_id layout_name variant ->
  exists x y t, title_text layout_id layout_name variant
                = Ok (svg_text x y t 22 "#222" "middle" "bold").
Proof.
  unfold has_title, title_text, py_or. intros H.
  destruct layout_name as [[|c s]|], layout_id as [i|], variant as [|d v];
    cbn [truthy bind]; try (do 3 eexists; reflexivity);
    exfalso; destruct H as [H|[H|[H H']]];
    first [discriminate H | now apply H | now apply H'].
Qed.

(** With a title, [generate_svg] draws the title, the main box and the
    sections, in this order. *)
Lemma parts_shape (layout_id layout_name : option pystr)
    (entries : gmap Z Entry) (variant : pystr) :
  has_title layout_id layout_name variant ->
  exists x y t inner,
    inner_section entries = Ok inner /\
    generate_svg_parts layout_id layout_name entries variant =
    Ok (svg_text x y t 22 "#222" "middle" "bold" ++ main_box ++
        center_section entries ++ inner ++
        outer_section entries outer_left_x (lit "Left outer: ") left_outer ++
        outer_section entries outer_right_x (lit "Right outer: ") right_outer ++
        directions_section entries ++ modes_section entries ++
        section_labels ++ control_section entries).
Proof.
  intros H. unfold generate_svg_parts.
  destruct (title_text_ok _ _ _ H) as (x & y & t & ->).
  destruct (inner_section_frames entries entries) as (inner & _ & Hi & _ & _).
  rewrite Hi. cbn [bind]. exists x, y, t, inner. split; reflexivity.
Qed.

Lemma parts_frames_titled (id1 name1 id2 name2 : option pystr)
    (v1 v2 : pystr) (e1 e2 : gmap Z Entry) :
  has_title id1 name1 v1 -> has_title id2 name2 v2 ->
  exists p1 p2,
    generate_svg_parts id1 name1 e1 v1 = Ok p1 /\
    generate_svg_parts id2 name2 e2 v2 = Ok p2 /\
    frame_geometry p1 = frame_geometry p2.
Proof.
  intros H1 H2.
  destruct (parts_shape _ _ e1 _ H1) as (x1 & y1 & t1 & i1 & Hi1 & ->).
  destruct (parts_shape _ _ e2 _ H2) as (x2 & y2 & t2 & i2 & Hi2 & ->).
  destruct (inner_section_frames e1 e2) as (o1 & o2 & Ho1 & Ho2 & Hi).
  rewrite Hi1 in Ho1. apply Ok_inj in Ho1. subst o1.
  rewrite Hi2 in Ho2. apply Ok_inj in Ho2. subst o2.
  do 2 eexists. split; [reflexivity|]. split; [reflexivity|].
  rewrite !frame_geometry_app, Hi, !frame_geometry_text.
  rewrite !(outer_section_frames e1 e2), (directions_section_frames e1 e2),
    (modes_section_frames e1 e2), (control_section_frames e1 e2).
  unfold center_section. rewrite !frame_geometry_app.
  now rewrite (frame_geometry_center _ _ e1 e2).
Qed.

Lemma returns_has_title (layout_id layout_name : option pystr)
    (variant : pystr) (entries : gmap Z Entry) (parts : list prim) :
  generate_svg_parts layout_id layout_name entries variant = Ok parts ->
  has_title layout_id layout_name variant.
Proof.
  unfold has_title, generate_svg_parts, title_text, py_or.
  destruct layout_name as [[|c s]|], layout_id as [i|], variant as [|d v];
    cbn [truthy bind]; try discriminate; intros _;
    first [now left | right; left; discriminate
          | right; right; split; discriminate].
Qed.


(** ** Sizes of the badges *)

Lemma badge_sizes_app (l1 l2 : list prim) :
  badge_sizes (l1 ++ l2) = badge_sizes l1 ++ badge_sizes l2.
Proof.
  unfold badge_sizes. now rewrite List.filter_app, List.flat_map_app.
Qed.

Lemma tidy_badge_sizes (l : list prim) : Forall tidy l -> badge_sizes l = [].
Proof.
  intros H. unfold badge_sizes. now rewrite (tidy_no_badge l H).
Qed.

Lemma inner_badge_size ox oy kw kh gx gy e base r0 r1 :
  bits base <> [] ->
  exists badge,
    inner_badge ox oy kw kh gx gy e base r0 r1 = Ok badge /\
    badge_sizes badge =
      (let c := field abc (e !! base) in
       let fs := font_size_for c 16 in
       if truthy c then
         [(py_max (kw - 2) (inject_Z (len c * fs) * 0.7 + 8),
           inject_Z (fs + 8))]
       else [])%Q.
Proof.
  intros Hb. unfold inner_badge. cbv zeta.
  destruct (truthy (field abc (e !! base)));
    [|exists []; split; reflexivity].
  destruct (set_first (bits base)) as [k0|] eqn:Hk;
    [|exfalso; revert Hk; now apply set_first_some].
  eexists. split; [reflexivity|].
  rewrite !badge_sizes_app.
  rewrite (tidy_badge_sizes (_draw_num_symb _ _ _ _ _ _ _ _))
    by (apply tidy_num_symb; lia).
  reflexivity.
Qed.

Lemma inner_cell_badge_size cx cy e base :
  bits base <> [] ->
  exists out,
    draw_inner_chord_cell cx cy e base = Ok out /\
    badge_sizes out =
      if truthy (field abc (e !! base))
      then [badge_size_of (field abc (e !! base))] else [].
Proof.
  intros Hb. unfold draw_inner_chord_cell. cbv zeta.
  destruct (sorted (List.map KROW (bits base))) as [|r0 rest] eqn:Hs.
  { exfalso. revert Hs. apply sorted_nonempty.
    destruct (bits base); [congruence|discriminate]. }
  match goal with
  | |- context [inner_badge ?ox ?oy ?kw ?kh ?gx ?gy e base ?a ?b] =>
      destruct (inner_badge_size ox oy kw kh gx gy e base a b Hb)
        as (badge & -> & Hc)
  end.
  cbn [bind]. eexists. split; [reflexivity|].
  rewrite !badge_sizes_app, Hc.
  rewrite (tidy_badge_sizes _ (tidy_inner_keys _ _ _ _ _ _ e base)).
  rewrite (tidy_badge_sizes _ (tidy_ext_annotations _ _ _ _ _ _ e base)).
  cbv zeta. destruct (truthy (field abc (e !! base))); reflexivity.
Qed.

Lemma for_each_badge_sizes {T : Type} (l : list T)
    (f : T -> result (list prim)) (t : T -> bool) (size : T -> Q * Q) :
  (forall x, In x l ->
     exists o, f x = Ok o /\
       badge_sizes o = if t x then [size x] else []) ->
  exists out, for_each l f = Ok out /\
    badge_sizes out = List.map size (List.filter t l).
Proof.
  induction l as [|x l IH]; intros H.
  - exists []. split; reflexivity.
  - destruct (H x (or_introl eq_refl)) as (o & Ho & Co).
    destruct IH as (r & Hr & Cr); [intros y Hy; apply H; now right|].
    exists (o ++ r). cbn [for_each]. rewrite Ho, Hr. cbn [bind].
    split; [reflexivity|].
    rewrite badge_sizes_app, Co, Cr. cbn [List.filter].
    destruct (t x); reflexivity.
Qed.

Lemma inner_section_badge_sizes e :
  exists out, inner_section e = Ok out /\
    badge_sizes out =
    List.map (fun '(_, _, chord) => badge_size_of (field abc (e !! chord)))
             (lettered_inner_chords e).
Proof.
  unfold inner_section, lettered_inner_chords.
  apply (for_each_badge_sizes inner_chords _
           (fun '(_, _, chord) => truthy (field abc (e !! chord)))
           (fun '(_, _, chord) => badge_size_of (field abc (e !! chord)))).
  intros [[row col] chord] Hin. apply inner_chords_pressed in Hin. cbv zeta.
  match goal with
  | |- context [draw_inner_chord_cell ?x ?y e chord] =>
      destruct (inner_cell_badge_size x y e chord Hin) as (o & -> & Hc)
  end.
  cbn [bind]. eexists. split; [reflexivity|].
  rewrite badge_sizes_app, Hc. reflexivity.
Qed.

Lemma parts_badge_sizes (layout_id layout_name : option pystr)
    (variant : pystr) (e : gmap Z Entry) (parts : list prim) :
  generate_svg_parts layout_id layout_name e variant = Ok parts ->
  badge_sizes parts =
  List.map (fun '(_, _, chord) => badge_size_of (field abc (e !! chord)))
           (lettered_inner_chords e).
Proof.
  intros Hp.
  destruct (parts_shape _ _ e _ (returns_has_title _ _ _ _ _ Hp))
    as (x & y & t & inner & Hi & Hs).
  rewrite Hp in Hs. apply Ok_inj in Hs. subst parts.
  destruct (inner_section_badge_sizes e) as (inner' & Hi' & Hb).
  rewrite Hi in Hi'. apply Ok_inj in Hi'. subst inner'.
  rewrite !badge_sizes_app, Hb.
  assert (T2 : Forall tidy main_box)
    by (constructor; [reflexivity|constructor]).
  assert (T3 : Forall tidy (center_section e)).
  { unfold center_section. cbv zeta.
    constructor; [reflexivity|apply tidy_center]. }
  assert (T4 : forall px n l, Forall tidy (outer_section e px n l)).
  { intros px n l. unfold outer_section. apply tidy_flat_map.
    intros [[row col] chord]. cbv zeta.
    constructor; [reflexivity|apply tidy_outer]. }
  assert (T5 : Forall tidy (directions_section e)).
  { unfold directions_section. constructor; [reflexivity|].
    apply List.Forall_app; split;
      [|apply List.Forall_app; split; apply tidy_direction].
    apply tidy_flat_map. intros [[row col] chord]. apply tidy_direction. }
  assert (T6 : Forall tidy (modes_section e)).
  { unfold modes_section. constructor; [reflexivity|].
    apply tidy_flat_map. intros [i [chord label]]. apply tidy_mode. }
  assert (T7 : Forall tidy section_labels).
  { unfold section_labels. cbv zeta.
    constructor; [simpl; lia|constructor; [simpl; lia|constructor]]. }
  assert (T8 : Forall tidy (control_section e)).
  { unfold control_section. constructor; [reflexivity|].
    constructor; [simpl; lia|].
    apply tidy_flat_map. intros [i [chord label]]. apply tidy_control. }
  rewrite (tidy_badge_sizes _ T2), (tidy_badge_sizes _ T3),
    !(tidy_badge_sizes _ (T4 _ _ _)), (tidy_badge_sizes _ T5),
    (tidy_badge_sizes _ T6), (tidy_badge_sizes _ T7),
    (tidy_badge_sizes _ T8).
  rewrite !app_nil_r. reflexivity.
Qed.

(** C4, amended. For every layout for which a title can be formed, the
    canvas is 1177 x 834 and the position and size of every rectangle other
    than the badges of the inner cells are the same, whatever the table, the
    id, the name and the variant.  The badges are those of the inner chords
    whose letter resolves to a non-empty string, in draw order, and the
    badge of a letter [c] drawn at font size [fs = font_size_for c 16] is
    [max(40, len(c) * fs * 0.7 + 8)] wide and [fs + 8] high. *)
Theorem frame_geometry_fixed
    (fmt_1f repr_float : Q -> pystr)
    (id1 name1 id2 name2 : option pystr) (v1 v2 : pystr)
    (e1 e2 : gmap Z Entry) :
  has_title id1 name1 v1 -> has_title id2 name2 v2 ->
  exists p1 p2,
    generate_svg fmt_1f repr_float id1 name1 e1 v1
      = Ok (Svg_build fmt_1f repr_float p1 1177 834) /\
    generate_svg fmt_1f repr_float id2 name2 e2 v2
      = Ok (Svg_build fmt_1f repr_float p2 1177 834) /\
    generate_svg_parts id1 name1 e1 v1 = Ok p1 /\
    generate_svg_parts id2 name2 e2 v2 = Ok p2 /\
    frame_geometry p1 = frame_geometry p2 /\
    badge_sizes p1 =
      List.map (fun '(_, _, chord) => badge_size_of (field abc (e1 !! chord)))
               (lettered_inner_chords e1) /\
    badge_sizes p2 =
      List.map (fun '(_, _, chord) => badge_size_of (field abc (e2 !! chord)))
               (lettered_inner_chords e2).
Proof.
  intros H1 H2.
  destruct (parts_frames_titled id1 name1 id2 name2 v1 v2 e1 e2 H1 H2)
    as (p1 & p2 & Hp1 & Hp2 & Hg).
  exists p1, p2. unfold generate_svg. rewrite Hp1, Hp2. cbn [bind].
  split; [reflexivity|]. split; [reflexivity|].
  split; [reflexivity|]. split; [reflexivity|]. split; [exact Hg|].
  split.
  - exact (parts_badge_sizes _ _ _ _ _ Hp1).
  - exact (parts_badge_sizes _ _ _ _ _ Hp2).
Qed.

Lemma frame_geometry_fixed_witness :
  has_title None (Some (lit "English")) (lit "Standard") /\
  has_title (Some (lit "en")) None [] /\
  exists p1 p2,
    generate_svg_parts None (Some (lit "English")) ex_t (lit "Standard")
      = Ok p1 /\
    generate_svg_parts (Some (lit "en")) None ex_ab [] = Ok p2 /\
    frame_geometry p1 = frame_geometry p2 /\
    badge_sizes p1 = [badge_size_of (lit "t")] /\
    badge_sizes p2 = [badge_size_of (lit "ab")].
Proof.
  assert (H1 : has_title None (Some (lit "English")) (lit "Standard"))
    by (right; right; split; discriminate).
  assert (H2 : has_title (Some (lit "en")) None [])
    by (left; reflexivity).
  split; [exact H1|]. split; [exact H2|].
  destruct (frame_geometry_fixed (fun _ => []) (fun _ => [])
              None (Some (lit "English")) (Some (lit "en")) None
              (lit "Standard") [] ex_t ex_ab H1 H2)
    as (p1 & p2 & _ & _ & Hp1 & Hp2 & Hg & Hb1 & Hb2).
  exists p1, p2. split; [exact Hp1|]. split; [exact Hp2|].
  split; [exact Hg|]. split; [exact Hb1|exact Hb2].
Defined.

Local Open Scope Z_scope.

(** ** Cells of absent chords, slot by slot *)

Local Open Scope Q_scope.




(** ** Every slot is part of the diagram *)








Local Open Scope Z_scope.

(** ** Determinism *)












(** The order in which [ext_side] is listed does show: with [RIGHT] listed
    from its last member, the annotations of the extensions of AB come in
    another order, and the primitives of the diagram of [ex_ext] are not
    those of [generate_svg]. *)
Lemma ext_side_order_shows :
  Permutation (List.rev RIGHT) RIGHT /\
  generate_svg_parts_in (@List.rev Z) (Some []) (Some []) ex_ext [] <>
  generate_svg_parts (Some []) (Some []) ex_ext [].
Proof.
  split; [apply Permutation_sym, Permutation_rev|].
  vm_compute. discriminate.
Qed.

Local Open Scope Z_scope.

(** ** Chords that are read *)

Lemma text_count_title (layout_id layout_name : option pystr)
    (variant : pystr) (e : gmap Z Entry) :
  has_title layout_id layout_name variant ->
  text_count (generate_svg_parts layout_id layout_name e variant) =
  text_count (generate_svg_parts (Some []) (Some []) e []).
Proof.
  intros Ht.
  assert (H0 : has_title (Some []) (Some []) []) by now left.
  destruct (parts_shape _ _ e _ Ht) as (x & y & t & inner & Hi & ->).
  destruct (parts_shape _ _ e _ H0) as (x0 & y0 & t0 & inner0 & Hi0 & ->).
  rewrite Hi in Hi0. apply Ok_inj in Hi0. subst inner0.
  reflexivity.
Qed.

Lemma displayed_read_table :
  List.forallb
    (fun c =>
       negb (Nat.eqb
               (text_count (generate_svg_parts (Some []) (Some [])
                              (<[c := ex_entry]> ∅) []))
               (text_count (generate_svg_parts (Some []) (Some []) ∅ []))))
    displayed_chords = true.
Proof. vm_compute. reflexivity. Qed.

(** X7. The chords that the diagram shows are the chords 1..63 but for
    ABCD, ABCE, ABCF, ADEF, BDEF and CDEF (15, 23, 39, 57, 58, 60).  The
    entries of all other chords are never read: two tables that agree on the
    chords shown give the same document, or the same exception.  Each of
    the chords shown is read: when a title can be formed, an entry with a
    letter and a digit for that chord alone changes the primitives that are
    drawn for the empty table. *)
Theorem undisplayed_chords_unread
    (fmt_1f repr_float : Q -> pystr) (layout_id layout_name : option pystr)
    (e1 e2 : gmap Z Entry) (variant : pystr) :
  (forall c, In c displayed_chords <->
             1 <= c <= 63 /\ ~ In c [15; 23; 39; 57; 58; 60]) /\
  ((forall c, In c displayed_chords -> e1 !! c = e2 !! c) ->
   generate_svg fmt_1f repr_float layout_id layout_name e1 variant =
   generate_svg fmt_1f repr_float layout_id layout_name e2 variant) /\
  (has_title layout_id layout_name variant ->
   forall c, In c displayed_chords ->
     generate_svg_parts layout_id layout_name (<[c := ex_entry]> ∅) variant
     <> generate_svg_parts layout_id layout_name ∅ variant).
Proof.
  split; [|split].
  - intros c. destruct displayed_table as [T1 T2].
    rewrite forallb_forall in T1, T2. split.
    + intros Hc. specialize (T2 c Hc).
      apply andb_true_iff in T2 as [Ha Hb].
      assert (Hr : 1 <= c <= 63) by lia. split; [exact Hr|].
      specialize (T1 c (chord_range c Hr)).
      apply key_in_In in Hc. rewrite Hc in T1.
      intros Hin. apply key_in_In in Hin. rewrite Hin in T1. discriminate T1.
    + intros [Hr Hn]. specialize (T1 c (chord_range c Hr)).
      apply key_in_In.
      destruct (key_in c displayed_chords); [reflexivity|].
      destruct (key_in c [15; 23; 39; 57; 58; 60]) eqn:Hk;
        [|discriminate T1].
      exfalso. apply Hn. now apply key_in_In.
  - intros H. unfold generate_svg. now rewrite (parts_reads _ _ e1 e2 _ H).
  - intros Ht c Hc Heq.
    apply (f_equal text_count) in Heq.
    rewrite !(text_count_title _ _ _ _ Ht) in Heq.
    pose proof displayed_read_table as T. rewrite forallb_forall in T.
    specialize (T c Hc). rewrite Heq, Nat.eqb_refl in T. discriminate T.
Qed.

Lemma undisplayed_chords_unread_witness :
  generate_svg (fun _ => []) (fun _ => []) (Some (lit "en")) None
    ∅ (lit "Standard") =
  generate_svg (fun _ => []) (fun _ => []) (Some (lit "en")) None
    (<[15 := mkEntry (lit "x") [] (lit "1") [] [] []]>
       (<[64 := mkEntry (lit "y") [] [] [] [] []]> ∅)) (lit "Standard") /\
  generate_svg_parts (Some (lit "en")) None (<[17 := ex_entry]> ∅)
                     (lit "Standard")
  <> generate_svg_parts (Some (lit "en")) None ∅ (lit "Standard").
Proof.
  split.
  - apply undisplayed_chords_unread. intros c Hc.
    assert (Hn : c <> 15 /\ c <> 64).
    { apply (proj1 (proj1 (undisplayed_chords_unread (fun _ => [])
         (fun _ => []) None None ∅ ∅ []) c)) in Hc. simpl in Hc. lia. }
    destruct Hn as [H15 H64]. rewrite !lookup_insert_ne by congruence.
    reflexivity.
  - apply (proj2 (proj2 (undisplayed_chords_unread (fun _ => [])
             (fun _ => []) (Some (lit "en")) None ∅ ∅ (lit "Standard")))).
    + right. left. discriminate.
    + apply key_in_In. vm_compute. reflexivity.
Defined.
